(** * Mission Control WhatsApp bridge: a shallow embedding

    The repository holds two implementations of the same bridge:
    - [src/whatsapp-bridge/index.js], built on whatsapp-web.js (module [WWeb]);
    - [src/unnamed/part_000], built on Baileys (module [Baileys]).

    JavaScript strings are sequences of UTF-16 code units, so [length]
    is the value of [.length].  Handlers are [async] functions: they are
    embedded as trees of the effects they await (sending a reply,
    running the assistant, sleeping) with the synchronous accesses to
    the [activeSessions] map in between.  Console logging is left out. *)

From Stdlib Require Import NArith ZArith Lia String Ascii DecimalString.
From stdpp Require Import base list gmap.

(** ** JavaScript strings and the built-ins the bridge uses *)

Abbreviation jsstring := (list N).

Module JS.

Local Open Scope N_scope.

(** An ASCII literal as code units. *)
Definition lit (s : string) : jsstring :=
  map N_of_ascii (list_ascii_of_string s).

Definition LF : N := 10.
Definition QUOTE : N := 34.

(** ECMAScript WhiteSpace and LineTerminator code points, as removed by
    [String.prototype.trim]. *)
Definition is_white (c : N) : bool :=
  (9 <=? c) && (c <=? 13) || (c =? 32) || (c =? 160) || (c =? 5760)
  || (8192 <=? c) && (c <=? 8202) || (c =? 8232) || (c =? 8233)
  || (c =? 8239) || (c =? 8287) || (c =? 12288) || (c =? 65279).

Fixpoint trimStart (s : jsstring) : jsstring :=
  match s with
  | c :: r => if is_white c then trimStart r else s
  | [] => []
  end.

Definition trimEnd (s : jsstring) : jsstring :=
  reverse (trimStart (reverse s)).

Definition trim (s : jsstring) : jsstring := trimEnd (trimStart s).

(** Truthiness of a string: non-empty. *)
Definition truthy (s : jsstring) : bool :=
  match s with [] => false | _ => true end.

(** [a || b] on strings. *)
Definition or_else (a b : jsstring) : jsstring :=
  if truthy a then a else b.

Definition eqb (a b : jsstring) : bool := bool_decide (a = b).

(** [s.split(sep)] for a one-unit separator. *)
Fixpoint split (sep : N) (s : jsstring) : list jsstring :=
  match s with
  | [] => [[]]
  | c :: r =>
      if c =? sep then [] :: split sep r
      else match split sep r with
           | l :: ls => (c :: l) :: ls
           | [] => [[c]]
           end
  end.

Fixpoint starts_with (p s : jsstring) : bool :=
  match p, s with
  | [], _ => true
  | a :: p', b :: s' => (a =? b) && starts_with p' s'
  | _ :: _, [] => false
  end.

Definition endsWith (s suffix : jsstring) : bool :=
  starts_with (reverse suffix) (reverse s).

(** [s.replace(pat, rep)] with a string pattern: first occurrence only. *)
Fixpoint replace (pat rep s : jsstring) : jsstring :=
  if starts_with pat s then rep ++ drop (length pat) s
  else match s with
       | [] => []
       | c :: r => c :: replace pat rep r
       end.

(** [s.replace(/^\+/, '')]. *)
Definition strip_leading_plus (s : jsstring) : jsstring :=
  match s with
  | c :: r => if c =? 43 then r else s
  | [] => []
  end.

Definition includes (l : list jsstring) (x : jsstring) : bool :=
  existsb (eqb x) l.

(** Numbers in template literals. *)
Definition nat_toString (n : nat) : jsstring :=
  lit (NilZero.string_of_uint (Nat.to_uint n)).

Definition int_toString (z : Z) : jsstring :=
  lit (NilZero.string_of_int (Z.to_int z)).

(** ASCII case folding; [String.prototype.toLowerCase] agrees with it
    on strings of ASCII units. *)
Definition ascii_lower (c : N) : N :=
  if (65 <=? c) && (c <=? 90) then c + 32 else c.

Definition is_ascii (c : N) : bool := c <? 128.

End JS.

(** ** Asynchronous handlers as effect trees *)

(** How a promise settles. *)
Inductive outcome : Type :=
  | Resolved (value : jsstring)
  | Rejected (message : jsstring).

(** What the child process and the timer do while [runClaude] waits. *)
Inductive proc_event : Type :=
  | StdoutData (data : jsstring)
  | StderrData (data : jsstring)
  | ProcClose (code : option Z)       (* [None] is JavaScript's [null] *)
  | ProcError (message : jsstring)    (* the process could not be spawned *)
  | TimerFired.

(** The arguments of [child_process.spawn]. *)
Record spawn_call : Type := SpawnCall {
  command : jsstring;
  arguments : list jsstring;
  cwd : jsstring;
  env_added : list (jsstring * jsstring);
  spawn_timeout : option N
}.

(** An [async] function body.  [Reply] and [Spawn] are the points where
    the function awaits the outside world: a reply is either delivered
    ([None]) or rejected with a message; a call of [spawn] either throws
    at once, inside the promise executor of [runClaude], and starts
    nothing ([inl] with the message of the error), or starts a child
    process that produces a sequence of events ([inr]). *)
Inductive prog (A : Type) : Type :=
  | Ret (a : A)
  | Throw (message : jsstring)
  | GetSession (sender : jsstring) (k : option bool -> prog A)
  | SetSession (sender : jsstring) (busy : bool) (k : prog A)
  | Reply (to text : jsstring) (k : option jsstring -> prog A)
  | Spawn (call : spawn_call) (k : jsstring + list proc_event -> prog A)
  | Sleep (ms : N) (k : prog A).

Arguments Ret {A} a.
Arguments Throw {A} message.
Arguments GetSession {A} sender k.
Arguments SetSession {A} sender busy k.
Arguments Reply {A} to text k.
Arguments Spawn {A} call k.
Arguments Sleep {A} ms k.

Fixpoint bind {A B} (p : prog A) (f : A -> prog B) : prog B :=
  match p with
  | Ret a => f a
  | Throw m => Throw m
  | GetSession s k => GetSession s (fun o => bind (k o) f)
  | SetSession s b k => SetSession s b (bind k f)
  | Reply to t k => Reply to t (fun r => bind (k r) f)
  | Spawn c k => Spawn c (fun ev => bind (k ev) f)
  | Sleep ms k => Sleep ms (bind k f)
  end.

(** stdpp's notations [x ← p; q] and [p ;; q] sequence awaits. *)
#[export] Instance prog_bind : MBind prog := fun A B f p => bind p f.
#[export] Instance prog_ret : MRet prog := @Ret.

(** [try { p } catch (err) { h err.message }] *)
Fixpoint try_catch {A} (p : prog A) (h : jsstring -> prog A) : prog A :=
  match p with
  | Ret a => Ret a
  | Throw m => h m
  | GetSession s k => GetSession s (fun o => try_catch (k o) h)
  | SetSession s b k => SetSession s b (try_catch k h)
  | Reply to t k => Reply to t (fun r => try_catch (k r) h)
  | Spawn c k => Spawn c (fun ev => try_catch (k ev) h)
  | Sleep ms k => Sleep ms (try_catch k h)
  end.

(** [try { p } finally { f }] *)
Fixpoint try_finally {A} (p : prog A) (f : prog unit) : prog A :=
  match p with
  | Ret a => f ;; Ret a
  | Throw m => f ;; Throw m
  | GetSession s k => GetSession s (fun o => try_finally (k o) f)
  | SetSession s b k => SetSession s b (try_finally k f)
  | Reply to t k => Reply to t (fun r => try_finally (k r) f)
  | Spawn c k => Spawn c (fun ev => try_finally (k ev) f)
  | Sleep ms k => Sleep ms (try_finally k f)
  end.

(** [await message.reply(text)] / [await sock.sendMessage(jid, { text })]:
    a text for the chat [to]. *)
Definition send (to text : jsstring) : prog unit :=
  Reply to text (fun r => match r with None => Ret tt | Some m => Throw m end).

(** [await new Promise(r => setTimeout(r, ms))] *)
Definition sleep (ms : N) : prog unit := Sleep ms (Ret tt).

(** [activeSessions.get(sender)?.busy], as a condition. *)
Definition session_busy (sender : jsstring) : prog bool :=
  GetSession sender (fun o => Ret (default false o)).

Definition set_busy (sender : jsstring) (b : bool) : prog unit :=
  SetSession sender b (Ret tt).

(** *** Running a handler against the outside world *)

(** What the outside world answers: the fate of the n-th reply, the
    events of the child process of the n-th call of [spawn], and the
    error that this call throws instead of starting a process, if it
    does (a prompt with a null unit, an argument list that is too
    long). *)
Record world : Type := World {
  delivery : nat -> option jsstring;
  child : nat -> list proc_event;
  spawn_throws : nat -> option jsstring
}.

(** What the n-th call of [spawn] brings. *)
Definition launch (w : world) (n : nat) : jsstring + list proc_event :=
  match spawn_throws w n with
  | Some m => inl m
  | None => inr (child w n)
  end.

(** The calls a handler makes to the outside: a reply handed to the
    transport, a call of [spawn], a pause.  They are recorded when they
    are made, whatever the outside answers. *)
Inductive effect : Type :=
  | Sent (to text : jsstring)
  | Spawned (call : spawn_call)
  | Slept (ms : N).

(** The observable result of a run: the session map it leaves, the
    effects in order, and how the handler ended. *)
Record run (A : Type) : Type := Run {
  sessions : gmap jsstring bool;
  trace : list effect;
  result : A + jsstring
}.
Arguments Run {A} sessions trace result.
Arguments sessions {A} r.
Arguments trace {A} r.
Arguments result {A} r.

Definition emit {A} (e : effect) (r : run A) : run A :=
  Run (sessions r) (e :: trace r) (result r).

(** [i] replies and [j] calls of [spawn] have been made so far. *)
Fixpoint exec {A} (w : world) (p : prog A) (st : gmap jsstring bool)
    (i j : nat) : run A :=
  match p with
  | Ret a => Run st [] (inl a)
  | Throw m => Run st [] (inr m)
  | GetSession s k => exec w (k (st !! s)) st i j
  | SetSession s b k => exec w k (<[s := b]> st) i j
  | Reply to t k => emit (Sent to t) (exec w (k (delivery w i)) st (S i) j)
  | Spawn c k => emit (Spawned c) (exec w (k (launch w j)) st i (S j))
  | Sleep ms k => emit (Slept ms) (exec w k st i j)
  end.

Definition is_sent (e : effect) : option jsstring :=
  match e with Sent _ t => Some t | _ => None end.
Definition is_spawned (e : effect) : option spawn_call :=
  match e with Spawned c => Some c | _ => None end.

Definition replies {A} (r : run A) : list jsstring := omap is_sent (trace r).
Definition spawns {A} (r : run A) : list spawn_call := omap is_spawned (trace r).

(** A transport that delivers every reply. *)
Definition delivers (w : world) : Prop := forall n, delivery w n = None.

(** ** What both bridges read from their environment *)

(** [toLowerCase] is the engine's [String.prototype.toLowerCase]; the
    two environment variables are optional; [parent_dir] is
    [path.resolve(__dirname, '..')]. *)
Record runtime : Type := Runtime {
  toLowerCase : jsstring -> jsstring;
  WA_AUTHORIZED_NUMBERS : option jsstring;
  WA_WORK_DIR : option jsstring;
  parent_dir : jsstring
}.

(** [process.env.WA_WORK_DIR || path.resolve(__dirname, '..')] *)
Definition WORK_DIR (rt : runtime) : jsstring :=
  JS.or_else (default [] (WA_WORK_DIR rt)) (parent_dir rt).

Definition MAX_RESPONSE_LENGTH : nat := 4000.
Definition CLAUDE_TIMEOUT_MS : N := (5 * 60 * 1000)%N.

Definition NO_OUTPUT : jsstring := JS.lit "(No output)".
Definition TIMED_OUT : jsstring := JS.lit "Command timed out after 5 minutes".
Definition TASKS_PROMPT : jsstring :=
  JS.lit "List all tasks from data/tasks.json with their status. Be concise.".

(** [`${code}`] for an exit code. *)
Definition code_toString (code : option Z) : jsstring :=
  match code with
  | Some z => JS.int_toString z
  | None => JS.lit "null"
  end.

Definition exited_with (code : option Z) : jsstring :=
  (JS.lit "Claude exited with code " ++ code_toString code)%list.

Definition failed_to_run (m : jsstring) : jsstring :=
  (JS.lit "Failed to run Claude: " ++ m)%list.

(** [code === 0] *)
Definition is_zero (code : option Z) : bool := bool_decide (code = Some 0%Z).

(** [`📄 *Part ${part}:*\n\n${chunk}`] *)
Definition part_label (part : nat) : jsstring :=
  ([55357; 56516]%N ++ JS.lit " *Part " ++ JS.nat_toString part
     ++ JS.lit ":*" ++ [JS.LF; JS.LF])%list.

Definition labelled (part : nat) (chunk : jsstring) : jsstring :=
  (part_label part ++ chunk)%list.

Definition error_reply (m : jsstring) : jsstring :=
  ([10060]%N ++ JS.lit " Error: " ++ m)%list.

Definition PROCESSING : jsstring := ([55357; 56580]%N ++ JS.lit " Processing...")%list.

(** The settled-once behaviour of a promise: [resolve] and [reject]
    have no effect on a promise that is already settled. *)
Definition settle (p : option outcome) (o : outcome) : option outcome :=
  match p with
  | None => Some o
  | Some _ => p
  end.

(** ** The whatsapp-web.js bridge: [src/whatsapp-bridge/index.js] *)

Module WWeb.

(** The fields of an inbound message the handler reads. *)
Record message : Type := Message {
  isGroupMsg : bool;
  isStatus : bool;
  body : jsstring;
  from : jsstring
}.

(** The variables of one [runClaude] call whose [spawn] has started a
    process, and the number of times the timer callback has called
    [proc.kill('SIGTERM')].  Whether such a call still finds a process
    to signal, and the signal that the [timeout] option of [spawn]
    makes node send by itself, are not counted: they are the child's
    side, seen here as its [close] event. *)
Record invocation : Type := Invocation {
  output : jsstring;
  errorOutput : jsstring;
  promise : option outcome;
  kill_calls : nat
}.

Definition started : invocation := Invocation [] [] None 0.

Definition resolve (v : jsstring) (s : invocation) : invocation :=
  Invocation (output s) (errorOutput s) (settle (promise s) (Resolved v)) (kill_calls s).

Definition reject (m : jsstring) (s : invocation) : invocation :=
  Invocation (output s) (errorOutput s) (settle (promise s) (Rejected m)) (kill_calls s).

Definition kill (s : invocation) : invocation :=
  Invocation (output s) (errorOutput s) (promise s) (S (kill_calls s)).

(** The callbacks registered on the child process and the timer. *)
Definition on_event (s : invocation) (ev : proc_event) : invocation :=
  match ev with
  | StdoutData d => Invocation (output s ++ d) (errorOutput s) (promise s) (kill_calls s)
  | StderrData d => Invocation (output s) (errorOutput s ++ d) (promise s) (kill_calls s)
  | ProcClose code =>
      if is_zero code || (0 <? length (output s)) then
        resolve (JS.or_else (JS.trim (output s)) NO_OUTPUT) s
      else
        reject (JS.or_else (JS.trim (errorOutput s)) (exited_with code)) s
  | ProcError m => reject (failed_to_run m) s
  | TimerFired => reject TIMED_OUT (kill s)
  end.

Definition after (evs : list proc_event) : invocation := foldl on_event started evs.

(** The timer is never cleared, so a promise that the listed events
    leave pending is settled by the timeout. *)
Definition settlement (evs : list proc_event) : outcome :=
  default (Rejected TIMED_OUT) (promise (after evs)).

Definition claude_call (prompt dir : jsstring) : spawn_call :=
  SpawnCall (JS.lit "claude")
    [JS.lit "--print"; JS.lit "--max-turns"; JS.lit "3"; prompt]
    dir [(JS.lit "NO_COLOR", JS.lit "1")] (Some CLAUDE_TIMEOUT_MS).

(** How the promise of [runClaude] settles: an error thrown by [spawn]
    inside the executor rejects it with that error; otherwise the
    callbacks settle it. *)
Definition outcome_of (r : jsstring + list proc_event) : outcome :=
  match r with
  | inl m => Rejected m
  | inr evs => settlement evs
  end.

Definition runClaude (prompt dir : jsstring) : prog jsstring :=
  Spawn (claude_call prompt dir) (fun r =>
    match outcome_of r with
    | Resolved v => Ret v
    | Rejected m => Throw m
    end).

(** [await message.reply(text)] answers in the chat of the message. *)
Definition reply (m : message) (text : jsstring) : prog unit :=
  send (from m) text.

(** The [for (const line of lines)] loop of [sendLongMessage] and the
    statement after it. *)
Fixpoint send_chunks (to : jsstring) (lines : list jsstring)
    (chunk : jsstring) (part : nat) : prog unit :=
  match lines with
  | line :: rest =>
      if MAX_RESPONSE_LENGTH <? length chunk + length line + 1 then
        send to (labelled part chunk) ;;
        sleep 500 ;;
        send_chunks to rest (line ++ [JS.LF]) (S part)
      else
        send_chunks to rest (chunk ++ line ++ [JS.LF]) part
  | [] =>
      if JS.truthy (JS.trim chunk) then
        send to (if 1 <? part then labelled part chunk else chunk)
      else Ret tt
  end.

Definition sendLongMessage (m : message) (text : jsstring) : prog unit :=
  if length text <=? MAX_RESPONSE_LENGTH then reply m text
  else send_chunks (from m) (JS.split JS.LF text) [] 1.

Definition HELP : jsstring :=
  [55358; 56598]%N ++ JS.lit " *Mission Control WhatsApp Bridge*" ++ [JS.LF; JS.LF]
  ++ JS.lit "Send any message and Claude will process it." ++ [JS.LF; JS.LF]
  ++ JS.lit "*Commands:*" ++ [JS.LF]
  ++ JS.lit "`/help` " ++ [8212%N] ++ JS.lit " Show this help" ++ [JS.LF]
  ++ JS.lit "`/status` " ++ [8212%N] ++ JS.lit " Check bridge status" ++ [JS.LF]
  ++ JS.lit "`/tasks` " ++ [8212%N] ++ JS.lit " List current tasks" ++ [JS.LF; JS.LF]
  ++ JS.lit "*Examples:*" ++ [JS.LF]
  ++ [8226%N] ++ JS.lit " " ++ [JS.QUOTE] ++ JS.lit "Show me the current tasks" ++ [JS.QUOTE; JS.LF]
  ++ [8226%N] ++ JS.lit " " ++ [JS.QUOTE] ++ JS.lit "Create a new task: Fix login bug" ++ [JS.QUOTE; JS.LF]
  ++ [8226%N] ++ JS.lit " " ++ [JS.QUOTE] ++ JS.lit "What files were changed recently?" ++ [JS.QUOTE; JS.LF]
  ++ [8226%N] ++ JS.lit " " ++ [JS.QUOTE] ++ JS.lit "Run the tests" ++ [JS.QUOTE; JS.LF; JS.LF]
  ++ JS.lit "Everything else is sent directly to Claude Code.".

Definition STILL_PROCESSING : jsstring :=
  [9203%N] ++ JS.lit " Still processing your previous command. Please wait...".

(** [const activeSessions = new Map()]: the map a bridge starts with. *)
Definition activeSessions : gmap jsstring bool := ∅.

Section Handler.
Context (rt : runtime).

(** [WA_AUTHORIZED_NUMBERS.split(',').map(n => n.trim())], or [[]]
    when the variable is unset or empty. *)
Definition AUTHORIZED_NUMBERS : list jsstring :=
  match WA_AUTHORIZED_NUMBERS rt with
  | Some s => if JS.truthy s then map JS.trim (JS.split 44%N s) else []
  | None => []
  end.

Definition status_text (busy : bool) : jsstring :=
  [55357; 57314]%N ++ JS.lit " *Bridge Status*" ++ [JS.LF; JS.LF]
  ++ JS.lit "Working directory: `" ++ WORK_DIR rt ++ JS.lit "`" ++ [JS.LF]
  ++ JS.lit "Session active: "
  ++ (if busy then JS.lit "Yes (processing...)" else JS.lit "Idle").

(** [client.on('message', async (message) => ...)] *)
Definition on_message (m : message) : prog unit :=
  if isGroupMsg m || isStatus m || negb (JS.truthy (body m)) then Ret tt
  else
    let sender := JS.replace (JS.lit "@c.us") [] (from m) in
    if (length AUTHORIZED_NUMBERS =? 0) || negb (JS.includes AUTHORIZED_NUMBERS sender)
    then Ret tt
    else
      let text := JS.trim (body m) in
      if JS.eqb (toLowerCase rt text) (JS.lit "/help") then reply m HELP
      else if JS.eqb (toLowerCase rt text) (JS.lit "/status") then
        busy ← session_busy sender;
        reply m (status_text busy)
      else if JS.eqb (toLowerCase rt text) (JS.lit "/tasks") then
        try_catch
          (result ← runClaude TASKS_PROMPT (WORK_DIR rt);
           sendLongMessage m result)
          (fun err => reply m (error_reply err))
      else
        busy ← session_busy sender;
        if busy : bool then reply m STILL_PROCESSING
        else
          set_busy sender true ;;
          try_finally
            (try_catch
               (reply m PROCESSING ;;
                result ← runClaude text (WORK_DIR rt);
                sendLongMessage m result)
               (fun err => reply m (error_reply err)))
            (set_busy sender false).

End Handler.

End WWeb.

(** ** The Baileys bridge *)

Module Baileys.

(** [msg.message]: the two places a text body can be in. *)
Record content : Type := Content {
  conversation : option jsstring;
  extendedText : option jsstring      (* [extendedTextMessage?.text] *)
}.

(** One entry of a [messages.upsert] event. *)
Record message : Type := Message {
  payload : option content;           (* [msg.message], possibly null *)
  fromMe : bool;                      (* [msg.key.fromMe] *)
  remoteJid : jsstring                (* [msg.key.remoteJid] *)
}.

(** The variables of one [runClaude] call whose [spawn] has started a
    process, and the number of times the timer callback has called
    [proc.kill('SIGTERM')], whether or not the call still finds a
    process to signal. *)
Record invocation : Type := Invocation {
  output : jsstring;
  errorOutput : jsstring;
  killed : bool;
  promise : option outcome;
  kill_calls : nat
}.

Definition started : invocation := Invocation [] [] false None 0.

Definition resolve (v : jsstring) (s : invocation) : invocation :=
  Invocation (output s) (errorOutput s) (killed s)
    (settle (promise s) (Resolved v)) (kill_calls s).

Definition reject (m : jsstring) (s : invocation) : invocation :=
  Invocation (output s) (errorOutput s) (killed s)
    (settle (promise s) (Rejected m)) (kill_calls s).

Definition kill (s : invocation) : invocation :=
  Invocation (output s) (errorOutput s) (killed s) (promise s) (S (kill_calls s)).

Definition set_killed (s : invocation) : invocation :=
  Invocation (output s) (errorOutput s) true (promise s) (kill_calls s).

(** The callbacks registered on the child process and the timer. *)
Definition on_event (s : invocation) (ev : proc_event) : invocation :=
  match ev with
  | StdoutData d =>
      Invocation (output s ++ d) (errorOutput s) (killed s) (promise s) (kill_calls s)
  | StderrData d =>
      Invocation (output s) (errorOutput s ++ d) (killed s) (promise s) (kill_calls s)
  | ProcClose code =>
      if killed s then s
      else if is_zero code || (0 <? length (output s)) then
        resolve (JS.or_else (JS.trim (output s)) NO_OUTPUT) s
      else
        reject (JS.or_else (JS.trim (errorOutput s)) (exited_with code)) s
  | ProcError m => reject (failed_to_run m) s
  | TimerFired => reject TIMED_OUT (kill (set_killed s))
  end.

Definition after (evs : list proc_event) : invocation := foldl on_event started evs.

(** The timer is never cleared, so a promise that the listed events
    leave pending is settled by the timeout. *)
Definition settlement (evs : list proc_event) : outcome :=
  default (Rejected TIMED_OUT) (promise (after evs)).

Definition claude_call (prompt dir : jsstring) : spawn_call :=
  SpawnCall (JS.lit "claude")
    [JS.lit "--print"; JS.lit "--max-turns"; JS.lit "3"; prompt]
    dir [(JS.lit "NO_COLOR", JS.lit "1")] None.

(** How the promise of [runClaude] settles: an error thrown by [spawn]
    inside the executor rejects it with that error; otherwise the
    callbacks settle it. *)
Definition outcome_of (r : jsstring + list proc_event) : outcome :=
  match r with
  | inl m => Rejected m
  | inr evs => settlement evs
  end.

Definition runClaude (prompt dir : jsstring) : prog jsstring :=
  Spawn (claude_call prompt dir) (fun r =>
    match outcome_of r with
    | Resolved v => Ret v
    | Rejected m => Throw m
    end).

(** [sendMessage(sock, jid, text)] *)
Definition sendMessage (jid text : jsstring) : prog unit := send jid text.

(** The [for (const line of lines)] loop of [sendLongMessage] and the
    statement after it. *)
Fixpoint send_chunks (jid : jsstring) (lines : list jsstring)
    (chunk : jsstring) (part : nat) : prog unit :=
  match lines with
  | line :: rest =>
      if MAX_RESPONSE_LENGTH <? length chunk + length line + 1 then
        sendMessage jid (labelled part chunk) ;;
        sleep 500 ;;
        send_chunks jid rest (line ++ [JS.LF]) (S part)
      else
        send_chunks jid rest (chunk ++ line ++ [JS.LF]) part
  | [] =>
      if JS.truthy (JS.trim chunk) then
        sendMessage jid (if 1 <? part then labelled part chunk else chunk)
      else Ret tt
  end.

Definition sendLongMessage (jid text : jsstring) : prog unit :=
  if length text <=? MAX_RESPONSE_LENGTH then sendMessage jid text
  else send_chunks jid (JS.split JS.LF text) [] 1.

Definition HELP : jsstring :=
  [55358; 56598]%N ++ JS.lit " *Mission Control WhatsApp Bridge*" ++ [JS.LF; JS.LF]
  ++ JS.lit "Send any message and Claude will process it." ++ [JS.LF; JS.LF]
  ++ JS.lit "*Commands:*" ++ [JS.LF]
  ++ JS.lit "/help " ++ [8212%N] ++ JS.lit " Show this help" ++ [JS.LF]
  ++ JS.lit "/status " ++ [8212%N] ++ JS.lit " Bridge status" ++ [JS.LF]
  ++ JS.lit "/tasks " ++ [8212%N] ++ JS.lit " List tasks" ++ [JS.LF; JS.LF]
  ++ JS.lit "*Examples:*" ++ [JS.LF]
  ++ [8226%N] ++ JS.lit " " ++ [JS.QUOTE] ++ JS.lit "Show me the current tasks" ++ [JS.QUOTE; JS.LF]
  ++ [8226%N] ++ JS.lit " " ++ [JS.QUOTE] ++ JS.lit "Create a new task: Fix login bug" ++ [JS.QUOTE; JS.LF]
  ++ [8226%N] ++ JS.lit " " ++ [JS.QUOTE] ++ JS.lit "What files changed recently?" ++ [JS.QUOTE; JS.LF]
  ++ [8226%N] ++ JS.lit " " ++ [JS.QUOTE] ++ JS.lit "Run the tests" ++ [JS.QUOTE].

Definition STILL_PROCESSING : jsstring :=
  [9203%N] ++ JS.lit " Still processing your previous command...".

(** [const activeSessions = new Map()]: the map a bridge starts with. *)
Definition activeSessions : gmap jsstring bool := ∅.

Section Handler.
Context (rt : runtime).

(** [WA_AUTHORIZED_NUMBERS.split(',').map(n => n.trim().replace(/^\+/, ''))],
    or [[]] when the variable is unset or empty. *)
Definition AUTHORIZED_NUMBERS : list jsstring :=
  match WA_AUTHORIZED_NUMBERS rt with
  | Some s =>
      if JS.truthy s
      then map (fun n => JS.strip_leading_plus (JS.trim n)) (JS.split 44%N s)
      else []
  | None => []
  end.

Definition status_text (busy : bool) : jsstring :=
  [55357; 57314]%N ++ JS.lit " *Bridge Status*" ++ [JS.LF; JS.LF]
  ++ JS.lit "Dir: " ++ WORK_DIR rt ++ [JS.LF]
  ++ JS.lit "Busy: " ++ (if busy then JS.lit "Yes" else JS.lit "No").

(** [async function handleMessage(sock, jid, text)] *)
Definition handleMessage (jid text : jsstring) : prog unit :=
  let sender := JS.replace (JS.lit "@s.whatsapp.net") [] jid in
  if JS.eqb (toLowerCase rt text) (JS.lit "/help") then sendMessage jid HELP
  else if JS.eqb (toLowerCase rt text) (JS.lit "/status") then
    busy ← session_busy sender;
    sendMessage jid (status_text busy)
  else
    let text :=
      if JS.eqb (toLowerCase rt text) (JS.lit "/tasks") then TASKS_PROMPT else text in
    busy ← session_busy sender;
    if busy : bool then sendMessage jid STILL_PROCESSING
    else
      set_busy sender true ;;
      try_finally
        (try_catch
           (sendMessage jid PROCESSING ;;
            result ← runClaude text (WORK_DIR rt);
            sendLongMessage jid result)
           (fun err => sendMessage jid (error_reply err)))
        (set_busy sender false).

(** [msg.message.conversation || msg.message.extendedTextMessage?.text || ''] *)
Definition text_of (c : content) : jsstring :=
  JS.or_else (default [] (conversation c))
    (JS.or_else (default [] (extendedText c)) []).

(** The body of the loop over the messages of a [messages.upsert] event. *)
Definition on_message (msg : message) : prog unit :=
  match payload msg with
  | None => Ret tt
  | Some c =>
      if fromMe msg || JS.endsWith (remoteJid msg) (JS.lit "@g.us")
         || JS.eqb (remoteJid msg) (JS.lit "status@broadcast")
      then Ret tt
      else
        let sender := JS.replace (JS.lit "@s.whatsapp.net") [] (remoteJid msg) in
        let text := text_of c in
        if negb (JS.truthy (JS.trim text)) then Ret tt
        else if (length AUTHORIZED_NUMBERS =? 0)
                || negb (JS.includes AUTHORIZED_NUMBERS sender)
        then Ret tt
        else handleMessage (remoteJid msg) (JS.trim text)
  end.

(** [sock.ev.on('messages.upsert', async ({ messages }) => ...)] *)
Fixpoint on_upsert (messages : list message) : prog unit :=
  match messages with
  | [] => Ret tt
  | msg :: rest => on_message msg ;; on_upsert rest
  end.

End Handler.

End Baileys.

(** *** The run of a composed handler *)

(** Running [p] and then, on the state and counters it leaves, [q]. *)
Definition and_then {A B} (r : run A) (q : A -> run B) : run B :=
  match result r with
  | inl a => Run (sessions (q a)) (trace r ++ trace (q a)) (result (q a))
  | inr m => Run (sessions r) (trace r) (inr m)
  end.

Definition or_catch {A} (r : run A) (h : jsstring -> run A) : run A :=
  match result r with
  | inl a => r
  | inr m => Run (sessions (h m)) (trace r ++ trace (h m)) (result (h m))
  end.


(** *** Handlers interleaved by the event loop *)

(** A handler runs until it awaits; the event loop then runs other
    handlers and resumes it when what it awaits has happened.  The
    state of the loop is the session map, the handlers suspended at an
    await, and the effects so far. *)
Record loop : Type := Loop {
  store : gmap jsstring bool;
  waiting : list (prog unit);
  log : list effect
}.

(** The synchronous stretch of a handler: up to its next await, or to
    its end. *)
Fixpoint advance (p : prog unit) (st : gmap jsstring bool)
    : gmap jsstring bool * prog unit :=
  match p with
  | GetSession s k => advance (k (st !! s)) st
  | SetSession s b k => advance k (<[s := b]> st)
  | _ => (st, p)
  end.

(** The effect a handler performs as it suspends. *)
Definition announce (p : prog unit) : list effect :=
  match p with
  | Reply to t _ => [Sent to t]
  | Spawn c _ => [Spawned c]
  | Sleep ms _ => [Slept ms]
  | _ => []
  end.

Definition finished (p : prog unit) : bool :=
  match p with
  | Ret _ | Throw _ => true
  | _ => false
  end.

(** Waiting for the assistant. *)
Definition invoking (p : prog unit) : bool :=
  match p with
  | Spawn _ _ => true
  | _ => false
  end.

Definition park (p : prog unit) (pool : list (prog unit)) : list (prog unit) :=
  if finished p then pool else pool ++ [p].

(** What the loop reacts to: an inbound event with its handler, or the
    completion of what the [n]-th suspended handler awaits (for
    [runClaude]: what its call of [spawn] brought). *)
Inductive signal : Type :=
  | Arrive (handler : prog unit)
  | ReplySettled (n : nat) (r : option jsstring)
  | ChildSettled (n : nat) (r : jsstring + list proc_event)
  | TimerElapsed (n : nat).

Definition resume (p : prog unit) (sg : signal) : option (prog unit) :=
  match p, sg with
  | Reply _ _ k, ReplySettled _ r => Some (k r)
  | Spawn _ k, ChildSettled _ r => Some (k r)
  | Sleep _ k, TimerElapsed _ => Some k
  | _, _ => None
  end.

Definition target (sg : signal) : option nat :=
  match sg with
  | Arrive _ => None
  | ReplySettled n _ | ChildSettled n _ | TimerElapsed n => Some n
  end.

Definition run_to_await (p : prog unit) (pool : list (prog unit)) (l : loop) : loop :=
  let '(st, q) := advance p (store l) in
  Loop st (park q pool) (log l ++ announce q).

(** One turn of the loop; a signal that matches no suspended handler
    is ignored. *)
Definition turn (l : loop) (sg : signal) : loop :=
  match sg with
  | Arrive h => run_to_await h (waiting l) l
  | _ =>
      match target sg with
      | Some n =>
          match waiting l !! n with
          | Some p =>
              match resume p sg with
              | Some q => run_to_await q (delete n (waiting l)) l
              | None => l
              end
          | None => l
          end
      | None => l
      end
  end.

Definition turns (l : loop) (sgs : list signal) : loop := foldl turn l sgs.

Definition booted : loop := Loop ∅ [] [].

(** Who holds a busy flag.  [holding s p]: the handler [p] only awaits
    until it resets the flag of [s], and goes on as a handler that holds
    no flag.  [unlocked known p]: the handler [p] holds no flag; it
    starts no child process, and it sets a flag only to [true], for the
    sender [known] whose flag it has just read as not set, and holds it
    from then on. *)
Fixpoint unlocked (known : option jsstring) (p : prog unit) : Prop :=
  match p with
  | Ret _ | Throw _ => True
  | GetSession s k =>
      forall o, unlocked (if bool_decide (o = Some true) then None else Some s) (k o)
  | SetSession s b k => b = true /\ known = Some s /\ holding s k
  | Reply _ _ k => forall r, unlocked None (k r)
  | Spawn _ _ => False
  | Sleep _ k => unlocked None k
  end
with holding (s : jsstring) (p : prog unit) : Prop :=
  match p with
  | Reply _ _ k => forall r, holding s (k r)
  | Spawn _ k => forall r, holding s (k r)
  | Sleep _ k => holding s k
  | SetSession s' b k => s' = s /\ b = false /\ unlocked None k
  | Ret _ | Throw _ | GetSession _ _ => False
  end.

(** A handler without accesses to the session map. *)
Fixpoint io_only {A} (p : prog A) : Prop :=
  match p with
  | Ret _ | Throw _ => True
  | GetSession _ _ | SetSession _ _ _ => False
  | Reply _ _ k => forall r, io_only (k r)
  | Spawn _ k => forall r, io_only (k r)
  | Sleep _ k => io_only k
  end.

(** No two suspended handlers hold the flag of the same sender. *)
Inductive exclusive : list (prog unit) -> Prop :=
  | exclusive_nil : exclusive []
  | exclusive_cons p pool :
      (forall s, holding s p -> Forall (fun q => ~ holding s q) pool) ->
      exclusive pool ->
      exclusive (p :: pool).

(** The state of a loop in which the busy flags do their job: every
    suspended handler either holds no flag or holds the flag of one
    sender, no two hold the same flag, and a held flag is set. *)
Definition orderly (l : loop) : Prop :=
  Forall (fun p => finished p = false
                   /\ (unlocked None p \/ exists s, holding s p)) (waiting l)
  /\ exclusive (waiting l)
  /\ Forall (fun p => forall s, holding s p -> store l !! s = Some true) (waiting l).

(** The arrivals the Baileys bridge reacts to: [messages.upsert] events. *)
Definition baileys_signal (rt : runtime) (sg : signal) : Prop :=
  match sg with
  | Arrive h => exists messages, h = Baileys.on_upsert rt messages
  | _ => True
  end.

(** A handler that never calls [spawn]. *)
Fixpoint spawn_free {A} (p : prog A) : Prop :=
  match p with
  | Ret _ | Throw _ => True
  | GetSession _ k => forall o, spawn_free (k o)
  | SetSession _ _ k => spawn_free k
  | Reply _ _ k => forall r, spawn_free (k r)
  | Spawn _ _ => False
  | Sleep _ k => spawn_free k
  end.

(** *** Reading an event sequence *)

Definition is_data (ev : proc_event) : bool :=
  match ev with
  | StdoutData _ | StderrData _ => true
  | _ => false
  end.

(** Everything the events wrote to standard output, in order. *)
Fixpoint stdout_of (evs : list proc_event) : jsstring :=
  match evs with
  | StdoutData d :: rest => d ++ stdout_of rest
  | _ :: rest => stdout_of rest
  | [] => []
  end.

(** Everything the events wrote to standard error, in order. *)
Fixpoint stderr_of (evs : list proc_event) : jsstring :=
  match evs with
  | StderrData d :: rest => d ++ stderr_of rest
  | _ :: rest => stderr_of rest
  | [] => []
  end.

(** The result policy of the invoker for a process that wrote [out] and
    [err] and then exited with [code], as a property of the outcome [o]:
    what it resolves or rejects with, and exactly when. *)
Definition close_policy (code : option Z) (out err : jsstring) (o : outcome) : Prop :=
  (code = Some 0%Z \/ out ≠ [] ->
     o = Resolved (if decide (JS.trim out = []) then JS.lit "(No output)"
                   else JS.trim out))
  /\ (code ≠ Some 0%Z /\ out = [] ->
        o = Rejected (if decide (JS.trim err = [])
                      then JS.lit "Claude exited with code " ++ code_toString code
                      else JS.trim err))
  /\ ((exists v, o = Resolved v) <-> (code = Some 0%Z \/ out ≠ []))
  /\ ((exists m, o = Rejected m) <-> (code ≠ Some 0%Z /\ out = [])).

(** *** Reading the parts of a long message *)

(** Lines put back together, each followed by a line break. *)
Definition unlines (lines : list jsstring) : jsstring :=
  concat (map (fun line => line ++ [JS.LF]) lines).

(** The chunks that [send_chunks] sends, in order, without their labels:
    the loop of [sendLongMessage] with the sending left out. *)
Fixpoint chunk_bodies (lines : list jsstring) (chunk : jsstring) : list jsstring :=
  match lines with
  | line :: rest =>
      if MAX_RESPONSE_LENGTH <? length chunk + length line + 1 then
        chunk :: chunk_bodies rest (line ++ [JS.LF])
      else
        chunk_bodies rest (chunk ++ line ++ [JS.LF])
  | [] => if JS.truthy (JS.trim chunk) then [chunk] else []
  end.

(** The same chunks as groups of whole lines; [cur] holds the lines of
    the chunk being filled. *)
Fixpoint chunk_groups (lines cur : list jsstring) : list (list jsstring) :=
  match lines with
  | line :: rest =>
      if MAX_RESPONSE_LENGTH <? length (unlines cur) + length line + 1 then
        cur :: chunk_groups rest [line]
      else
        chunk_groups rest (cur ++ [line])
  | [] => if JS.truthy (JS.trim (unlines cur)) then [cur] else []
  end.

(** Bodies labelled [Part part], [Part part+1], ... *)
Fixpoint number_parts (part : nat) (bodies : list jsstring) : list jsstring :=
  match bodies with
  | [] => []
  | b :: rest => labelled part b :: number_parts (S part) rest
  end.

(** A string with a unit that [trim] keeps. *)
Definition not_blank (s : jsstring) : Prop :=
  exists c, c ∈ s /\ JS.is_white c = false.

(** ** Sample inputs *)

Module Sample.

(** A runtime whose [toLowerCase] is the ASCII one, with one
    authorized number. *)
Definition rt : runtime :=
  Runtime (map JS.ascii_lower) (Some (JS.lit "491234567890")) None
    (JS.lit "/srv/mission-control").

(** The same runtime with the number configured with a leading plus. *)
Definition rt_plus : runtime :=
  Runtime (map JS.ascii_lower) (Some (JS.lit "+491234567890")) None
    (JS.lit "/srv/mission-control").

(** The same runtime with no authorization list configured. *)
Definition rt_unset : runtime :=
  Runtime (map JS.ascii_lower) None None (JS.lit "/srv/mission-control").

(** Every reply is delivered and every child prints [done] and exits 0. *)
Definition calm : world :=
  World (fun _ => None)
    (fun _ => [StdoutData (JS.lit "done"); ProcClose (Some 0%Z)])
    (fun _ => None).

(** No reply can be delivered, and the child fails to start: it emits
    [error] and closes. *)
Definition hostile : world :=
  World (fun _ => Some (JS.lit "connection closed"))
    (fun _ => [ProcError (JS.lit "spawn claude ENOENT"); ProcClose (Some (-2)%Z)])
    (fun _ => None).

Definition owner : jsstring := JS.lit "491234567890".

(** Ninety lines of 99 letters, each closed by a line break: 9000 units. *)
Definition ninety_lines : jsstring :=
  concat (repeat (repeat 120%N 99 ++ [JS.LF]) 90).

(** Ninety lines of 99 spaces, each closed by a line break: 9000 units. *)
Definition ninety_blank_lines : jsstring :=
  concat (repeat (repeat 32%N 99 ++ [JS.LF]) 90).

(** One line of 4001 letters. *)
Definition one_long_line : jsstring := repeat 120%N 4001.

(** A text as [runClaude] resolves with, with no white space at either
    end: 89 lines of 99 letters, each closed by a line break, and a
    last line of 100 letters; 9000 units. *)
Definition report : jsstring :=
  concat (repeat (repeat 120%N 99 ++ [JS.LF]) 89) ++ repeat 120%N 100.

Definition wweb_from (number text : string) : WWeb.message :=
  WWeb.Message false false (JS.lit text) (JS.lit number ++ JS.lit "@c.us").

Definition baileys_from (number text : string) : Baileys.message :=
  Baileys.Message (Some (Baileys.Content (Some (JS.lit text)) None)) false
    (JS.lit number ++ JS.lit "@s.whatsapp.net").

End Sample.

(** ** Further readings of the handlers *)

(** No exception leaves the handler as long as every reply is
    delivered: along the branches where [Reply] answers [None] there is
    no uncaught [Throw]. *)
Fixpoint contained {A} (p : prog A) : Prop :=
  match p with
  | Ret _ => True
  | Throw _ => False
  | GetSession _ k => forall o, contained (k o)
  | SetSession _ _ k => contained k
  | Reply _ _ k => contained (k None)
  | Spawn _ k => forall r, contained (k r)
  | Sleep _ k => contained k
  end.

(** [items.join(sep)] *)
Fixpoint join (sep : jsstring) (items : list jsstring) : jsstring :=
  match items with
  | [] => []
  | [x] => x
  | x :: rest => x ++ sep ++ join sep rest
  end.

Definition is_timer (ev : proc_event) : bool :=
  match ev with
  | TimerFired => true
  | _ => false
  end.

(** Replies sent one after the other with the pacing delay of
    [sendLongMessage] between them. *)
Fixpoint paced (to : jsstring) (texts : list jsstring) : list effect :=
  match texts with
  | [] => []
  | [t] => [Sent to t]
  | t :: rest => Sent to t :: Slept 500 :: paced to rest
  end.

(** Every reply is delivered; every child writes [boom] to standard
    error and exits with code 1. *)
Definition failing : world :=
  World (fun _ => None)
    (fun _ => [StderrData (JS.lit "boom"); ProcClose (Some 1%Z)])
    (fun _ => None).

(** Every reply is delivered; every call of [spawn] throws. *)
Definition refusing : world :=
  World (fun _ => None) (fun _ => []) (fun _ => Some (JS.lit "spawn E2BIG")).

(** A number written as the configuration comment asks for it: not
    empty, without a comma, without white space around it and without a
    leading [+]. *)
Definition plain (n : jsstring) : bool :=
  JS.truthy n && negb (existsb (N.eqb 44) n) && JS.eqb (JS.trim n) n
  && JS.eqb (JS.strip_leading_plus n) n.

(** A message the Baileys loop passes over before it looks at the
    sender: no payload, sent by the account itself, from a group, a
    status broadcast, or with a blank text. *)
Definition passed_over (msg : Baileys.message) : bool :=
  match Baileys.payload msg with
  | None => true
  | Some c =>
      Baileys.fromMe msg || JS.endsWith (Baileys.remoteJid msg) (JS.lit "@g.us")
      || JS.eqb (Baileys.remoteJid msg) (JS.lit "status@broadcast")
      || negb (JS.truthy (JS.trim (Baileys.text_of c)))
  end.

(** A runtime with two numbers configured. *)
Definition two_numbers : runtime :=
  Runtime (map JS.ascii_lower) (Some (JS.lit "491234567890,13057207870")) None
    (JS.lit "/srv/mission-control").
(** * Properties *)

(** ** Running composed handlers *)

Lemma mbind_unfold {A B} (p : prog A) (f : A -> prog B) : p ≫= f = bind p f.
Proof. reflexivity. Qed.

Lemma spawns_emit_sent {A} to t (r : run A) :
  spawns (emit (Sent to t) r) = spawns r.
Proof. reflexivity. Qed.

Lemma spawns_emit_spawned {A} c (r : run A) :
  spawns (emit (Spawned c) r) = c :: spawns r.
Proof. reflexivity. Qed.

Lemma exec_bind {A B} w (p : prog A) (f : A -> prog B) st i j :
  exec w (bind p f) st i j =
  and_then (exec w p st i j) (fun a =>
    exec w (f a) (sessions (exec w p st i j))
      (i + length (replies (exec w p st i j)))
      (j + length (spawns (exec w p st i j)))).
Proof.
  revert st i j.
  induction p as [a|m|s k IH|s b k IH|to t k IH|c k IH|ms k IH]; intros st i j; simpl.
  - unfold and_then; simpl. rewrite !Nat.add_0_r. by destruct (exec w (f a) st i j).
  - reflexivity.
  - apply IH.
  - apply IH.
  - rewrite IH. destruct (exec w (k (delivery w i)) st (S i) j) as [s' tr [a|m]];
      unfold and_then, emit, replies, spawns; simpl; by rewrite ?Nat.add_succ_r.
  - rewrite IH. destruct (exec w (k (launch w j)) st i (S j)) as [s' tr [a|m]];
      unfold and_then, emit, replies, spawns; simpl; by rewrite ?Nat.add_succ_r.
  - rewrite IH. destruct (exec w k st i j) as [s' tr [a|m]];
      unfold and_then, emit, replies, spawns; simpl; by rewrite ?Nat.add_succ_r.
Qed.

Lemma exec_try_catch {A} w (p : prog A) (h : jsstring -> prog A) st i j :
  exec w (try_catch p h) st i j =
  or_catch (exec w p st i j) (fun m =>
    exec w (h m) (sessions (exec w p st i j))
      (i + length (replies (exec w p st i j)))
      (j + length (spawns (exec w p st i j)))).
Proof.
  revert st i j.
  induction p as [a|m|s k IH|s b k IH|to t k IH|c k IH|ms k IH]; intros st i j; simpl.
  - reflexivity.
  - unfold or_catch; simpl. rewrite !Nat.add_0_r. by destruct (exec w (h m) st i j).
  - apply IH.
  - apply IH.
  - rewrite IH. destruct (exec w (k (delivery w i)) st (S i) j) as [s' tr [a|m]];
      unfold or_catch, emit, replies, spawns; simpl; by rewrite ?Nat.add_succ_r.
  - rewrite IH. destruct (exec w (k (launch w j)) st i (S j)) as [s' tr [a|m]];
      unfold or_catch, emit, replies, spawns; simpl; by rewrite ?Nat.add_succ_r.
  - rewrite IH. destruct (exec w k st i j) as [s' tr [a|m]];
      unfold or_catch, emit, replies, spawns; simpl; by rewrite ?Nat.add_succ_r.
Qed.

(** The [finally] block runs last, whatever the body did. *)
Lemma finally_releases {A} w (p : prog A) sender st i j :
  sessions (exec w (try_finally p (set_busy sender false)) st i j) !! sender
  = Some false.
Proof.
  revert st i j.
  induction p as [a|m|s k IH|s b k IH|to t k IH|c k IH|ms k IH]; intros st i j; simpl;
    try apply IH; apply lookup_insert_eq.
Qed.

(** No statement of either bridge deletes from [activeSessions]: a
    handler only ever adds or overwrites entries. *)
Lemma exec_keeps_entries {A} w (p : prog A) st i j s :
  is_Some (st !! s) -> is_Some (sessions (exec w p st i j) !! s).
Proof.
  revert st i j.
  induction p as [a|m|s' k IH|s' b k IH|to t k IH|c k IH|ms k IH]; intros st i j Hs; simpl;
    try done; try (by apply IH).
  apply IH. rewrite lookup_insert. case_decide; [by eexists | done].
Qed.

(** ** Built-ins *)

Lemma eqb_true (a b : jsstring) : JS.eqb a b = true <-> a = b.
Proof. unfold JS.eqb. apply bool_decide_eq_true. Qed.

Lemma eqb_false (a b : jsstring) : JS.eqb a b = false <-> a ≠ b.
Proof. unfold JS.eqb. apply bool_decide_eq_false. Qed.

Lemma includes_true (l : list jsstring) (x : jsstring) :
  JS.includes l x = true <-> x ∈ l.
Proof.
  unfold JS.includes. rewrite existsb_exists. split.
  - intros (y & Hy & Heq). apply eqb_true in Heq. subst y. by apply list_elem_of_In.
  - intros Hx. exists x. split; [by apply list_elem_of_In | by apply eqb_true].
Qed.

Lemma includes_false (l : list jsstring) (x : jsstring) :
  JS.includes l x = false <-> x ∉ l.
Proof.
  rewrite <- includes_true. destruct (JS.includes l x); split; congruence.
Qed.

(** ** Authorization *)

Section Authorization.
Context (rt : runtime) (w : world) (st : gmap jsstring bool) (i j : nat).

Lemma wweb_unauthorized (m : WWeb.message) :
  JS.replace (JS.lit "@c.us") [] (WWeb.from m) ∉ WWeb.AUTHORIZED_NUMBERS rt ->
  WWeb.on_message rt m = Ret tt.
Proof.
  intros Hno. apply includes_false in Hno. unfold WWeb.on_message.
  rewrite Hno. simpl. rewrite orb_true_r.
  by destruct (WWeb.isGroupMsg m || WWeb.isStatus m || negb (JS.truthy (WWeb.body m))).
Qed.

Lemma baileys_unauthorized (msg : Baileys.message) :
  JS.replace (JS.lit "@s.whatsapp.net") [] (Baileys.remoteJid msg)
    ∉ Baileys.AUTHORIZED_NUMBERS rt ->
  Baileys.on_message rt msg = Ret tt.
Proof.
  intros Hno. apply includes_false in Hno. unfold Baileys.on_message.
  rewrite Hno. simpl. rewrite orb_true_r.
  destruct (Baileys.payload msg); [|done].
  repeat match goal with |- context [if ?c then _ else _] => destruct c end; done.
Qed.

Lemma baileys_unauthorized_batch (messages : list Baileys.message) :
  Forall (fun msg =>
    JS.replace (JS.lit "@s.whatsapp.net") [] (Baileys.remoteJid msg)
      ∉ Baileys.AUTHORIZED_NUMBERS rt) messages ->
  Baileys.on_upsert rt messages = Ret tt.
Proof.
  induction 1 as [|msg rest Hmsg _ IH]; [done|].
  simpl. rewrite mbind_unfold, baileys_unauthorized by done. simpl. exact IH.
Qed.

(** C1. A message whose normalized sender is not in the authorization
    list (in particular any message when the list is empty) makes the
    handler return at once: the run leaves the sessions untouched and
    its trace holds no reply and no spawned process.  This holds for
    the whatsapp-web.js handler, for the loop body of the Baileys
    handler, and for a whole Baileys batch of such messages. *)
Theorem unauthorized_sender_is_ignored :
  (forall m : WWeb.message,
     JS.replace (JS.lit "@c.us") [] (WWeb.from m) ∉ WWeb.AUTHORIZED_NUMBERS rt ->
     exec w (WWeb.on_message rt m) st i j = Run st [] (inl tt))
  /\ (forall msg : Baileys.message,
        JS.replace (JS.lit "@s.whatsapp.net") [] (Baileys.remoteJid msg)
          ∉ Baileys.AUTHORIZED_NUMBERS rt ->
        exec w (Baileys.on_message rt msg) st i j = Run st [] (inl tt))
  /\ (forall messages : list Baileys.message,
        Forall (fun msg =>
          JS.replace (JS.lit "@s.whatsapp.net") [] (Baileys.remoteJid msg)
            ∉ Baileys.AUTHORIZED_NUMBERS rt) messages ->
        exec w (Baileys.on_upsert rt messages) st i j = Run st [] (inl tt)).
Proof.
  split; [|split].
  - intros m Hm. by rewrite wweb_unauthorized.
  - intros msg Hm. by rewrite baileys_unauthorized.
  - intros messages Hm. by rewrite baileys_unauthorized_batch.
Qed.

End Authorization.

Lemma unauthorized_sender_is_ignored_witness :
  exec Sample.calm (WWeb.on_message Sample.rt (Sample.wweb_from "15550001111" "hello"))
    ∅ 0 0 = Run ∅ [] (inl tt)
  /\ exec Sample.calm
       (WWeb.on_message Sample.rt_unset (Sample.wweb_from "491234567890" "hello"))
       ∅ 0 0 = Run ∅ [] (inl tt)
  /\ exec Sample.calm
       (Baileys.on_message Sample.rt (Sample.baileys_from "15550001111" "hello"))
       ∅ 0 0 = Run ∅ [] (inl tt)
  /\ exec Sample.calm
       (Baileys.on_upsert Sample.rt_unset
          [Sample.baileys_from "491234567890" "hello";
           Sample.baileys_from "15550001111" "/tasks"])
       ∅ 0 0 = Run ∅ [] (inl tt).
Proof.
  split; [|split; [|split]].
  - apply (unauthorized_sender_is_ignored Sample.rt Sample.calm ∅ 0 0).
    apply includes_false. vm_compute. reflexivity.
  - apply (unauthorized_sender_is_ignored Sample.rt_unset Sample.calm ∅ 0 0).
    apply includes_false. vm_compute. reflexivity.
  - apply (unauthorized_sender_is_ignored Sample.rt Sample.calm ∅ 0 0).
    apply includes_false. vm_compute. reflexivity.
  - apply (unauthorized_sender_is_ignored Sample.rt_unset Sample.calm ∅ 0 0).
    repeat constructor; apply includes_false; vm_compute; reflexivity.
Defined.

(** ** Session state *)

Section Sessions.
Context (rt : runtime) (w : world) (st : gmap jsstring bool) (i j : nat).

(** The free-form path of the whatsapp-web.js handler, once the guards
    have let the message through. *)
Lemma wweb_free_form_releases (m : WWeb.message) :
  let sender := JS.replace (JS.lit "@c.us") [] (WWeb.from m) in
  let text := JS.trim (WWeb.body m) in
  WWeb.isGroupMsg m = false -> WWeb.isStatus m = false -> WWeb.body m ≠ [] ->
  sender ∈ WWeb.AUTHORIZED_NUMBERS rt ->
  toLowerCase rt text ≠ JS.lit "/help" ->
  toLowerCase rt text ≠ JS.lit "/status" ->
  toLowerCase rt text ≠ JS.lit "/tasks" ->
  st !! sender ≠ Some true ->
  sessions (exec w (WWeb.on_message rt m) st i j) !! sender = Some false.
Proof.
  intros sender text Hg Hs Hb Hin H1 H2 H3 Hidle.
  unfold WWeb.on_message. rewrite Hg, Hs.
  assert (Ht : JS.truthy (WWeb.body m) = true) by (by destruct (WWeb.body m)).
  assert (Hlen : (length (WWeb.AUTHORIZED_NUMBERS rt) =? 0) = false).
  { destruct (WWeb.AUTHORIZED_NUMBERS rt); [by apply not_elem_of_nil in Hin | done]. }
  apply includes_true in Hin. fold sender text. rewrite Ht, Hin, Hlen.
  apply eqb_false in H1, H2, H3. rewrite H1, H2, H3. cbn [orb negb].
  rewrite mbind_unfold. simpl.
  destruct (st !! sender) as [[|]|] eqn:E; [done| |]; simpl;
    rewrite !mbind_unfold; simpl; apply finally_releases.
Qed.

Lemma baileys_handler_releases (jid text : jsstring) :
  let sender := JS.replace (JS.lit "@s.whatsapp.net") [] jid in
  toLowerCase rt text ≠ JS.lit "/help" ->
  toLowerCase rt text ≠ JS.lit "/status" ->
  st !! sender ≠ Some true ->
  sessions (exec w (Baileys.handleMessage rt jid text) st i j) !! sender = Some false.
Proof.
  intros sender H1 H2 Hidle.
  unfold Baileys.handleMessage. fold sender.
  apply eqb_false in H1, H2. rewrite H1, H2.
  rewrite mbind_unfold. simpl.
  destruct (st !! sender) as [[|]|] eqn:E; [done| |]; simpl;
    rewrite !mbind_unfold; simpl; apply finally_releases.
Qed.

(** C3. The map starts empty, so a fresh sender's busy flag reads as
    false.  A free-form message that reaches the invoker path (in the
    Baileys bridge also [/tasks]) leaves the sender's entry at
    [busy = false] when the handler ends, in every world: whatever the
    child process does (success, error exit, spawn error, timeout) and
    whatever happens to the replies.  No handler run removes an entry
    of the map. *)
Theorem busy_flag_is_released :
  (forall sender : jsstring,
     default false (WWeb.activeSessions !! sender) = false
     /\ default false (Baileys.activeSessions !! sender) = false)
  /\ (forall m : WWeb.message,
        WWeb.isGroupMsg m = false -> WWeb.isStatus m = false -> WWeb.body m ≠ [] ->
        JS.replace (JS.lit "@c.us") [] (WWeb.from m) ∈ WWeb.AUTHORIZED_NUMBERS rt ->
        toLowerCase rt (JS.trim (WWeb.body m)) ≠ JS.lit "/help" ->
        toLowerCase rt (JS.trim (WWeb.body m)) ≠ JS.lit "/status" ->
        toLowerCase rt (JS.trim (WWeb.body m)) ≠ JS.lit "/tasks" ->
        st !! JS.replace (JS.lit "@c.us") [] (WWeb.from m) ≠ Some true ->
        sessions (exec w (WWeb.on_message rt m) st i j)
          !! JS.replace (JS.lit "@c.us") [] (WWeb.from m) = Some false)
  /\ (forall jid text : jsstring,
        toLowerCase rt text ≠ JS.lit "/help" ->
        toLowerCase rt text ≠ JS.lit "/status" ->
        st !! JS.replace (JS.lit "@s.whatsapp.net") [] jid ≠ Some true ->
        sessions (exec w (Baileys.handleMessage rt jid text) st i j)
          !! JS.replace (JS.lit "@s.whatsapp.net") [] jid = Some false)
  /\ (forall (m : WWeb.message) (s : jsstring),
        is_Some (st !! s) ->
        is_Some (sessions (exec w (WWeb.on_message rt m) st i j) !! s))
  /\ (forall (messages : list Baileys.message) (s : jsstring),
        is_Some (st !! s) ->
        is_Some (sessions (exec w (Baileys.on_upsert rt messages) st i j) !! s)).
Proof.
  split; [done|]. split; [|split; [|split]].
  - intros m. apply wweb_free_form_releases.
  - intros jid text. apply baileys_handler_releases.
  - intros m s. apply exec_keeps_entries.
  - intros messages s. apply exec_keeps_entries.
Qed.

End Sessions.

Lemma busy_flag_is_released_witness :
  sessions (exec Sample.calm
              (WWeb.on_message Sample.rt (Sample.wweb_from "491234567890" "run the tests"))
              ∅ 0 0) !! Sample.owner = Some false
  /\ sessions (exec Sample.hostile
                 (Baileys.handleMessage Sample.rt
                    (Sample.owner ++ JS.lit "@s.whatsapp.net") (JS.lit "/Tasks"))
                 {[ Sample.owner := false ]} 0 0) !! Sample.owner = Some false
  /\ is_Some (sessions (exec Sample.hostile
                 (WWeb.on_message Sample.rt (Sample.wweb_from "491234567890" "/tasks"))
                 {[ JS.lit "15550001111" := true ]} 0 0) !! JS.lit "15550001111")
  /\ is_Some (sessions (exec Sample.calm
                 (Baileys.on_upsert Sample.rt
                    [Sample.baileys_from "491234567890" "/help";
                     Sample.baileys_from "491234567890" "hello"])
                 {[ JS.lit "15550001111" := true ]} 0 0) !! JS.lit "15550001111").
Proof.
  split; [|split; [|split]].
  - apply (busy_flag_is_released Sample.rt Sample.calm ∅ 0 0);
      try (vm_compute; congruence).
    apply includes_true. vm_compute. reflexivity.
  - apply (busy_flag_is_released Sample.rt Sample.hostile {[ Sample.owner := false ]} 0 0);
      vm_compute; congruence.
  - apply (busy_flag_is_released Sample.rt Sample.hostile
             {[ JS.lit "15550001111" := true ]} 0 0).
    vm_compute. eexists. reflexivity.
  - apply (busy_flag_is_released Sample.rt Sample.calm
             {[ JS.lit "15550001111" := true ]} 0 0).
    vm_compute. eexists. reflexivity.
Defined.

(** ** The invoker *)

(** What the two [runClaude] state machines share: a settled promise
    stays as it is, and the timer settles a pending one. *)
Section Latch.
Context {state : Type} (step : state -> proc_event -> state)
  (promise : state -> option outcome).
Hypothesis latched : forall s ev o, promise s = Some o -> promise (step s ev) = Some o.
Hypothesis timer_settles : forall s, is_Some (promise (step s TimerFired)).

Lemma latched_foldl s evs o :
  promise s = Some o -> promise (foldl step s evs) = Some o.
Proof. revert s. induction evs as [|ev evs IH]; intros s Hs; simpl; auto. Qed.

Lemma settles_once s evs :
  promise s = None -> TimerFired ∈ evs ->
  exists k o, k < length evs
    /\ promise (foldl step s (take k evs)) = None
    /\ forall n, k < n -> promise (foldl step s (take n evs)) = Some o.
Proof.
  revert s. induction evs as [|ev evs IH]; intros s Hs Hin.
  { by apply not_elem_of_nil in Hin. }
  destruct (promise (step s ev)) as [o|] eqn:E.
  - exists 0, o. split; [simpl; lia|]. split; [done|].
    intros [|n] Hn; [lia|]. simpl. by apply latched_foldl.
  - assert (Hin' : TimerFired ∈ evs).
    { apply elem_of_cons in Hin as [<-|]; [|done].
      destruct (timer_settles s) as [o Ho]. congruence. }
    destruct (IH _ E Hin') as (k & o & Hk & Hnone & Hsome).
    exists (S k), o. split; [simpl; lia|]. split; [done|].
    intros [|n] Hn; [lia|]. simpl. apply Hsome. lia.
Qed.

End Latch.

Lemma settle_latched p o o' : p = Some o -> settle p o' = Some o.
Proof. by intros ->. Qed.

Lemma wweb_latched s ev o :
  WWeb.promise s = Some o -> WWeb.promise (WWeb.on_event s ev) = Some o.
Proof.
  intros H. destruct ev as [d|d|code|m|]; simpl; try done;
    try (by apply settle_latched).
  destruct (is_zero code || (0 <? length (WWeb.output s))); simpl;
    by apply settle_latched.
Qed.

Lemma wweb_timer_settles s : is_Some (WWeb.promise (WWeb.on_event s TimerFired)).
Proof. simpl. destruct (WWeb.promise s); by eexists. Qed.

Lemma baileys_latched s ev o :
  Baileys.promise s = Some o -> Baileys.promise (Baileys.on_event s ev) = Some o.
Proof.
  intros H. destruct ev as [d|d|code|m|]; simpl; try done;
    try (by apply settle_latched).
  destruct (Baileys.killed s); [done|].
  destruct (is_zero code || (0 <? length (Baileys.output s))); simpl;
    by apply settle_latched.
Qed.

Lemma wweb_timer_pending s :
  WWeb.promise s = None ->
  WWeb.promise (WWeb.on_event s TimerFired) = Some (Rejected TIMED_OUT).
Proof. intros H. simpl. by rewrite H. Qed.

Lemma baileys_timer_pending s :
  Baileys.promise s = None ->
  Baileys.promise (Baileys.on_event s TimerFired) = Some (Rejected TIMED_OUT).
Proof. intros H. simpl. by rewrite H. Qed.

Lemma baileys_timer_settles s :
  is_Some (Baileys.promise (Baileys.on_event s TimerFired)).
Proof. simpl. destruct (Baileys.promise s); by eexists. Qed.

Lemma wweb_after_app evs1 evs2 :
  WWeb.after (evs1 ++ evs2) = foldl WWeb.on_event (WWeb.after evs1) evs2.
Proof. unfold WWeb.after. apply foldl_app. Qed.

Lemma baileys_after_app evs1 evs2 :
  Baileys.after (evs1 ++ evs2) = foldl Baileys.on_event (Baileys.after evs1) evs2.
Proof. unfold Baileys.after. apply foldl_app. Qed.

Lemma or_else_decide (a b : jsstring) :
  JS.or_else a b = if decide (a = []) then b else a.
Proof. by destruct a. Qed.

Lemma wweb_foldl_data s ds :
  forallb is_data ds = true ->
  foldl WWeb.on_event s ds =
  WWeb.Invocation (WWeb.output s ++ stdout_of ds) (WWeb.errorOutput s ++ stderr_of ds)
    (WWeb.promise s) (WWeb.kill_calls s).
Proof.
  revert s. induction ds as [|ev ds IH]; intros s Hd; simpl.
  - rewrite !app_nil_r. by destruct s.
  - apply andb_true_iff in Hd as [Hev Hd].
    destruct ev; try done; rewrite IH by done; simpl; by rewrite <- ?app_assoc.
Qed.

Lemma baileys_foldl_data s ds :
  forallb is_data ds = true ->
  foldl Baileys.on_event s ds =
  Baileys.Invocation (Baileys.output s ++ stdout_of ds)
    (Baileys.errorOutput s ++ stderr_of ds)
    (Baileys.killed s) (Baileys.promise s) (Baileys.kill_calls s).
Proof.
  revert s. induction ds as [|ev ds IH]; intros s Hd; simpl.
  - rewrite !app_nil_r. by destruct s.
  - apply andb_true_iff in Hd as [Hev Hd].
    destruct ev; try done; rewrite IH by done; simpl; by rewrite <- ?app_assoc.
Qed.

(** In the Baileys bridge [killed] is only ever set together with the
    timeout rejection. *)
Lemma baileys_killed_settled evs :
  Baileys.killed (Baileys.after evs) = true ->
  is_Some (Baileys.promise (Baileys.after evs)).
Proof.
  induction evs as [|ev evs IH] using rev_ind; [done|].
  rewrite baileys_after_app. simpl.
  destruct ev as [d|d|code|m|]; simpl; auto.
  - destruct (Baileys.killed (Baileys.after evs)) eqn:E; [auto|].
    destruct (is_zero code || (0 <? length (Baileys.output (Baileys.after evs))));
      simpl; congruence.
  - intros Hk. destruct (Baileys.promise (Baileys.after evs)); by eexists.
  - intros _. destruct (Baileys.promise (Baileys.after evs)); by eexists.
Qed.

Lemma is_zero_true code : is_zero code = true <-> code = Some 0%Z.
Proof. apply bool_decide_eq_true. Qed.

Lemma positive_length (s : jsstring) : (0 <? length s) = true <-> s ≠ [].
Proof. destruct s; simpl; split; (done || lia || congruence). Qed.

Lemma close_guard code (out : jsstring) :
  is_zero code || (0 <? length out) = true <-> code = Some 0%Z \/ out ≠ [].
Proof. by rewrite orb_true_iff, is_zero_true, positive_length. Qed.

Lemma close_guard_false code (out : jsstring) :
  is_zero code || (0 <? length out) = false <-> code ≠ Some 0%Z /\ out = [].
Proof.
  rewrite <- not_true_iff_false, close_guard. split.
  - intros H. split; [tauto|]. destruct out; [done|]. exfalso. apply H. by right.
  - intros [H1 H2] [?|?]; done.
Qed.

(** What the [close] callback settles a pending promise with. *)
Lemma wweb_close_pending s code :
  WWeb.promise s = None ->
  WWeb.promise (WWeb.on_event s (ProcClose code)) =
  Some (if is_zero code || (0 <? length (WWeb.output s))
        then Resolved (JS.or_else (JS.trim (WWeb.output s)) NO_OUTPUT)
        else Rejected (JS.or_else (JS.trim (WWeb.errorOutput s)) (exited_with code))).
Proof.
  intros H. unfold WWeb.on_event.
  destruct (is_zero code || (0 <? length (WWeb.output s)));
    unfold WWeb.resolve, WWeb.reject; cbn [WWeb.promise]; by rewrite H.
Qed.

Lemma baileys_close_pending s code :
  Baileys.promise s = None -> Baileys.killed s = false ->
  Baileys.promise (Baileys.on_event s (ProcClose code)) =
  Some (if is_zero code || (0 <? length (Baileys.output s))
        then Resolved (JS.or_else (JS.trim (Baileys.output s)) NO_OUTPUT)
        else Rejected (JS.or_else (JS.trim (Baileys.errorOutput s)) (exited_with code))).
Proof.
  intros H Hk. unfold Baileys.on_event. rewrite Hk.
  destruct (is_zero code || (0 <? length (Baileys.output s)));
    unfold Baileys.resolve, Baileys.reject; cbn [Baileys.promise]; by rewrite H.
Qed.

Lemma wweb_close_settlement ds code rest :
  forallb is_data ds = true ->
  WWeb.settlement (ds ++ ProcClose code :: rest) =
  if is_zero code || (0 <? length (stdout_of ds))
  then Resolved (JS.or_else (JS.trim (stdout_of ds)) NO_OUTPUT)
  else Rejected (JS.or_else (JS.trim (stderr_of ds)) (exited_with code)).
Proof.
  intros Hd. unfold WWeb.settlement. rewrite wweb_after_app. cbn [foldl].
  erewrite (latched_foldl _ _ wweb_latched); [reflexivity|].
  rewrite wweb_close_pending.
  - unfold WWeb.after. by rewrite wweb_foldl_data.
  - unfold WWeb.after. by rewrite wweb_foldl_data.
Qed.

Lemma baileys_close_settlement ds code rest :
  forallb is_data ds = true ->
  Baileys.settlement (ds ++ ProcClose code :: rest) =
  if is_zero code || (0 <? length (stdout_of ds))
  then Resolved (JS.or_else (JS.trim (stdout_of ds)) NO_OUTPUT)
  else Rejected (JS.or_else (JS.trim (stderr_of ds)) (exited_with code)).
Proof.
  intros Hd. unfold Baileys.settlement. rewrite baileys_after_app. cbn [foldl].
  erewrite (latched_foldl _ _ baileys_latched); [reflexivity|].
  rewrite baileys_close_pending.
  - unfold Baileys.after. by rewrite baileys_foldl_data.
  - unfold Baileys.after. by rewrite baileys_foldl_data.
  - unfold Baileys.after. by rewrite baileys_foldl_data.
Qed.

Lemma close_policy_intro code (out err : jsstring) :
  close_policy code out err
    (if is_zero code || (0 <? length out)
     then Resolved (JS.or_else (JS.trim out) NO_OUTPUT)
     else Rejected (JS.or_else (JS.trim err) (exited_with code))).
Proof.
  unfold close_policy. rewrite !or_else_decide.
  destruct (is_zero code || (0 <? length out)) eqn:E.
  - apply close_guard in E. split; [|split; [|split]].
    + done.
    + intros [H1 H2]. destruct E; done.
    + split; [done | by eexists].
    + split; [intros [m Hm]; done | intros [H1 H2]; destruct E; done].
  - apply close_guard_false in E as [E1 E2]. split; [|split; [|split]].
    + intros [?|?]; done.
    + done.
    + split; [intros [v Hv]; done | intros [?|?]; done].
    + split; [done | by eexists].
Qed.

(** C4. When the child process only wrote to its streams and then
    closed with exit code [code], [runClaude] settles as the result
    policy says, in both bridges: it resolves with the trimmed standard
    output (or [(No output)] when that is empty) exactly when the code
    is 0 or some output was accumulated, and it rejects with the
    trimmed standard error (or [Claude exited with code N] when that is
    empty) exactly when the code is not 0 and no output was
    accumulated.  Later events do not change the result. *)
Theorem invoker_result_policy (ds : list proc_event) (code : option Z)
    (rest : list proc_event) :
  forallb is_data ds = true ->
  close_policy code (stdout_of ds) (stderr_of ds)
    (WWeb.settlement (ds ++ ProcClose code :: rest))
  /\ close_policy code (stdout_of ds) (stderr_of ds)
       (Baileys.settlement (ds ++ ProcClose code :: rest)).
Proof.
  intros Hd. rewrite wweb_close_settlement, baileys_close_settlement by done.
  split; apply close_policy_intro.
Qed.

Lemma invoker_result_policy_witness :
  WWeb.settlement
    [StderrData (JS.lit "boom"); ProcClose (Some 1%Z); TimerFired]
  = Rejected (JS.lit "boom")
  /\ Baileys.settlement
       [StdoutData (JS.lit " partial "); StderrData (JS.lit "boom");
        ProcClose (Some 1%Z); TimerFired]
     = Resolved (JS.lit "partial").
Proof.
  split.
  - destruct (invoker_result_policy [StderrData (JS.lit "boom")] (Some 1%Z)
                [TimerFired] eq_refl) as [(_ & H & _) _].
    etransitivity; [apply H; split; [discriminate | reflexivity] | reflexivity].
  - destruct (invoker_result_policy
                [StdoutData (JS.lit " partial "); StderrData (JS.lit "boom")]
                (Some 1%Z) [TimerFired] eq_refl) as [_ (H & _)].
    etransitivity; [apply H; right; discriminate | reflexivity].
Defined.

(** C5. Every [runClaude] promise has a single, latched outcome.  In a
    run in which the timer fires, the promise is pending up to one event
    of the run and holds one and the same outcome after every later
    event.  In particular, once the [close] callback has settled the
    promise a later timeout does not replace the outcome, and once the
    timeout has rejected it a later [close] does not. *)
Theorem invoker_settles_once :
  (forall evs, TimerFired ∈ evs ->
     exists k o, k < length evs
       /\ WWeb.promise (WWeb.after (take k evs)) = None
       /\ forall n, k < n -> WWeb.promise (WWeb.after (take n evs)) = Some o)
  /\ (forall evs, TimerFired ∈ evs ->
        exists k o, k < length evs
          /\ Baileys.promise (Baileys.after (take k evs)) = None
          /\ forall n, k < n -> Baileys.promise (Baileys.after (take n evs)) = Some o)
  /\ (forall evs code rest,
        WWeb.promise (WWeb.after evs) = None ->
        WWeb.settlement (evs ++ ProcClose code :: rest)
          = WWeb.settlement (evs ++ [ProcClose code])
        /\ WWeb.settlement (evs ++ TimerFired :: rest) = Rejected TIMED_OUT)
  /\ (forall evs code rest,
        Baileys.promise (Baileys.after evs) = None ->
        Baileys.settlement (evs ++ ProcClose code :: rest)
          = Baileys.settlement (evs ++ [ProcClose code])
        /\ Baileys.settlement (evs ++ TimerFired :: rest) = Rejected TIMED_OUT).
Proof.
  split; [|split; [|split]].
  - intros evs Hin. unfold WWeb.after.
    by apply (settles_once _ _ wweb_latched wweb_timer_settles).
  - intros evs Hin. unfold Baileys.after.
    by apply (settles_once _ _ baileys_latched baileys_timer_settles).
  - intros evs code rest Hp. unfold WWeb.settlement.
    rewrite !wweb_after_app. cbn [foldl]. split.
    + rewrite (latched_foldl _ _ wweb_latched _ rest _ (wweb_close_pending _ code Hp)).
      by rewrite (wweb_close_pending _ code Hp).
    + by rewrite (latched_foldl _ _ wweb_latched _ rest _ (wweb_timer_pending _ Hp)).
  - intros evs code rest Hp. unfold Baileys.settlement.
    assert (Hk : Baileys.killed (Baileys.after evs) = false).
    { destruct (Baileys.killed (Baileys.after evs)) eqn:E; [|done].
      apply baileys_killed_settled in E as [o Ho]. congruence. }
    rewrite !baileys_after_app. cbn [foldl]. split.
    + rewrite (latched_foldl _ _ baileys_latched _ rest _
                 (baileys_close_pending _ code Hp Hk)).
      by rewrite (baileys_close_pending _ code Hp Hk).
    + by rewrite (latched_foldl _ _ baileys_latched _ rest _
                    (baileys_timer_pending _ Hp)).
Qed.

Lemma invoker_settles_once_witness :
  (exists k o, k < 4
     /\ WWeb.promise (WWeb.after (take k
          [StdoutData (JS.lit "ok"); ProcClose (Some 0%Z); TimerFired;
           ProcClose None])) = None
     /\ forall n, k < n ->
          WWeb.promise (WWeb.after (take n
            [StdoutData (JS.lit "ok"); ProcClose (Some 0%Z); TimerFired;
             ProcClose None])) = Some o)
  /\ Baileys.settlement
       ([StdoutData (JS.lit "slow")] ++ TimerFired :: [ProcClose None])
     = Rejected TIMED_OUT.
Proof.
  split.
  - apply (proj1 invoker_settles_once
             [StdoutData (JS.lit "ok"); ProcClose (Some 0%Z); TimerFired;
              ProcClose None]).
    vm_compute. do 2 right. left.
  - apply (proj2 (proj2 (proj2 invoker_settles_once))
             [StdoutData (JS.lit "slow")] None [ProcClose None]).
    reflexivity.
Defined.

(** ** The reply chunker *)

(** The two bridges chunk in the same way. *)
Lemma baileys_send_chunks_eq jid lines chunk part :
  Baileys.send_chunks jid lines chunk part = WWeb.send_chunks jid lines chunk part.
Proof.
  revert chunk part. induction lines as [|line rest IH]; intros chunk part; simpl.
  - reflexivity.
  - by rewrite !IH.
Qed.

Lemma baileys_sendLongMessage_eq (m : WWeb.message) text :
  Baileys.sendLongMessage (WWeb.from m) text = WWeb.sendLongMessage m text.
Proof.
  unfold Baileys.sendLongMessage, WWeb.sendLongMessage.
  by rewrite baileys_send_chunks_eq.
Qed.

(** A failed reply ends the sending: what is handed to the transport
    is a first part of what would be sent if every reply were
    delivered. *)
Lemma replies_send_any w to text (k : prog unit) st i j :
  replies (exec w (send to text ;; k) st i j)
  = text :: match delivery w i with
            | None => replies (exec w k st (S i) j)
            | Some _ => []
            end.
Proof. rewrite mbind_unfold. simpl. by destruct (delivery w i). Qed.

Lemma send_chunks_prefix_from w to lines chunk part st i j :
  1 < part ->
  replies (exec w (WWeb.send_chunks to lines chunk part) st i j)
    `prefix_of` number_parts part (chunk_bodies lines chunk).
Proof.
  revert chunk part st i j.
  induction lines as [|line rest IH]; intros chunk part st i j Hpart;
    cbn [WWeb.send_chunks chunk_bodies].
  - destruct (JS.truthy (JS.trim chunk)); [|done].
    apply Nat.ltb_lt in Hpart. rewrite Hpart. simpl. by destruct (delivery w i).
  - destruct (MAX_RESPONSE_LENGTH <? length chunk + length line + 1); [|by apply IH].
    rewrite replies_send_any. cbn [number_parts]. apply prefix_cons.
    destruct (delivery w i); [apply prefix_nil|]. apply IH. lia.
Qed.

Lemma send_chunks_prefix_first w to lines chunk st i j :
  length chunk <= MAX_RESPONSE_LENGTH ->
  MAX_RESPONSE_LENGTH < length chunk + length (unlines lines) ->
  replies (exec w (WWeb.send_chunks to lines chunk 1) st i j)
    `prefix_of` number_parts 1 (chunk_bodies lines chunk)
  /\ replies (exec w (WWeb.send_chunks to lines chunk 1) st i j) ≠ [].
Proof.
  revert chunk st i j.
  induction lines as [|line rest IH]; intros chunk st i j Hfit Hlong;
    cbn [WWeb.send_chunks chunk_bodies].
  - unfold unlines in Hlong. simpl in Hlong. lia.
  - destruct (MAX_RESPONSE_LENGTH <? length chunk + length line + 1) eqn:E.
    + rewrite replies_send_any. cbn [number_parts]. split; [|done].
      apply prefix_cons. destruct (delivery w i); [apply prefix_nil|].
      apply send_chunks_prefix_from. lia.
    + apply Nat.ltb_ge in E. apply IH.
      * rewrite !length_app. simpl. lia.
      * unfold unlines in *. simpl in Hlong. rewrite !length_app in *.
        simpl in *. lia.
Qed.

(** The texts sent do not depend on the chat they are sent to. *)
Lemma send_chunks_replies_to w to to' lines chunk part st st' i j :
  replies (exec w (WWeb.send_chunks to lines chunk part) st i j)
  = replies (exec w (WWeb.send_chunks to' lines chunk part) st' i j).
Proof.
  revert chunk part st st' i j.
  induction lines as [|line rest IH]; intros chunk part st st' i j;
    cbn [WWeb.send_chunks].
  - destruct (JS.truthy (JS.trim chunk)); [|done]. simpl.
    by destruct (delivery w i).
  - destruct (MAX_RESPONSE_LENGTH <? length chunk + length line + 1); [|by apply IH].
    rewrite !replies_send_any. f_equal. destruct (delivery w i); [done|].
    apply (IH _ _ st st').
Qed.

Section Chunker.
Context (w : world) (Hw : delivers w).

Lemma replies_send to text (k : prog unit) st i j :
  replies (exec w (send to text ;; k) st i j) = text :: replies (exec w k st (S i) j).
Proof. rewrite mbind_unfold. simpl. by rewrite Hw. Qed.

Lemma replies_send_last to text st i j :
  replies (exec w (send to text) st i j) = [text].
Proof. simpl. by rewrite Hw. Qed.

Lemma replies_sleep ms (k : prog unit) st i j :
  replies (exec w (sleep ms ;; k) st i j) = replies (exec w k st i j).
Proof. reflexivity. Qed.

Lemma send_chunks_replies_from to lines chunk part st i j :
  1 < part ->
  replies (exec w (WWeb.send_chunks to lines chunk part) st i j)
  = number_parts part (chunk_bodies lines chunk).
Proof.
  revert chunk part st i j.
  induction lines as [|line rest IH]; intros chunk part st i j Hpart;
    cbn [WWeb.send_chunks chunk_bodies].
  - destruct (JS.truthy (JS.trim chunk)); [|done].
    rewrite replies_send_last. apply Nat.ltb_lt in Hpart. by rewrite Hpart.
  - destruct (MAX_RESPONSE_LENGTH <? length chunk + length line + 1).
    + rewrite replies_send, replies_sleep, IH by lia. done.
    + by apply IH.
Qed.

(** As long as nothing was flushed the chunk fits; if the lines still
    to come do not fit with it, a flush is coming. *)
Lemma send_chunks_replies_first to lines chunk st i j :
  length chunk <= MAX_RESPONSE_LENGTH ->
  MAX_RESPONSE_LENGTH < length chunk + length (unlines lines) ->
  replies (exec w (WWeb.send_chunks to lines chunk 1) st i j)
  = number_parts 1 (chunk_bodies lines chunk).
Proof.
  revert chunk st i j.
  induction lines as [|line rest IH]; intros chunk st i j Hfit Hlong;
    cbn [WWeb.send_chunks chunk_bodies].
  - unfold unlines in Hlong. simpl in Hlong. lia.
  - destruct (MAX_RESPONSE_LENGTH <? length chunk + length line + 1) eqn:E.
    + rewrite replies_send, replies_sleep, send_chunks_replies_from by lia. done.
    + apply Nat.ltb_ge in E. apply IH.
      * rewrite !length_app. simpl. lia.
      * unfold unlines in *. simpl in Hlong. rewrite !length_app in *.
        simpl in *. lia.
Qed.

End Chunker.

(** *** Lines *)

Lemma split_not_nil sep s : JS.split sep s ≠ [].
Proof.
  destruct s as [|c r]; simpl; [done|].
  destruct (c =? sep)%N; [done|]. by destruct (JS.split sep r).
Qed.

(** Splitting on line breaks and closing every line with a line break
    gives the text back with one more line break at its end. *)
Lemma unlines_split text : unlines (JS.split JS.LF text) = text ++ [JS.LF].
Proof.
  unfold unlines. induction text as [|c r IH]; simpl; [done|].
  destruct (c =? JS.LF)%N eqn:E.
  - apply N.eqb_eq in E. subst c. simpl. by rewrite IH.
  - pose proof (split_not_nil JS.LF r) as Hne.
    destruct (JS.split JS.LF r) as [|l ls]; [done|].
    simpl in *. by rewrite IH.
Qed.

Lemma unlines_app ls1 ls2 : unlines (ls1 ++ ls2) = unlines ls1 ++ unlines ls2.
Proof. unfold unlines. by rewrite map_app, concat_app. Qed.

Lemma unlines_single line : unlines [line] = line ++ [JS.LF].
Proof. unfold unlines. simpl. by rewrite app_nil_r. Qed.

Lemma unlines_cons line rest : unlines (line :: rest) = (line ++ [JS.LF]) ++ unlines rest.
Proof. reflexivity. Qed.

(** *** Blank strings *)

Lemma trimStart_keeps c s :
  c ∈ s -> JS.is_white c = false -> c ∈ JS.trimStart s.
Proof.
  intros Hin Hc. induction s as [|a s IH]; [done|]. simpl.
  destruct (JS.is_white a) eqn:Ea; [|done].
  apply elem_of_cons in Hin as [->|Hin]; [congruence | by apply IH].
Qed.

Lemma trim_not_blank s : not_blank s -> JS.truthy (JS.trim s) = true.
Proof.
  intros (c & Hin & Hc).
  assert (H : c ∈ JS.trim s).
  { unfold JS.trim, JS.trimEnd. rewrite elem_of_reverse.
    apply trimStart_keeps; [|done]. rewrite elem_of_reverse.
    by apply trimStart_keeps. }
  destruct (JS.trim s); [by apply not_elem_of_nil in H | done].
Qed.

Lemma not_blank_app_l a b : not_blank a -> not_blank (a ++ b).
Proof. intros (c & Hin & Hc). exists c. split; [|done]. apply elem_of_app. by left. Qed.

Lemma not_blank_app_r a b : not_blank b -> not_blank (a ++ b).
Proof. intros (c & Hin & Hc). exists c. split; [|done]. apply elem_of_app. by right. Qed.

(** *** The chunks *)

Lemma chunk_bodies_groups lines cur :
  chunk_bodies lines (unlines cur) = map unlines (chunk_groups lines cur).
Proof.
  revert cur. induction lines as [|line rest IH]; intros cur; simpl.
  - by destruct (JS.truthy (JS.trim (unlines cur))).
  - destruct (MAX_RESPONSE_LENGTH <? length (unlines cur) + length line + 1).
    + simpl. f_equal. by rewrite <- IH, unlines_single.
    + by rewrite <- IH, unlines_app, unlines_single.
Qed.

(** The groups are consecutive runs of the lines, in order; only a
    blank last run is left out. *)
Lemma chunk_groups_partition lines cur :
  exists dropped,
    concat (chunk_groups lines cur) ++ dropped = cur ++ lines
    /\ (dropped = [] \/ JS.trim (unlines dropped) = []).
Proof.
  revert cur. induction lines as [|line rest IH]; intros cur; simpl.
  - destruct (JS.truthy (JS.trim (unlines cur))) eqn:E.
    + exists []. simpl. split; [by rewrite !app_nil_r | by left].
    + exists cur. simpl. rewrite app_nil_r. split; [done|]. right.
      by destruct (JS.trim (unlines cur)).
  - destruct (MAX_RESPONSE_LENGTH <? length (unlines cur) + length line + 1).
    + destruct (IH [line]) as (dropped & Hcat & Hblank).
      exists dropped. split; [|done]. simpl. by rewrite <- app_assoc, Hcat.
    + destruct (IH (cur ++ [line])) as (dropped & Hcat & Hblank).
      exists dropped. split; [|done]. by rewrite Hcat, <- app_assoc.
Qed.

(** No chunk outgrows the threshold when no single line does. *)
Lemma chunk_bodies_fit lines chunk :
  length chunk <= MAX_RESPONSE_LENGTH ->
  Forall (fun line : jsstring => length line + 1 <= MAX_RESPONSE_LENGTH) lines ->
  Forall (fun body : jsstring => length body <= MAX_RESPONSE_LENGTH)
    (chunk_bodies lines chunk).
Proof.
  intros Hfit Hlines. revert chunk Hfit.
  induction Hlines as [|line rest Hline _ IH]; intros chunk Hfit; simpl.
  - destruct (JS.truthy (JS.trim chunk)); [constructor; [done | constructor] | constructor].
  - destruct (MAX_RESPONSE_LENGTH <? length chunk + length line + 1) eqn:E.
    + constructor; [done|]. apply IH. rewrite length_app. simpl. lia.
    + apply Nat.ltb_ge in E. apply IH. rewrite !length_app. simpl. lia.
Qed.

(** When the last line is not blank nothing is left out. *)
Lemma chunk_bodies_concat lines chunk :
  match last lines with Some l => not_blank l | None => not_blank chunk end ->
  concat (chunk_bodies lines chunk) = chunk ++ unlines lines.
Proof.
  revert chunk. induction lines as [|line rest IH]; intros chunk Hlast; simpl.
  - simpl in Hlast. rewrite trim_not_blank by done. reflexivity.
  - assert (Hnext : forall c', (rest = [] -> not_blank c') ->
              match last rest with Some l => not_blank l | None => not_blank c' end).
    { intros c' Hc'. destruct rest as [|r rs]; [by apply Hc'|].
      rewrite last_cons_cons in Hlast.
      destruct (last (r :: rs)) eqn:E; [done|]. by apply last_None in E. }
    destruct (MAX_RESPONSE_LENGTH <? length chunk + length line + 1).
    + simpl. rewrite IH, unlines_cons; [done|].
      apply Hnext. intros ->. by apply not_blank_app_l.
    + rewrite IH, unlines_cons; [by rewrite <- !app_assoc|].
      apply Hnext. intros ->. apply not_blank_app_r. by apply not_blank_app_l.
Qed.

Lemma concat_length_bound (bodies : list jsstring) n :
  Forall (fun body : jsstring => length body <= n) bodies ->
  length (concat bodies) <= n * length bodies.
Proof. induction 1; simpl; [lia|]. rewrite length_app. lia. Qed.

(** *** Labels *)

(** The label of a part, unit by unit. *)
Lemma labelled_literal part body :
  labelled part body
  = [55357; 56516]%N ++ JS.lit " *Part " ++ JS.nat_toString part
    ++ JS.lit ":*" ++ [10; 10]%N ++ body.
Proof. unfold labelled, part_label. by rewrite <- !app_assoc. Qed.

Lemma number_parts_length part bodies :
  length (number_parts part bodies) = length bodies.
Proof. revert part. induction bodies as [|b bs IH]; intros part; simpl; [done|]. by rewrite IH. Qed.

Lemma number_parts_lookup part bodies k :
  number_parts part bodies !! k = labelled (part + k) <$> bodies !! k.
Proof.
  revert part k. induction bodies as [|b bs IH]; intros part [|k]; simpl; try done.
  - by rewrite Nat.add_0_r.
  - rewrite IH. by replace (S part + k) with (part + S k) by lia.
Qed.

(** The [k]-th of the parts numbered from 1 is the [k]-th body under
    the label [Part k+1]. *)
Lemma number_parts_lookup_body bodies k body :
  bodies !! k = Some body ->
  number_parts 1 bodies !! k
  = Some ([55357; 56516]%N ++ JS.lit " *Part " ++ JS.nat_toString (S k)
          ++ JS.lit ":*" ++ [10; 10]%N ++ body).
Proof.
  intros Hb. by rewrite number_parts_lookup, Hb, <- labelled_literal.
Qed.

Lemma number_parts_lookup_inv bodies k r :
  number_parts 1 bodies !! k = Some r ->
  exists body, bodies !! k = Some body
    /\ r = [55357; 56516]%N ++ JS.lit " *Part " ++ JS.nat_toString (S k)
           ++ JS.lit ":*" ++ [10; 10]%N ++ body.
Proof.
  rewrite number_parts_lookup. destruct (bodies !! k) as [body|]; [|done].
  intros [= <-]. exists body. split; [done|]. apply labelled_literal.
Qed.

(** *** Texts without white space at their ends *)

Lemma trimStart_head s c r : JS.trimStart s = c :: r -> JS.is_white c = false.
Proof.
  induction s as [|a s IH]; simpl; [done|].
  destruct (JS.is_white a) eqn:E; [done|]. by intros [= <- _].
Qed.

Lemma trim_last s c : JS.trim s = s -> last s = Some c -> JS.is_white c = false.
Proof.
  unfold JS.trim, JS.trimEnd. intros H Hlast.
  apply (f_equal reverse) in H. rewrite reverse_involutive in H.
  rewrite <- head_reverse in Hlast.
  destruct (reverse s) as [|c' r] eqn:E; [done|]. injection Hlast as ->.
  by apply trimStart_head in H.
Qed.

Lemma split_cons sep c r :
  JS.split sep (c :: r)
  = if (c =? sep)%N then [] :: JS.split sep r
    else match JS.split sep r with
         | l :: ls => (c :: l) :: ls
         | [] => [[c]]
         end.
Proof. reflexivity. Qed.

Lemma last_split text c :
  last text = Some c -> c ≠ JS.LF ->
  exists l, last (JS.split JS.LF text) = Some l /\ c ∈ l.
Proof.
  intros Hlast Hc. induction text as [|a text IH]; [done|].
  destruct text as [|b text].
  - injection Hlast as ->. simpl.
    destruct (N.eqb_spec c JS.LF) as [->|_]; [done|].
    exists [c]. split; [done | by left].
  - rewrite last_cons_cons in Hlast. destruct (IH Hlast) as (l & Hl & Hin).
    pose proof (split_not_nil JS.LF (b :: text)) as Hne.
    rewrite (split_cons JS.LF a).
    destruct (a =? JS.LF)%N.
    + exists l. split; [|done].
      destruct (JS.split JS.LF (b :: text)) as [|l0 ls] eqn:E; [done|].
      by rewrite last_cons_cons.
    + destruct (JS.split JS.LF (b :: text)) as [|l0 [|l1 ls]] eqn:E; [done| |].
      * injection Hl as <-. exists (a :: l0). split; [done | by right].
      * exists l. split; [|done]. by rewrite !last_cons_cons in *.
Qed.

(** The last line of a text whose [trim] is the text itself is not
    blank. *)
Lemma trimmed_last_line text :
  JS.trim text = text -> text ≠ [] ->
  match last (JS.split JS.LF text) with
  | Some l => not_blank l
  | None => not_blank []
  end.
Proof.
  intros Htrim Hne.
  destruct (last text) as [c|] eqn:Hlast; [|by apply last_None in Hlast].
  pose proof (trim_last text c Htrim Hlast) as Hc.
  destruct (last_split text c Hlast) as (l & -> & Hin); [by intros -> |].
  by exists c.
Qed.

(** Every chunk is accounted for: the chunks sent, followed by the
    blank chunk that is not sent (if any), are the lines read. *)
Lemma chunk_bodies_account lines chunk :
  length chunk <= MAX_RESPONSE_LENGTH ->
  Forall (fun line : jsstring => length line + 1 <= MAX_RESPONSE_LENGTH) lines ->
  exists dropped,
    concat (chunk_bodies lines chunk) ++ dropped = chunk ++ unlines lines
    /\ (dropped = []
        \/ (JS.trim dropped = [] /\ length dropped <= MAX_RESPONSE_LENGTH)).
Proof.
  intros Hfit Hlines. revert chunk Hfit.
  induction Hlines as [|line rest Hline _ IH]; intros chunk Hfit; simpl.
  - destruct (JS.truthy (JS.trim chunk)) eqn:E.
    + exists []. unfold unlines. simpl. split; [by rewrite !app_nil_r | by left].
    + exists chunk. unfold unlines. simpl. split; [by rewrite !app_nil_r|]. right.
      split; [by destruct (JS.trim chunk) | done].
  - destruct (MAX_RESPONSE_LENGTH <? length chunk + length line + 1) eqn:E.
    + destruct (IH (line ++ [JS.LF])) as (dropped & Hcat & Hblank).
      { rewrite length_app. simpl. lia. }
      exists dropped. split; [|done].
      simpl. by rewrite <- app_assoc, Hcat, unlines_cons.
    + apply Nat.ltb_ge in E.
      destruct (IH (chunk ++ line ++ [JS.LF])) as (dropped & Hcat & Hblank).
      { rewrite !length_app. simpl. lia. }
      exists dropped. split; [|done].
      by rewrite Hcat, unlines_cons, <- !app_assoc.
Qed.

Section LongMessage.
Context (w : world) (m : WWeb.message) (jid : jsstring)
  (st : gmap jsstring bool) (i j : nat).

Lemma short_message_trace text :
  length text <= MAX_RESPONSE_LENGTH ->
  trace (exec w (WWeb.sendLongMessage m text) st i j) = [Sent (WWeb.from m) text]
  /\ trace (exec w (Baileys.sendLongMessage jid text) st i j) = [Sent jid text].
Proof.
  intros Hlen. apply Nat.leb_le in Hlen.
  unfold WWeb.sendLongMessage, Baileys.sendLongMessage. rewrite Hlen. simpl.
  by destruct (delivery w i).
Qed.

Lemma long_message_replies text :
  delivers w ->
  MAX_RESPONSE_LENGTH < length text ->
  replies (exec w (WWeb.sendLongMessage m text) st i j)
    = number_parts 1 (chunk_bodies (JS.split JS.LF text) [])
  /\ replies (exec w (Baileys.sendLongMessage jid text) st i j)
       = number_parts 1 (chunk_bodies (JS.split JS.LF text) []).
Proof.
  intros Hw Hlen.
  assert (E : (length text <=? MAX_RESPONSE_LENGTH) = false) by (apply Nat.leb_gt; lia).
  unfold WWeb.sendLongMessage, Baileys.sendLongMessage. rewrite E.
  rewrite (baileys_send_chunks_eq jid).
  split; apply send_chunks_replies_first; try done; simpl; try lia;
    rewrite unlines_split, length_app; simpl; lia.
Qed.

Lemma lookup_map {A B} (f : A -> B) (l : list A) (k : nat) :
  map f l !! k = f <$> l !! k.
Proof. revert k. induction l as [|a l IH]; intros [|k]; simpl; try done. Qed.

(** A long text in any world: the replies handed to the transport are
    the first parts, at least one, of those that are sent when they are
    all delivered, and the same in both bridges. *)
Lemma long_message_prefix text :
  MAX_RESPONSE_LENGTH < length text ->
  replies (exec w (WWeb.sendLongMessage m text) st i j)
    `prefix_of` number_parts 1 (chunk_bodies (JS.split JS.LF text) [])
  /\ replies (exec w (WWeb.sendLongMessage m text) st i j) ≠ []
  /\ replies (exec w (Baileys.sendLongMessage jid text) st i j)
     = replies (exec w (WWeb.sendLongMessage m text) st i j).
Proof.
  intros Hlen.
  assert (E : (length text <=? MAX_RESPONSE_LENGTH) = false) by (apply Nat.leb_gt; lia).
  unfold WWeb.sendLongMessage, Baileys.sendLongMessage. rewrite E.
  rewrite (baileys_send_chunks_eq jid).
  destruct (send_chunks_prefix_first w (WWeb.from m) (JS.split JS.LF text) [] st i j)
    as [H1 H2]; [simpl; lia | rewrite unlines_split, length_app; simpl; lia |].
  split; [done|]. split; [done|]. apply send_chunks_replies_to.
Qed.

(** C7. A text of at most 4000 units is sent as one reply, verbatim
    and unlabelled.  For a longer text, in every world, at least one
    reply is handed to the transport, the [k]-th reply (counting from
    0) is the label [Part k+1], written out unit by unit, followed by
    the [k]-th group of lines, each line with its line break, and the
    groups are consecutive runs of the lines of the text, in order,
    with only a blank last group left out: no body begins or ends
    within a line.  Both bridges send the same texts; when every reply
    is delivered there is one reply for each group. *)
Theorem chunker_contract (text : jsstring) :
  (length text <= MAX_RESPONSE_LENGTH ->
     trace (exec w (WWeb.sendLongMessage m text) st i j) = [Sent (WWeb.from m) text]
     /\ trace (exec w (Baileys.sendLongMessage jid text) st i j) = [Sent jid text])
  /\ (MAX_RESPONSE_LENGTH < length text ->
      exists (groups : list (list jsstring)) (dropped : list jsstring),
        concat groups ++ dropped = JS.split JS.LF text
        /\ (dropped = [] \/ JS.trim (unlines dropped) = [])
        /\ replies (exec w (Baileys.sendLongMessage jid text) st i j)
           = replies (exec w (WWeb.sendLongMessage m text) st i j)
        /\ replies (exec w (WWeb.sendLongMessage m text) st i j) ≠ []
        /\ (forall (k : nat) (r : jsstring),
              replies (exec w (WWeb.sendLongMessage m text) st i j) !! k = Some r ->
              exists g : list jsstring,
                groups !! k = Some g
                /\ r = [55357; 56516]%N ++ JS.lit " *Part " ++ JS.nat_toString (S k)
                       ++ JS.lit ":*" ++ [10; 10]%N ++ unlines g)
        /\ (delivers w ->
            length (replies (exec w (WWeb.sendLongMessage m text) st i j))
            = length groups)).
Proof.
  split; [apply short_message_trace|].
  intros Hlen.
  destruct (chunk_groups_partition (JS.split JS.LF text) []) as (dropped & Hcat & Hd).
  destruct (long_message_prefix text Hlen) as (Hpre & Hne & HB).
  pose proof (chunk_bodies_groups (JS.split JS.LF text) []) as Hgroups.
  change (unlines []) with (@nil N) in Hgroups. rewrite Hgroups in Hpre.
  exists (chunk_groups (JS.split JS.LF text) []), dropped.
  split; [done|]. split; [done|]. split; [done|]. split; [done|]. split.
  - intros k r Hk.
    pose proof (prefix_lookup_Some _ _ _ _ Hk Hpre) as Hk'.
    apply number_parts_lookup_inv in Hk' as (body & Hbody & ->).
    rewrite lookup_map in Hbody.
    destruct (chunk_groups (JS.split JS.LF text) [] !! k) as [g|]; [|done].
    injection Hbody as <-. by exists g.
  - intros Hw. destruct (long_message_replies text Hw Hlen) as [-> _].
    by rewrite number_parts_length, Hgroups, length_map.
Qed.

(** C6, as the code has it.  For a text of 9000 units whose lines are
    at most 100 units long and which has no white space at its ends
    (the handlers pass the trimmed output of the assistant), when the
    transport delivers: there are at least 3 replies, the same in both
    bridges; the [k]-th reply (counting from 0) is the label
    [Part k+1], written out unit by unit, followed by its body; every
    body is at most 4000 units long; and the bodies together are the
    text followed by one more line break, since every line, the last
    one too, is closed by a line break. *)
Theorem chunking_scenario (text : jsstring) :
  delivers w ->
  length text = 9 * 1000 ->
  JS.trim text = text ->
  Forall (fun line : jsstring => length line <= 100) (JS.split JS.LF text) ->
  exists bodies : list jsstring,
    replies (exec w (Baileys.sendLongMessage jid text) st i j)
    = replies (exec w (WWeb.sendLongMessage m text) st i j)
    /\ length (replies (exec w (WWeb.sendLongMessage m text) st i j)) = length bodies
    /\ (forall (k : nat) (body : jsstring),
          bodies !! k = Some body ->
          replies (exec w (WWeb.sendLongMessage m text) st i j) !! k
          = Some ([55357; 56516]%N ++ JS.lit " *Part " ++ JS.nat_toString (S k)
                  ++ JS.lit ":*" ++ [10; 10]%N ++ body))
    /\ 3 <= length bodies
    /\ Forall (fun body : jsstring => length body <= 4000) bodies
    /\ concat bodies = text ++ [10%N].
Proof.
  intros Hw Hlen Htrim Hlines.
  assert (Hfit : Forall (fun line : jsstring => length line + 1 <= MAX_RESPONSE_LENGTH)
                   (JS.split JS.LF text)).
  { eapply Forall_impl; [exact Hlines|]. intros line Hl. simpl in Hl.
    unfold MAX_RESPONSE_LENGTH. lia. }
  assert (Hne : text ≠ []) by (intros ->; simpl in Hlen; lia).
  pose proof (chunk_bodies_concat (JS.split JS.LF text) []) as Hcat.
  pose proof (trimmed_last_line text Htrim Hne) as Hlast.
  destruct (last (JS.split JS.LF text)) as [l|] eqn:El;
    [|by apply last_None, split_not_nil in El].
  specialize (Hcat Hlast). rewrite unlines_split in Hcat. simpl in Hcat.
  pose proof (chunk_bodies_fit (JS.split JS.LF text) []) as Hsizes.
  destruct (long_message_replies text Hw) as [H1 H2];
    [unfold MAX_RESPONSE_LENGTH; lia|].
  set (bodies := chunk_bodies (JS.split JS.LF text) []) in *.
  assert (Hb : Forall (fun body : jsstring => length body <= MAX_RESPONSE_LENGTH) bodies).
  { apply Hsizes; [simpl; lia | done]. }
  pose proof (concat_length_bound bodies _ Hb) as Hbound.
  assert (Htotal : length (concat bodies) = 9 * 1000 + 1).
  { rewrite Hcat, length_app. simpl. lia. }
  exists bodies.
  split; [by rewrite H1, H2|]. split; [by rewrite H1, number_parts_length|].
  split; [intros k body Hk; rewrite H1; by apply number_parts_lookup_body|].
  unfold MAX_RESPONSE_LENGTH in *.
  split; [lia|]. split; [exact Hb | exact Hcat].
Qed.

End LongMessage.

Lemma calm_delivers : delivers Sample.calm.
Proof. intros n. reflexivity. Qed.

Lemma chunker_contract_witness :
  trace (exec Sample.calm
           (WWeb.sendLongMessage (Sample.wweb_from "491234567890" "hi") (JS.lit "done"))
           ∅ 0 0)
    = [Sent (WWeb.from (Sample.wweb_from "491234567890" "hi")) (JS.lit "done")]
  /\ exists (groups : list (list jsstring)) (dropped : list jsstring),
       concat groups ++ dropped = JS.split JS.LF Sample.ninety_lines
       /\ (dropped = [] \/ JS.trim (unlines dropped) = [])
       /\ replies (exec Sample.hostile
                     (Baileys.sendLongMessage (JS.lit "491234567890@s.whatsapp.net")
                        Sample.ninety_lines) ∅ 0 0)
          = replies (exec Sample.hostile
                       (WWeb.sendLongMessage (Sample.wweb_from "491234567890" "hi")
                          Sample.ninety_lines) ∅ 0 0)
       /\ replies (exec Sample.hostile
                     (WWeb.sendLongMessage (Sample.wweb_from "491234567890" "hi")
                        Sample.ninety_lines) ∅ 0 0) ≠ []
       /\ (forall (k : nat) (r : jsstring),
             replies (exec Sample.hostile
                        (WWeb.sendLongMessage (Sample.wweb_from "491234567890" "hi")
                           Sample.ninety_lines) ∅ 0 0) !! k = Some r ->
             exists g : list jsstring,
               groups !! k = Some g
               /\ r = [55357; 56516]%N ++ JS.lit " *Part " ++ JS.nat_toString (S k)
                      ++ JS.lit ":*" ++ [10; 10]%N ++ unlines g)
       /\ (delivers Sample.hostile ->
           length (replies (exec Sample.hostile
                              (WWeb.sendLongMessage (Sample.wweb_from "491234567890" "hi")
                                 Sample.ninety_lines) ∅ 0 0))
           = length groups).
Proof.
  split.
  - refine (proj1 (proj1 (chunker_contract Sample.calm
                            (Sample.wweb_from "491234567890" "hi")
                            (JS.lit "491234567890@s.whatsapp.net") ∅ 0 0 (JS.lit "done"))
                     _)).
    apply Nat.leb_le. vm_compute. reflexivity.
  - refine (proj2 (chunker_contract Sample.hostile
                     (Sample.wweb_from "491234567890" "hi")
                     (JS.lit "491234567890@s.whatsapp.net") ∅ 0 0 Sample.ninety_lines)
              _).
    apply Nat.ltb_lt. vm_compute. reflexivity.
Defined.

Lemma chunking_scenario_witness :
  exists bodies : list jsstring,
    replies (exec Sample.calm
               (Baileys.sendLongMessage (JS.lit "491234567890@s.whatsapp.net")
                  Sample.report) ∅ 0 0)
    = replies (exec Sample.calm
                 (WWeb.sendLongMessage (Sample.wweb_from "491234567890" "hi")
                    Sample.report) ∅ 0 0)
    /\ length (replies (exec Sample.calm
                          (WWeb.sendLongMessage (Sample.wweb_from "491234567890" "hi")
                             Sample.report) ∅ 0 0)) = length bodies
    /\ (forall (k : nat) (body : jsstring),
          bodies !! k = Some body ->
          replies (exec Sample.calm
                     (WWeb.sendLongMessage (Sample.wweb_from "491234567890" "hi")
                        Sample.report) ∅ 0 0) !! k
          = Some ([55357; 56516]%N ++ JS.lit " *Part " ++ JS.nat_toString (S k)
                  ++ JS.lit ":*" ++ [10; 10]%N ++ body))
    /\ 3 <= length bodies
    /\ Forall (fun body : jsstring => length body <= 4000) bodies
    /\ concat bodies = Sample.report ++ [10%N].
Proof.
  refine (chunking_scenario Sample.calm (Sample.wweb_from "491234567890" "hi")
            (JS.lit "491234567890@s.whatsapp.net") ∅ 0 0 Sample.report
            calm_delivers _ _ _).
  - vm_compute. reflexivity.
  - vm_compute. reflexivity.
  - apply (bool_decide_unpack _). vm_compute. exact I.
Defined.

(** The scenario of C6 at a text the handlers can pass: 89 lines of 99
    letters, each closed by a line break, and a last line of 100
    letters.  The text has 9000 units, its lines at most 100, and no
    white space at its ends.  Three parts are sent, with bodies of
    4000, 4000 and 1001 units: together they are the text and one more
    line break, 9001 units, and not the text. *)
Lemma chunking_scenario_counterexample :
  length Sample.report = 9 * 1000
  /\ JS.trim Sample.report = Sample.report
  /\ Forall (fun line : jsstring => length line <= 100) (JS.split JS.LF Sample.report)
  /\ exists b1 b2 b3 : jsstring,
       replies (exec Sample.calm
                  (WWeb.sendLongMessage (Sample.wweb_from "491234567890" "hi")
                     Sample.report) ∅ 0 0)
       = [[55357; 56516]%N ++ JS.lit " *Part 1:*" ++ [10; 10]%N ++ b1;
          [55357; 56516]%N ++ JS.lit " *Part 2:*" ++ [10; 10]%N ++ b2;
          [55357; 56516]%N ++ JS.lit " *Part 3:*" ++ [10; 10]%N ++ b3]
       /\ replies (exec Sample.calm
                     (Baileys.sendLongMessage (JS.lit "491234567890@s.whatsapp.net")
                        Sample.report) ∅ 0 0)
          = [[55357; 56516]%N ++ JS.lit " *Part 1:*" ++ [10; 10]%N ++ b1;
             [55357; 56516]%N ++ JS.lit " *Part 2:*" ++ [10; 10]%N ++ b2;
             [55357; 56516]%N ++ JS.lit " *Part 3:*" ++ [10; 10]%N ++ b3]
       /\ (length b1 = 4000 /\ length b2 = 4000 /\ length b3 = 1001)
       /\ b1 ++ b2 ++ b3 = Sample.report ++ [10%N]
       /\ b1 ++ b2 ++ b3 ≠ Sample.report.
Proof.
  split; [vm_compute; reflexivity|]. split; [vm_compute; reflexivity|].
  split; [apply (bool_decide_unpack _); vm_compute; exact I|].
  exists (concat (repeat (repeat 120%N 99 ++ [10%N]) 40)),
         (concat (repeat (repeat 120%N 99 ++ [10%N]) 40)),
         (concat (repeat (repeat 120%N 99 ++ [10%N]) 9) ++ repeat 120%N 100 ++ [10%N]).
  split; [vm_compute; reflexivity|]. split; [vm_compute; reflexivity|].
  split; [repeat split; vm_compute; reflexivity|].
  split; [vm_compute; reflexivity|].
  intros E. apply (f_equal length) in E. vm_compute in E. discriminate E.
Qed.

(** C10. A text of one line of 4001 units is longer than the threshold
    and its line is too; both bridges send the label [Part 1], written
    out unit by unit, with nothing after it, and then the label
    [Part 2] followed by the line and a line break, 4002 units. *)
Theorem oversized_line_parts :
  exists text : jsstring,
    MAX_RESPONSE_LENGTH < length text
    /\ (exists line, line ∈ JS.split JS.LF text /\ MAX_RESPONSE_LENGTH < length line)
    /\ exists body : jsstring,
         MAX_RESPONSE_LENGTH < length body
         /\ 4000 < length body
         /\ replies (exec Sample.calm
                       (WWeb.sendLongMessage (Sample.wweb_from "491234567890" "hi") text)
                       ∅ 0 0)
            = [[55357; 56516]%N ++ JS.lit " *Part 1:*" ++ [10; 10]%N;
               [55357; 56516]%N ++ JS.lit " *Part 2:*" ++ [10; 10]%N ++ body]
         /\ replies (exec Sample.calm
                       (Baileys.sendLongMessage (JS.lit "491234567890@s.whatsapp.net") text)
                       ∅ 0 0)
            = [[55357; 56516]%N ++ JS.lit " *Part 1:*" ++ [10; 10]%N;
               [55357; 56516]%N ++ JS.lit " *Part 2:*" ++ [10; 10]%N ++ body].
Proof.
  exists Sample.one_long_line. split; [apply Nat.ltb_lt; vm_compute; reflexivity|].
  split.
  - exists Sample.one_long_line. split; [|apply Nat.ltb_lt; vm_compute; reflexivity].
    vm_compute. left.
  - exists (Sample.one_long_line ++ [10%N]).
    split; [apply Nat.ltb_lt; vm_compute; reflexivity|].
    split; [apply Nat.ltb_lt; vm_compute; reflexivity|].
    split; vm_compute; reflexivity.
Qed.

(** ** The busy gate *)

Section BusyGate.
Context (rt : runtime) (w : world) (st : gmap jsstring bool) (i j : nat).

(** X17. In the Baileys bridge every text that would reach the
    invoker, [/tasks] included, is turned away while the sender is
    busy: one notice, no child process, sessions unchanged, whether the
    notice is delivered or not. *)
Lemma baileys_busy_gate (jid text : jsstring) :
  toLowerCase rt text ≠ JS.lit "/help" ->
  toLowerCase rt text ≠ JS.lit "/status" ->
  st !! JS.replace (JS.lit "@s.whatsapp.net") [] jid = Some true ->
  trace (exec w (Baileys.handleMessage rt jid text) st i j)
    = [Sent jid Baileys.STILL_PROCESSING]
  /\ sessions (exec w (Baileys.handleMessage rt jid text) st i j) = st.
Proof.
  intros H1 H2 Hbusy. unfold Baileys.handleMessage.
  apply eqb_false in H1, H2. rewrite H1, H2.
  rewrite mbind_unfold. simpl. rewrite Hbusy. simpl.
  by destruct (delivery w i).
Qed.

(** X18. The whatsapp-web.js bridge turns a free-form text away while
    the sender is busy: one notice, no child process, sessions
    unchanged, whether the notice is delivered or not. *)
Lemma wweb_busy_gate (m : WWeb.message) :
  WWeb.isGroupMsg m = false -> WWeb.isStatus m = false -> WWeb.body m ≠ [] ->
  JS.replace (JS.lit "@c.us") [] (WWeb.from m) ∈ WWeb.AUTHORIZED_NUMBERS rt ->
  toLowerCase rt (JS.trim (WWeb.body m)) ≠ JS.lit "/help" ->
  toLowerCase rt (JS.trim (WWeb.body m)) ≠ JS.lit "/status" ->
  toLowerCase rt (JS.trim (WWeb.body m)) ≠ JS.lit "/tasks" ->
  st !! JS.replace (JS.lit "@c.us") [] (WWeb.from m) = Some true ->
  trace (exec w (WWeb.on_message rt m) st i j)
    = [Sent (WWeb.from m) WWeb.STILL_PROCESSING]
  /\ sessions (exec w (WWeb.on_message rt m) st i j) = st.
Proof.
  intros Hg Hs Hb Hin H1 H2 H3 Hbusy.
  unfold WWeb.on_message. rewrite Hg, Hs.
  assert (Ht : JS.truthy (WWeb.body m) = true) by (by destruct (WWeb.body m)).
  assert (Hlen : (length (WWeb.AUTHORIZED_NUMBERS rt) =? 0) = false).
  { destruct (WWeb.AUTHORIZED_NUMBERS rt); [by apply not_elem_of_nil in Hin | done]. }
  apply includes_true in Hin. rewrite Ht, Hin, Hlen.
  apply eqb_false in H1, H2, H3. rewrite H1, H2, H3. cbn [orb negb].
  rewrite mbind_unfold. simpl. rewrite Hbusy. simpl.
  by destruct (delivery w i).
Qed.

End BusyGate.

(** C2 at the input where the whatsapp-web.js bridge departs from it:
    the authorized sender is busy and sends [/tasks].  The handler
    starts the assistant, sends no "still processing" notice, and
    leaves the busy flag as it was.  In the event loop: after a
    free-form message whose acknowledgement was sent and a [/tasks] from
    the same sender, two handlers wait for the assistant at once. *)
Theorem wweb_tasks_skips_busy_gate :
  let st : gmap jsstring bool := {[ Sample.owner := true ]} in
  let r := exec Sample.calm
             (WWeb.on_message Sample.rt (Sample.wweb_from "491234567890" "/tasks"))
             st 0 0 in
  let l := turns booted
             [Arrive (WWeb.on_message Sample.rt (Sample.wweb_from "491234567890" "hello"));
              ReplySettled 0 None;
              Arrive (WWeb.on_message Sample.rt (Sample.wweb_from "491234567890" "/tasks"))] in
  spawns r = [WWeb.claude_call TASKS_PROMPT (WORK_DIR Sample.rt)]
  /\ replies r = [JS.lit "done"]
  /\ sessions r = st
  /\ map invoking (waiting l) = [true; true]
  /\ store l !! Sample.owner = Some true
  /\ omap is_spawned (log l)
     = [WWeb.claude_call (JS.lit "hello") (WORK_DIR Sample.rt);
        WWeb.claude_call TASKS_PROMPT (WORK_DIR Sample.rt)].
Proof. vm_compute. done. Qed.

(** The Baileys bridge at the same input: one notice and no process. *)
Lemma baileys_tasks_meets_busy_gate :
  let st : gmap jsstring bool := {[ Sample.owner := true ]} in
  let r := exec Sample.calm
             (Baileys.on_upsert Sample.rt [Sample.baileys_from "491234567890" "/tasks"])
             st 0 0 in
  let l := turns booted
             [Arrive (Baileys.on_upsert Sample.rt
                        [Sample.baileys_from "491234567890" "hello"]);
              ReplySettled 0 None;
              Arrive (Baileys.on_upsert Sample.rt
                        [Sample.baileys_from "491234567890" "/tasks"])] in
  spawns r = []
  /\ replies r = [Baileys.STILL_PROCESSING]
  /\ sessions r = st
  /\ map invoking (waiting l) = [true; false]
  /\ omap is_spawned (log l)
     = [Baileys.claude_call (JS.lit "hello") (WORK_DIR Sample.rt)].
Proof. vm_compute. done. Qed.

(** ** Handlers that start no process *)

Lemma spawn_free_spawns {A} w (p : prog A) st i j :
  spawn_free p -> spawns (exec w p st i j) = [].
Proof.
  revert st i j.
  induction p as [a|m|s k IH|s b k IH|to t k IH|c k IH|ms k IH];
    intros st i j Hp; simpl in *; try done; by apply IH.
Qed.

Lemma spawn_free_bind {A B} (p : prog A) (f : A -> prog B) :
  spawn_free p -> (forall a, spawn_free (f a)) -> spawn_free (bind p f).
Proof.
  intros Hp Hf.
  induction p as [a|m|s k IH|s b k IH|to t k IH|c k IH|ms k IH]; simpl in *;
    try done; auto.
Qed.

Lemma spawn_free_try_catch {A} (p : prog A) (h : jsstring -> prog A) :
  spawn_free p -> (forall m, spawn_free (h m)) -> spawn_free (try_catch p h).
Proof.
  intros Hp Hh.
  induction p as [a|m|s k IH|s b k IH|to t k IH|c k IH|ms k IH]; simpl in *;
    try done; auto.
Qed.

Lemma spawn_free_try_finally {A} (p : prog A) (f : prog unit) :
  spawn_free p -> spawn_free f -> spawn_free (try_finally p f).
Proof.
  intros Hp Hf.
  induction p as [a|m|s k IH|s b k IH|to t k IH|c k IH|ms k IH]; simpl in *;
    try done; auto; by apply spawn_free_bind.
Qed.

Lemma spawn_free_send to text : spawn_free (send to text).
Proof. intros [m|]; exact I. Qed.

Lemma spawn_free_send_chunks to lines chunk part :
  spawn_free (WWeb.send_chunks to lines chunk part).
Proof.
  revert chunk part.
  induction lines as [|line rest IH]; intros chunk part; cbn [WWeb.send_chunks].
  - destruct (JS.truthy (JS.trim chunk)); [apply spawn_free_send | exact I].
  - destruct (MAX_RESPONSE_LENGTH <? length chunk + length line + 1); [|apply IH].
    rewrite !mbind_unfold.
    apply spawn_free_bind; [apply spawn_free_send|]. intros _.
    apply spawn_free_bind; [exact I|]. intros _. apply IH.
Qed.

Lemma spawn_free_sendLongMessage m text : spawn_free (WWeb.sendLongMessage m text).
Proof.
  unfold WWeb.sendLongMessage.
  destruct (length text <=? MAX_RESPONSE_LENGTH);
    [apply spawn_free_send | apply spawn_free_send_chunks].
Qed.

Lemma spawn_free_baileys_sendLongMessage jid text :
  spawn_free (Baileys.sendLongMessage jid text).
Proof.
  unfold Baileys.sendLongMessage.
  destruct (length text <=? MAX_RESPONSE_LENGTH); [apply spawn_free_send|].
  rewrite (baileys_send_chunks_eq jid). apply spawn_free_send_chunks.
Qed.

(** ** The [/tasks] command *)

Lemma wweb_try_invoke_spawns w m prompt dir st i j :
  spawns (exec w
            (try_catch
               (bind (WWeb.runClaude prompt dir) (fun result => WWeb.sendLongMessage m result))
               (fun err => WWeb.reply m (error_reply err)))
            st i j)
  = [WWeb.claude_call prompt dir].
Proof.
  unfold WWeb.runClaude. cbn [bind try_catch exec].
  rewrite spawns_emit_spawned. f_equal. apply spawn_free_spawns.
  apply spawn_free_try_catch; [|intros; apply spawn_free_send].
  destruct (WWeb.outcome_of (launch w j)); [apply spawn_free_sendLongMessage | exact I].
Qed.

Lemma wweb_guarded_invoke_spawns w m prompt dir sender st i j :
  spawns (exec w
            (try_finally
               (try_catch
                  (bind (WWeb.runClaude prompt dir)
                     (fun result => WWeb.sendLongMessage m result))
                  (fun err => WWeb.reply m (error_reply err)))
               (set_busy sender false))
            st i j)
  = [WWeb.claude_call prompt dir].
Proof.
  unfold WWeb.runClaude. cbn [bind try_catch try_finally exec].
  rewrite spawns_emit_spawned. f_equal. apply spawn_free_spawns.
  apply spawn_free_try_finally; [|exact I].
  apply spawn_free_try_catch; [|intros; apply spawn_free_send].
  destruct (WWeb.outcome_of (launch w j)); [apply spawn_free_sendLongMessage | exact I].
Qed.

Lemma baileys_guarded_invoke_spawns w jid prompt dir sender st i j :
  spawns (exec w
            (try_finally
               (try_catch
                  (bind (Baileys.runClaude prompt dir)
                     (fun result => Baileys.sendLongMessage jid result))
                  (fun err => Baileys.sendMessage jid (error_reply err)))
               (set_busy sender false))
            st i j)
  = [Baileys.claude_call prompt dir].
Proof.
  unfold Baileys.runClaude. cbn [bind try_catch try_finally exec].
  rewrite spawns_emit_spawned. f_equal. apply spawn_free_spawns.
  apply spawn_free_try_finally; [|exact I].
  apply spawn_free_try_catch; [|intros; apply spawn_free_send].
  destruct (Baileys.outcome_of (launch w j));
    [apply spawn_free_baileys_sendLongMessage | exact I].
Qed.

Section Tasks.
Context (rt : runtime) (w : world) (st : gmap jsstring bool) (i j : nat).

(** Once the guards have let a message through, the whatsapp-web.js
    bridge answers [/tasks] by running the assistant on the fixed
    prompt, whatever the session state. *)
Lemma wweb_tasks_spawns (m : WWeb.message) :
  WWeb.isGroupMsg m = false -> WWeb.isStatus m = false -> WWeb.body m ≠ [] ->
  JS.replace (JS.lit "@c.us") [] (WWeb.from m) ∈ WWeb.AUTHORIZED_NUMBERS rt ->
  toLowerCase rt (JS.trim (WWeb.body m)) = JS.lit "/tasks" ->
  spawns (exec w (WWeb.on_message rt m) st i j)
  = [WWeb.claude_call TASKS_PROMPT (WORK_DIR rt)].
Proof.
  intros Hg Hs Hb Hin Htasks.
  unfold WWeb.on_message. rewrite Hg, Hs.
  assert (Ht : JS.truthy (WWeb.body m) = true) by (by destruct (WWeb.body m)).
  assert (Hlen : (length (WWeb.AUTHORIZED_NUMBERS rt) =? 0) = false).
  { destruct (WWeb.AUTHORIZED_NUMBERS rt); [by apply not_elem_of_nil in Hin | done]. }
  apply includes_true in Hin. rewrite Ht, Hin, Hlen, Htasks. cbn [orb negb].
  change (JS.eqb (JS.lit "/tasks") (JS.lit "/help")) with false.
  change (JS.eqb (JS.lit "/tasks") (JS.lit "/status")) with false.
  change (JS.eqb (JS.lit "/tasks") (JS.lit "/tasks")) with true.
  cbv iota. rewrite mbind_unfold. apply wweb_try_invoke_spawns.
Qed.

(** A free-form text from an idle sender reaches the invoker as it is,
    provided the acknowledgement could be sent. *)
Lemma wweb_free_form_spawns (m : WWeb.message) :
  WWeb.isGroupMsg m = false -> WWeb.isStatus m = false -> WWeb.body m ≠ [] ->
  JS.replace (JS.lit "@c.us") [] (WWeb.from m) ∈ WWeb.AUTHORIZED_NUMBERS rt ->
  toLowerCase rt (JS.trim (WWeb.body m)) ≠ JS.lit "/help" ->
  toLowerCase rt (JS.trim (WWeb.body m)) ≠ JS.lit "/status" ->
  toLowerCase rt (JS.trim (WWeb.body m)) ≠ JS.lit "/tasks" ->
  st !! JS.replace (JS.lit "@c.us") [] (WWeb.from m) ≠ Some true ->
  delivery w i = None ->
  spawns (exec w (WWeb.on_message rt m) st i j)
  = [WWeb.claude_call (JS.trim (WWeb.body m)) (WORK_DIR rt)].
Proof.
  intros Hg Hs Hb Hin H1 H2 H3 Hidle Hack.
  unfold WWeb.on_message. rewrite Hg, Hs.
  assert (Ht : JS.truthy (WWeb.body m) = true) by (by destruct (WWeb.body m)).
  assert (Hlen : (length (WWeb.AUTHORIZED_NUMBERS rt) =? 0) = false).
  { destruct (WWeb.AUTHORIZED_NUMBERS rt); [by apply not_elem_of_nil in Hin | done]. }
  apply includes_true in Hin. rewrite Ht, Hin, Hlen.
  apply eqb_false in H1, H2, H3. rewrite H1, H2, H3. cbn [orb negb].
  rewrite mbind_unfold. cbn [session_busy bind exec].
  assert (Hb' : default false (st !! JS.replace (JS.lit "@c.us") [] (WWeb.from m)) = false).
  { by destruct (st !! JS.replace (JS.lit "@c.us") [] (WWeb.from m)) as [[|]|]. }
  rewrite Hb'. rewrite !mbind_unfold.
  cbn [set_busy bind exec WWeb.reply send try_catch try_finally].
  rewrite Hack. cbn [bind try_catch try_finally].
  rewrite spawns_emit_sent. apply wweb_guarded_invoke_spawns.
Qed.

(** The Baileys handler on a text that is not [/help] or [/status],
    from an idle sender, provided the acknowledgement could be sent. *)
Lemma baileys_handler_spawns (jid text : jsstring) :
  toLowerCase rt text ≠ JS.lit "/help" ->
  toLowerCase rt text ≠ JS.lit "/status" ->
  st !! JS.replace (JS.lit "@s.whatsapp.net") [] jid ≠ Some true ->
  delivery w i = None ->
  spawns (exec w (Baileys.handleMessage rt jid text) st i j)
  = [Baileys.claude_call
       (if JS.eqb (toLowerCase rt text) (JS.lit "/tasks") then TASKS_PROMPT else text)
       (WORK_DIR rt)].
Proof.
  intros H1 H2 Hidle Hack. unfold Baileys.handleMessage.
  apply eqb_false in H1, H2. rewrite H1, H2.
  rewrite mbind_unfold. cbn [session_busy bind exec].
  assert (Hb' : default false
            (st !! JS.replace (JS.lit "@s.whatsapp.net") [] jid) = false).
  { by destruct (st !! JS.replace (JS.lit "@s.whatsapp.net") [] jid) as [[|]|]. }
  rewrite Hb'. rewrite !mbind_unfold.
  cbn [set_busy bind exec Baileys.sendMessage send try_catch try_finally].
  rewrite Hack. cbn [bind try_catch try_finally].
  rewrite spawns_emit_sent. apply baileys_guarded_invoke_spawns.
Qed.

End Tasks.

Section TasksRoundTrip.
Context (rt : runtime) (w : world) (st : gmap jsstring bool) (i j : nat).

(** On strings of ASCII units the engine's [toLowerCase] is the ASCII
    case folding. *)
Hypothesis lower_ascii :
  forall s, forallb JS.is_ascii s = true -> toLowerCase rt s = map JS.ascii_lower s.

Lemma lower_prompt : toLowerCase rt TASKS_PROMPT = map JS.ascii_lower TASKS_PROMPT.
Proof. apply lower_ascii. vm_compute. reflexivity. Qed.

Lemma lower_empty : toLowerCase rt [] = [].
Proof. by rewrite lower_ascii. Qed.

Lemma prompt_is_trimmed : JS.trim TASKS_PROMPT = TASKS_PROMPT.
Proof. vm_compute. reflexivity. Qed.

Lemma prompt_is_no_command :
  toLowerCase rt TASKS_PROMPT ≠ JS.lit "/help"
  /\ toLowerCase rt TASKS_PROMPT ≠ JS.lit "/status"
  /\ toLowerCase rt TASKS_PROMPT ≠ JS.lit "/tasks".
Proof. rewrite lower_prompt. repeat split; vm_compute; discriminate. Qed.

Lemma tasks_text_not_empty (text : jsstring) :
  toLowerCase rt (JS.trim text) = JS.lit "/tasks" -> JS.trim text ≠ [].
Proof. intros H E. rewrite E, lower_empty in H. discriminate H. Qed.

(** In the Baileys bridge [/tasks] is the fixed prompt from the rewrite
    on: the two handlers are the same program. *)
Lemma baileys_tasks_rewrite (jid text : jsstring) :
  toLowerCase rt text = JS.lit "/tasks" ->
  Baileys.handleMessage rt jid text = Baileys.handleMessage rt jid TASKS_PROMPT.
Proof.
  intros Htasks. destruct prompt_is_no_command as (P1 & P2 & P3).
  apply eqb_false in P1, P2, P3.
  unfold Baileys.handleMessage. rewrite Htasks, P1, P2, P3.
  reflexivity.
Qed.

(** The round trip of [/tasks] where it holds.  An inbound [/tasks]
    (in any letter case) makes the bridge call [spawn] with the same
    executable, argument list and working directory as an inbound
    message whose text is the fixed task-listing prompt: for an
    authorized sender who is not busy and whose "Processing..."
    acknowledgement could be sent.  In the Baileys bridge the two
    messages are handled by the very same program, in every world. *)
Theorem tasks_round_trip :
  (forall from body : jsstring,
     JS.replace (JS.lit "@c.us") [] from ∈ WWeb.AUTHORIZED_NUMBERS rt ->
     st !! JS.replace (JS.lit "@c.us") [] from ≠ Some true ->
     toLowerCase rt (JS.trim body) = JS.lit "/tasks" ->
     delivery w i = None ->
     spawns (exec w (WWeb.on_message rt (WWeb.Message false false body from)) st i j)
       = spawns (exec w (WWeb.on_message rt
                           (WWeb.Message false false TASKS_PROMPT from)) st i j)
     /\ spawns (exec w (WWeb.on_message rt (WWeb.Message false false body from)) st i j)
        = [SpawnCall (JS.lit "claude")
             [JS.lit "--print"; JS.lit "--max-turns"; JS.lit "3";
              JS.lit "List all tasks from data/tasks.json with their status. Be concise."]
             (WORK_DIR rt) [(JS.lit "NO_COLOR", JS.lit "1")] (Some 300000%N)])
  /\ (forall (fm : bool) (jid : jsstring) (c1 c2 : Baileys.content),
        toLowerCase rt (JS.trim (Baileys.text_of c1)) = JS.lit "/tasks" ->
        Baileys.text_of c2 = TASKS_PROMPT ->
        Baileys.on_message rt (Baileys.Message (Some c1) fm jid)
        = Baileys.on_message rt (Baileys.Message (Some c2) fm jid))
  /\ (forall jid text : jsstring,
        toLowerCase rt text = JS.lit "/tasks" ->
        st !! JS.replace (JS.lit "@s.whatsapp.net") [] jid ≠ Some true ->
        delivery w i = None ->
        spawns (exec w (Baileys.handleMessage rt jid text) st i j)
          = spawns (exec w (Baileys.handleMessage rt jid TASKS_PROMPT) st i j)
        /\ spawns (exec w (Baileys.handleMessage rt jid text) st i j)
           = [SpawnCall (JS.lit "claude")
                [JS.lit "--print"; JS.lit "--max-turns"; JS.lit "3";
                 JS.lit "List all tasks from data/tasks.json with their status. Be concise."]
                (WORK_DIR rt) [(JS.lit "NO_COLOR", JS.lit "1")] None]).
Proof.
  destruct prompt_is_no_command as (P1 & P2 & P3).
  split; [|split].
  - intros from body Hin Hidle Htasks Hack.
    assert (Hbody : body ≠ []).
    { intros ->. by apply tasks_text_not_empty in Htasks. }
    rewrite (wweb_tasks_spawns rt w st i j (WWeb.Message false false body from))
      by done.
    split; [|done].
    rewrite (wweb_free_form_spawns rt w st i j
               (WWeb.Message false false TASKS_PROMPT from));
      cbn [WWeb.body WWeb.from WWeb.isGroupMsg WWeb.isStatus];
      rewrite ?prompt_is_trimmed; done.
  - intros fm jid c1 c2 Htasks Hc2.
    unfold Baileys.on_message.
    cbn [Baileys.payload Baileys.fromMe Baileys.remoteJid].
    rewrite Hc2, prompt_is_trimmed.
    pose proof (tasks_text_not_empty _ Htasks) as Hne.
    rewrite (baileys_tasks_rewrite _ _ Htasks).
    destruct (JS.trim (Baileys.text_of c1)); [done|]. reflexivity.
  - intros jid text Htasks Hidle Hack.
    rewrite (baileys_tasks_rewrite _ _ Htasks). split; [done|].
    rewrite baileys_handler_spawns by done.
    apply eqb_false in P3. by rewrite P3.
Qed.

End TasksRoundTrip.

Lemma tasks_round_trip_witness :
  spawns (exec Sample.calm
            (WWeb.on_message Sample.rt (Sample.wweb_from "491234567890" " /Tasks "))
            ∅ 0 0)
  = spawns (exec Sample.calm
              (WWeb.on_message Sample.rt
                 (WWeb.Message false false TASKS_PROMPT (JS.lit "491234567890@c.us")))
              ∅ 0 0)
  /\ Baileys.on_message Sample.rt (Sample.baileys_from "491234567890" "/TASKS")
     = Baileys.on_message Sample.rt
         (Baileys.Message (Some (Baileys.Content None (Some TASKS_PROMPT))) false
            (JS.lit "491234567890@s.whatsapp.net"))
  /\ spawns (exec Sample.calm
               (Baileys.handleMessage Sample.rt (JS.lit "491234567890@s.whatsapp.net")
                  (JS.lit "/tasks"))
               ∅ 0 0)
     = [SpawnCall (JS.lit "claude")
                [JS.lit "--print"; JS.lit "--max-turns"; JS.lit "3";
                 JS.lit "List all tasks from data/tasks.json with their status. Be concise."]
                (WORK_DIR Sample.rt) [(JS.lit "NO_COLOR", JS.lit "1")] None].
Proof.
  pose proof (tasks_round_trip Sample.rt Sample.calm ∅ 0 0 (fun s _ => eq_refl))
    as (HW & HB & HH).
  split; [|split].
  - apply (HW (JS.lit "491234567890@c.us") (JS.lit " /Tasks ")); try reflexivity.
    + apply includes_true. vm_compute. reflexivity.
    + vm_compute. congruence.
  - apply (HB false (JS.lit "491234567890@s.whatsapp.net")); reflexivity.
  - apply (HH (JS.lit "491234567890@s.whatsapp.net") (JS.lit "/tasks")); try reflexivity.
    vm_compute. congruence.
Defined.

(** C8 at the input where the whatsapp-web.js bridge departs from it:
    the sender is authorized and not busy, and the transport rejects
    every reply.  [/tasks] calls [spawn] for [claude --print
    --max-turns 3] with the fixed prompt, in the working directory.  The
    fixed prompt sent as a text calls nothing: its handler first sends
    the acknowledgement, which fails, and goes to its [catch] block.
    The Baileys bridge treats both messages alike: [/tasks] is
    rewritten and takes the same path, so neither calls [spawn]. *)
Theorem wweb_tasks_skips_acknowledgement :
  let from := JS.lit "491234567890@c.us" in
  let jid := JS.lit "491234567890@s.whatsapp.net" in
  let prompt :=
    JS.lit "List all tasks from data/tasks.json with their status. Be concise." in
  let tasks :=
    exec Sample.hostile
      (WWeb.on_message Sample.rt (WWeb.Message false false (JS.lit "/tasks") from))
      ∅ 0 0 in
  let text :=
    exec Sample.hostile
      (WWeb.on_message Sample.rt (WWeb.Message false false prompt from)) ∅ 0 0 in
  WWeb.AUTHORIZED_NUMBERS Sample.rt = [JS.lit "491234567890"]
  /\ spawns tasks
     = [SpawnCall (JS.lit "claude")
          [JS.lit "--print"; JS.lit "--max-turns"; JS.lit "3"; prompt]
          (JS.lit "/srv/mission-control") [(JS.lit "NO_COLOR", JS.lit "1")]
          (Some 300000%N)]
  /\ spawns text = []
  /\ replies text
     = [[55357; 56580]%N ++ JS.lit " Processing...";
        [10060]%N ++ JS.lit " Error: connection closed"]
  /\ spawns (exec Sample.hostile
               (Baileys.on_upsert Sample.rt
                  [Baileys.Message (Some (Baileys.Content (Some (JS.lit "/tasks")) None))
                     false jid]) ∅ 0 0) = []
  /\ spawns (exec Sample.hostile
               (Baileys.on_upsert Sample.rt
                  [Baileys.Message (Some (Baileys.Content (Some prompt) None))
                     false jid]) ∅ 0 0) = [].
Proof. vm_compute. done. Qed.

(** ** The authorization list *)

Lemma trimStart_white_prefix ws s :
  forallb JS.is_white ws = true -> JS.trimStart (ws ++ s) = JS.trimStart s.
Proof.
  induction ws as [|c ws IH]; simpl; [done|].
  intros H. apply andb_true_iff in H as [Hc Hws]. rewrite Hc. by apply IH.
Qed.

Lemma trimStart_snoc a c :
  JS.is_white c = false -> JS.trimStart (a ++ [c]) = JS.trimStart a ++ [c].
Proof.
  intros Hc. induction a as [|x a IH]; simpl.
  - by rewrite Hc.
  - by destruct (JS.is_white x).
Qed.

Lemma trimEnd_cons c s :
  JS.is_white c = false -> JS.trimEnd (c :: s) = c :: JS.trimEnd s.
Proof.
  intros Hc. unfold JS.trimEnd.
  by rewrite reverse_cons, trimStart_snoc, reverse_snoc.
Qed.

(** An entry with a plus before its first unit is normalized, by the
    Baileys bridge, to what the entry without the plus is normalized to. *)
Lemma baileys_entry_plus ws id :
  forallb JS.is_white ws = true ->
  match id with c :: _ => JS.is_white c = false /\ c ≠ 43%N | [] => True end ->
  JS.strip_leading_plus (JS.trim (ws ++ 43%N :: id))
  = JS.strip_leading_plus (JS.trim (ws ++ id)).
Proof.
  intros Hws Hid. unfold JS.trim. rewrite !trimStart_white_prefix by done.
  cbn [JS.trimStart]. change (JS.is_white 43) with false. cbv iota.
  rewrite trimEnd_cons by done. cbn [JS.strip_leading_plus].
  change (43 =? 43)%N with true. cbv iota.
  destruct id as [|c id']; [done|]. destruct Hid as [Hc Hplus].
  cbn [JS.trimStart]. rewrite Hc, trimEnd_cons by done.
  cbn [JS.strip_leading_plus].
  apply N.eqb_neq in Hplus. by rewrite Hplus.
Qed.

(** C9, as the code has it.  With the variable unset or empty the
    list is empty.  Otherwise both bridges split the string on commas
    and trim each entry of surrounding whitespace.  The Baileys bridge
    then removes one leading plus, so that an entry written with a plus
    stands for the same identity as the entry written without it (for
    an identity that does not itself begin with whitespace or a plus).
    The whatsapp-web.js bridge removes nothing else: its entries keep a
    leading plus. *)
Theorem allow_list_parsing (rt : runtime) :
  (WA_AUTHORIZED_NUMBERS rt = None \/ WA_AUTHORIZED_NUMBERS rt = Some [] ->
     WWeb.AUTHORIZED_NUMBERS rt = [] /\ Baileys.AUTHORIZED_NUMBERS rt = [])
  /\ (forall cfg : jsstring,
        WA_AUTHORIZED_NUMBERS rt = Some cfg -> cfg ≠ [] ->
        WWeb.AUTHORIZED_NUMBERS rt = map JS.trim (JS.split 44%N cfg)
        /\ Baileys.AUTHORIZED_NUMBERS rt
           = map (fun n => JS.strip_leading_plus (JS.trim n)) (JS.split 44%N cfg))
  /\ (forall ws id : jsstring,
        forallb JS.is_white ws = true ->
        match id with c :: _ => JS.is_white c = false /\ c ≠ 43%N | [] => True end ->
        JS.strip_leading_plus (JS.trim (ws ++ 43%N :: id))
        = JS.strip_leading_plus (JS.trim (ws ++ id))).
Proof.
  unfold WWeb.AUTHORIZED_NUMBERS, Baileys.AUTHORIZED_NUMBERS.
  split; [|split].
  - by intros [->| ->].
  - intros cfg -> Hne. by destruct cfg.
  - apply baileys_entry_plus.
Qed.

Lemma allow_list_parsing_witness :
  (WWeb.AUTHORIZED_NUMBERS Sample.rt_unset = []
   /\ Baileys.AUTHORIZED_NUMBERS Sample.rt_unset = [])
  /\ (WWeb.AUTHORIZED_NUMBERS Sample.rt_plus = [JS.lit "+491234567890"]
      /\ Baileys.AUTHORIZED_NUMBERS Sample.rt_plus = [JS.lit "491234567890"])
  /\ JS.strip_leading_plus (JS.trim (JS.lit " " ++ 43%N :: JS.lit "491234567890"))
     = JS.strip_leading_plus (JS.trim (JS.lit " " ++ JS.lit "491234567890")).
Proof.
  split; [|split].
  - apply (allow_list_parsing Sample.rt_unset). by left.
  - apply (proj1 (proj2 (allow_list_parsing Sample.rt_plus)) (JS.lit "+491234567890"));
      [reflexivity | discriminate].
  - apply (proj2 (proj2 (allow_list_parsing Sample.rt_plus))
             (JS.lit " ") (JS.lit "491234567890")); [reflexivity|].
    split; [reflexivity | discriminate].
Defined.

(** C9 in the whatsapp-web.js bridge: the number configured with a
    leading plus does not authorize the sender that the number without
    it authorizes; a message from that sender is ignored. *)
Lemma allow_list_parsing_counterexample :
  (Sample.owner ∈ WWeb.AUTHORIZED_NUMBERS Sample.rt)
  /\ (Sample.owner ∉ WWeb.AUTHORIZED_NUMBERS Sample.rt_plus)
  /\ JS.replace (JS.lit "@c.us") [] (WWeb.from (Sample.wweb_from "491234567890" "hello"))
     = Sample.owner
  /\ exec Sample.calm
       (WWeb.on_message Sample.rt_plus (Sample.wweb_from "491234567890" "hello"))
       ∅ 0 0 = Run ∅ [] (inl tt).
Proof.
  split; [apply includes_true; vm_compute; reflexivity|].
  split; [apply includes_false; vm_compute; reflexivity|].
  split; vm_compute; reflexivity.
Qed.

(** ** Busy flags under interleaving *)

Lemma unlocked_weaken known p : unlocked None p -> unlocked known p.
Proof. destruct p; simpl; try done. by intros (_ & ? & _). Qed.

Lemma holding_functional s s' p : holding s p -> holding s' p -> s = s'.
Proof.
  induction p as [a|m|x k IH|x b k IH|to t k IH|c k IH|ms k IH]; simpl; try done.
  - intros (<- & _) (<- & _). done.
  - intros H H'. exact (IH None (H None) (H' None)).
  - intros H H'. exact (IH (inr []) (H (inr [])) (H' (inr []))).
Qed.

Lemma unlocked_not_holding known s p : unlocked known p -> ~ holding s p.
Proof.
  revert known.
  induction p as [a|m|x k IH|x b k IH|to t k IH|c k IH|ms k IH]; simpl;
    intros known Hu Hh; try done.
  - destruct Hu as (-> & _). by destruct Hh as (_ & ? & _).
  - exact (IH None None (Hu None) (Hh None)).
  - exact (IH None Hu Hh).
Qed.

Lemma io_only_bind {A B} (p : prog A) (f : A -> prog B) :
  io_only p -> (forall a, io_only (f a)) -> io_only (bind p f).
Proof.
  intros Hp Hf.
  induction p as [a|m|s k IH|s b k IH|to t k IH|c k IH|ms k IH]; simpl in *;
    try done; auto.
Qed.

Lemma io_only_try_catch {A} (p : prog A) (h : jsstring -> prog A) :
  io_only p -> (forall m, io_only (h m)) -> io_only (try_catch p h).
Proof.
  intros Hp Hh.
  induction p as [a|m|s k IH|s b k IH|to t k IH|c k IH|ms k IH]; simpl in *;
    try done; auto.
Qed.

Lemma io_only_send to text : io_only (send to text).
Proof. intros [m|]; exact I. Qed.

Lemma io_only_send_chunks to lines chunk part :
  io_only (WWeb.send_chunks to lines chunk part).
Proof.
  revert chunk part.
  induction lines as [|line rest IH]; intros chunk part; cbn [WWeb.send_chunks].
  - destruct (JS.truthy (JS.trim chunk)); [apply io_only_send | exact I].
  - destruct (MAX_RESPONSE_LENGTH <? length chunk + length line + 1); [|apply IH].
    rewrite !mbind_unfold.
    apply io_only_bind; [apply io_only_send|]. intros _.
    apply io_only_bind; [exact I|]. intros _. apply IH.
Qed.

Lemma io_only_wweb_invoke_ack m prompt dir :
  io_only (try_catch
             (bind (WWeb.reply m PROCESSING) (fun _ =>
                bind (WWeb.runClaude prompt dir)
                  (fun result => WWeb.sendLongMessage m result)))
             (fun err => WWeb.reply m (error_reply err))).
Proof.
  apply io_only_try_catch; [|intros; apply io_only_send].
  apply io_only_bind; [apply io_only_send|]. intros _.
  apply io_only_bind.
  - intros r. by destruct (WWeb.outcome_of r).
  - intros result. unfold WWeb.sendLongMessage.
    destruct (length result <=? MAX_RESPONSE_LENGTH);
      [apply io_only_send | apply io_only_send_chunks].
Qed.

Lemma io_only_baileys_invoke_ack jid prompt dir :
  io_only (try_catch
             (bind (Baileys.sendMessage jid PROCESSING) (fun _ =>
                bind (Baileys.runClaude prompt dir)
                  (fun result => Baileys.sendLongMessage jid result)))
             (fun err => Baileys.sendMessage jid (error_reply err))).
Proof.
  apply io_only_try_catch; [|intros; apply io_only_send].
  apply io_only_bind; [apply io_only_send|]. intros _.
  apply io_only_bind.
  - intros r. by destruct (Baileys.outcome_of r).
  - intros result. unfold Baileys.sendLongMessage.
    destruct (length result <=? MAX_RESPONSE_LENGTH); [apply io_only_send|].
    rewrite (baileys_send_chunks_eq jid). apply io_only_send_chunks.
Qed.

(** A body without session accesses, wrapped in the [finally] that
    resets the flag, holds the flag until then. *)
Lemma holding_try_finally s (q : prog unit) :
  io_only q -> holding s (try_finally q (set_busy s false)).
Proof.
  induction q as [a|m|x k IH|x b k IH|to t k IH|c k IH|ms k IH]; simpl;
    try done; auto.
Qed.

Lemma unlocked_holding_bind (p : prog unit) (f : unit -> prog unit) :
  (forall a, unlocked None (f a)) ->
  (forall known, unlocked known p -> unlocked known (bind p f))
  /\ (forall s, holding s p -> holding s (bind p f)).
Proof.
  intros Hf.
  induction p as [a|m|x k IH|x b k IH|to t k IH|c k IH|ms k IH]; simpl.
  - split; [|done]. intros known _. apply unlocked_weaken, Hf.
  - done.
  - split; [|done]. intros known H o. by apply IH.
  - split.
    + intros known (-> & -> & H). repeat split. by apply IH.
    + intros s (-> & -> & H). repeat split. by apply IH.
  - split; intros ? H r; by apply IH.
  - split; [done|]. intros s H evs. by apply IH.
  - split; intros ? H; by apply IH.
Qed.

Lemma unlocked_bind known (p : prog unit) (f : unit -> prog unit) :
  unlocked known p -> (forall a, unlocked None (f a)) -> unlocked known (bind p f).
Proof. intros Hp Hf. by apply unlocked_holding_bind. Qed.

Lemma unlocked_send known to text : unlocked known (send to text).
Proof. intros [m|]; exact I. Qed.

(** The Baileys handlers take the flag only after reading it as not
    set, and start the assistant only while holding it. *)
Lemma baileys_handleMessage_unlocked rt jid text :
  unlocked None (Baileys.handleMessage rt jid text).
Proof.
  unfold Baileys.handleMessage.
  destruct (JS.eqb (toLowerCase rt text) (JS.lit "/help")); [apply unlocked_send|].
  destruct (JS.eqb (toLowerCase rt text) (JS.lit "/status")).
  { intros o. apply unlocked_send. }
  rewrite mbind_unfold. cbn [session_busy bind]. intros o.
  destruct o as [[|]|]; cbn [default bool_decide decide_rel].
  - apply unlocked_send.
  - rewrite !mbind_unfold. cbn [set_busy bind unlocked].
    split; [done|]. split; [done|].
    apply holding_try_finally, io_only_baileys_invoke_ack.
  - rewrite !mbind_unfold. cbn [set_busy bind unlocked].
    split; [done|]. split; [done|].
    apply holding_try_finally, io_only_baileys_invoke_ack.
Qed.

Lemma baileys_on_message_unlocked rt msg : unlocked None (Baileys.on_message rt msg).
Proof.
  unfold Baileys.on_message.
  repeat match goal with
         | |- unlocked _ (match ?c with _ => _ end) => destruct c
         end; try exact I.
  apply baileys_handleMessage_unlocked.
Qed.

Lemma baileys_on_upsert_unlocked rt messages :
  unlocked None (Baileys.on_upsert rt messages).
Proof.
  induction messages as [|msg rest IH]; [exact I|].
  cbn [Baileys.on_upsert]. rewrite mbind_unfold.
  apply unlocked_bind; [apply baileys_on_message_unlocked | by intros _].
Qed.

(** So does the whatsapp-web.js handler, except on [/tasks]. *)
Lemma wweb_on_message_unlocked rt m :
  toLowerCase rt (JS.trim (WWeb.body m)) ≠ JS.lit "/tasks" ->
  unlocked None (WWeb.on_message rt m).
Proof.
  intros Htasks. apply eqb_false in Htasks. unfold WWeb.on_message.
  destruct (WWeb.isGroupMsg m || WWeb.isStatus m || negb (JS.truthy (WWeb.body m)));
    [exact I|].
  destruct ((length (WWeb.AUTHORIZED_NUMBERS rt) =? 0)
            || negb (JS.includes (WWeb.AUTHORIZED_NUMBERS rt)
                       (JS.replace (JS.lit "@c.us") [] (WWeb.from m)))); [exact I|].
  destruct (JS.eqb (toLowerCase rt (JS.trim (WWeb.body m))) (JS.lit "/help"));
    [apply unlocked_send|].
  destruct (JS.eqb (toLowerCase rt (JS.trim (WWeb.body m))) (JS.lit "/status")).
  { intros o. apply unlocked_send. }
  rewrite Htasks, mbind_unfold. cbn [session_busy bind]. intros o.
  destruct o as [[|]|]; cbn [default bool_decide decide_rel].
  - apply unlocked_send.
  - rewrite !mbind_unfold. cbn [set_busy bind unlocked].
    split; [done|]. split; [done|].
    apply holding_try_finally, io_only_wweb_invoke_ack.
  - rewrite !mbind_unfold. cbn [set_busy bind unlocked].
    split; [done|]. split; [done|].
    apply holding_try_finally, io_only_wweb_invoke_ack.
Qed.

(** What the synchronous stretch of a handler does to the flags. *)
Lemma advance_flags (p : prog unit) :
  (forall known st,
     unlocked known p ->
     (forall s, known = Some s -> st !! s ≠ Some true) ->
     (forall s, st !! s = Some true -> (advance p st).1 !! s = Some true)
     /\ (unlocked None (advance p st).2
         \/ exists s, holding s (advance p st).2
                      /\ st !! s ≠ Some true
                      /\ (advance p st).1 !! s = Some true))
  /\ (forall s st,
        holding s p ->
        (holding s (advance p st).2 /\ (advance p st).1 = st)
        \/ ((forall s', s' ≠ s -> st !! s' = Some true ->
               (advance p st).1 !! s' = Some true)
            /\ (unlocked None (advance p st).2
                \/ exists s2, holding s2 (advance p st).2
                              /\ (s2 = s \/ st !! s2 ≠ Some true)
                              /\ (advance p st).1 !! s2 = Some true))).
Proof.
  induction p as [a|m|x k IH|x b k IH|to t k IH|c k IH|ms k IH]; cbn [advance].
  - split; [|done]. intros known st _ _. split; [done | by left].
  - split; [|done]. intros known st _ _. split; [done | by left].
  - split; [|done]. intros known st Hu Hk.
    apply (proj1 (IH (st !! x)) _ st (Hu (st !! x))).
    intros s Hs. case_bool_decide; [done|]. by injection Hs as <-.
  - split.
    + intros known st (-> & -> & Hh) Hk. pose proof (Hk x eq_refl) as Hx.
      destruct (proj2 IH x (<[x:=true]> st) Hh) as [[Hq Hst]|[Hkeep Hq]].
      * rewrite Hst. split.
        -- intros s Hs. rewrite lookup_insert. by case_decide.
        -- right. exists x. by rewrite lookup_insert_eq.
      * split.
        -- intros s Hs. apply Hkeep; [congruence|].
           rewrite lookup_insert_ne; [done | congruence].
        -- destruct Hq as [Hq|(s2 & Hs2 & Hor & Hset)]; [by left|].
           right. exists s2. split; [done|]. split; [|done].
           destruct Hor as [->|Hne]; [done|].
           intros E. apply Hne. rewrite lookup_insert. by case_decide.
    + intros s st (-> & -> & Hu). right.
      destruct (proj1 IH None (<[s:=false]> st) Hu) as [Hkeep Hq]; [done|].
      split.
      * intros s' Hne Hs'. apply Hkeep. by rewrite lookup_insert_ne.
      * destruct Hq as [Hq|(s2 & Hs2 & Hne & Hset)]; [by left|].
        right. exists s2. split; [done|]. split; [|done].
        destruct (decide (s2 = s)) as [->|Hs]; [by left|].
        right. by rewrite lookup_insert_ne in Hne.
  - split.
    + intros known st Hu _. split; [done | by left].
    + intros s st Hh. by left.
  - split.
    + intros known st [] _.
    + intros s st Hh. by left.
  - split.
    + intros known st Hu _. split; [done | by left].
    + intros s st Hh. by left.
Qed.

(** *** The pool of suspended handlers *)

Lemma exclusive_snoc pool q :
  exclusive pool ->
  (forall s, holding s q -> Forall (fun p => ~ holding s p) pool) ->
  exclusive (pool ++ [q]).
Proof.
  induction 1 as [|p pool Hp Hpool IH]; intros Hq; simpl.
  - constructor; [|constructor]. intros s _. constructor.
  - constructor.
    + intros s Hs. apply Forall_app. split; [by apply Hp|].
      constructor; [|constructor]. intros Hqs.
      specialize (Hq s Hqs). by inversion Hq.
    + apply IH. intros s Hs. specialize (Hq s Hs). by inversion Hq.
Qed.

Lemma exclusive_delete pool n : exclusive pool -> exclusive (delete n pool).
Proof.
  intros H. revert n. induction H as [|p pool Hp Hpool IH]; intros n.
  - destruct n; constructor.
  - destruct n as [|n]; simpl; [done|].
    constructor; [|apply IH]. intros s Hs. apply Forall_delete. by apply Hp.
Qed.

Lemma exclusive_delete_holder pool n p s :
  exclusive pool -> pool !! n = Some p -> holding s p ->
  Forall (fun q => ~ holding s q) (delete n pool).
Proof.
  intros H. revert n. induction H as [|p0 pool Hp Hpool IH]; intros [|n] Hn Hs;
    simpl in *; try done.
  - injection Hn as ->. by apply Hp.
  - constructor; [|by apply IH]. intros Hs0.
    specialize (Hp s Hs0). by apply (Forall_lookup_1 _ _ _ _ Hp Hn).
Qed.

Lemma exclusive_lookup pool n1 n2 p1 p2 s :
  exclusive pool -> pool !! n1 = Some p1 -> pool !! n2 = Some p2 ->
  holding s p1 -> holding s p2 -> n1 = n2.
Proof.
  intros H. revert n1 n2.
  induction H as [|p0 pool Hp Hpool IH]; intros [|n1] [|n2] H1 H2 Hs1 Hs2;
    simpl in *; try done.
  - injection H1 as ->. specialize (Hp s Hs1).
    by destruct (Forall_lookup_1 _ _ _ _ Hp H2).
  - injection H2 as ->. specialize (Hp s Hs2).
    by destruct (Forall_lookup_1 _ _ _ _ Hp H1).
  - f_equal. by apply (IH n1 n2).
Qed.

Lemma run_to_await_unfold p pool l :
  run_to_await p pool l =
  Loop (advance p (store l)).1 (park (advance p (store l)).2 pool)
    (log l ++ announce (advance p (store l)).2).
Proof. unfold run_to_await. by destruct (advance p (store l)). Qed.

Lemma holding_not_finished s p : holding s p -> finished p = false.
Proof. by destruct p. Qed.

(** A handler that holds no flag is started or resumed. *)
Lemma orderly_start pool st known h l0 :
  Forall (fun p => finished p = false
                   /\ (unlocked None p \/ exists s, holding s p)) pool ->
  exclusive pool ->
  Forall (fun p => forall s, holding s p -> st !! s = Some true) pool ->
  store l0 = st ->
  unlocked known h ->
  (forall s, known = Some s -> st !! s ≠ Some true) ->
  orderly (run_to_await h pool l0).
Proof.
  intros pool_kinds pool_exclusive pool_flags Hst Hu Hk.
  rewrite run_to_await_unfold, Hst.
  destruct (proj1 (advance_flags h) known st Hu Hk) as [Hkeep Hq].
  set (st' := (advance h st).1) in *. set (q := (advance h st).2) in *.
  assert (Hflags' : Forall (fun p => forall s, holding s p -> st' !! s = Some true) pool).
  { eapply Forall_impl; [exact pool_flags|]. intros p Hp s Hs. apply Hkeep. by apply Hp. }
  unfold orderly, park. cbn [waiting store].
  destruct (finished q) eqn:Efin; [done|].
  destruct Hq as [Hq|(s & Hs & Hidle & Hset)].
  - split; [|split].
    + apply Forall_app. split; [done|]. constructor; [|constructor]. split; [done | by left].
    + apply exclusive_snoc; [done|]. intros s Hs.
      by destruct (unlocked_not_holding _ s _ Hq).
    + apply Forall_app. split; [done|]. constructor; [|constructor]. intros s Hs.
      by destruct (unlocked_not_holding _ s _ Hq).
  - split; [|split].
    + apply Forall_app. split; [done|]. constructor; [|constructor].
      split; [done|]. right. by exists s.
    + apply exclusive_snoc; [done|]. intros s2 Hs2.
      rewrite <- (holding_functional _ _ _ Hs Hs2).
      eapply Forall_impl; [exact pool_flags|]. intros p Hp Hps.
      apply Hidle. by apply Hp.
    + apply Forall_app. split; [done|]. constructor; [|constructor]. intros s2 Hs2.
      by rewrite <- (holding_functional _ _ _ Hs Hs2).
Qed.

(** A handler that holds a flag and is still waiting is put back. *)
Lemma orderly_park_holder pool l0 s q :
  Forall (fun p => finished p = false
                   /\ (unlocked None p \/ exists s, holding s p)) pool ->
  exclusive pool ->
  Forall (fun p => forall s, holding s p -> store l0 !! s = Some true) pool ->
  holding s q ->
  advance q (store l0) = (store l0, q) ->
  store l0 !! s = Some true ->
  Forall (fun p => ~ holding s p) pool ->
  orderly (run_to_await q pool l0).
Proof.
  intros pool_kinds pool_exclusive pool_flags Hq Hadv Hs Hothers.
  rewrite run_to_await_unfold, Hadv. cbn [fst snd].
  unfold orderly, park. cbn [waiting store].
  rewrite (holding_not_finished _ _ Hq).
  split; [|split].
  - apply Forall_app. split; [done|]. constructor; [|constructor].
    split; [by eapply holding_not_finished|]. right. by exists s.
  - apply exclusive_snoc; [done|]. intros s2 Hs2.
    by rewrite <- (holding_functional _ _ _ Hq Hs2).
  - apply Forall_app. split; [done|]. constructor; [|constructor]. intros s2 Hs2.
    by rewrite <- (holding_functional _ _ _ Hq Hs2).
Qed.

(** The handler that holds the flag of [s] is resumed. *)
Lemma orderly_resume_holder pool l0 s q :
  Forall (fun p => finished p = false
                   /\ (unlocked None p \/ exists s, holding s p)) pool ->
  exclusive pool ->
  Forall (fun p => forall s, holding s p -> store l0 !! s = Some true) pool ->
  holding s q ->
  store l0 !! s = Some true ->
  Forall (fun p => ~ holding s p) pool ->
  orderly (run_to_await q pool l0).
Proof.
  intros pool_kinds pool_exclusive pool_flags Hq Hs Hothers.
  destruct q as [a|m|x k|x b k|to t k|c k|ms k]; try done;
    try (by eapply orderly_park_holder).
  destruct Hq as (-> & -> & Hu).
  change (run_to_await (SetSession s false k) pool l0)
    with (run_to_await k pool (Loop (<[s:=false]> (store l0)) (waiting l0) (log l0))).
  eapply (orderly_start pool (<[s:=false]> (store l0)) None); try done.
  apply Forall_forall. intros p Hp s' Hs'.
  assert (s' ≠ s).
  { intros ->. by apply (proj1 (Forall_forall _ _) Hothers p Hp). }
  rewrite lookup_insert_ne by done.
  by apply (proj1 (Forall_forall _ _) pool_flags p Hp).
Qed.

Lemma resume_kind p sg q :
  resume p sg = Some q ->
  (unlocked None p -> unlocked None q) /\ (forall s, holding s p -> holding s q).
Proof.
  destruct p as [a|m|x k|x b k|to t k|c k|ms k], sg as [h|n r|n evs|n];
    simpl; intros [= <-]; split; auto; done.
Qed.

Lemma orderly_resume l n p sg q :
  orderly l -> waiting l !! n = Some p -> resume p sg = Some q ->
  orderly (run_to_await q (delete n (waiting l)) l).
Proof.
  intros (Hkinds & Hexcl & Hflags) Hn Hres.
  destruct (resume_kind _ _ _ Hres) as [Hu Hh].
  destruct (Forall_lookup_1 _ _ _ _ Hkinds Hn) as [_ [Hp|[s Hp]]].
  - eapply (orderly_start _ (store l) None); try done.
    + by apply Forall_delete.
    + by apply exclusive_delete.
    + by apply Forall_delete.
    + by apply Hu.
  - eapply (orderly_resume_holder _ _ s).
    + by apply Forall_delete.
    + by apply exclusive_delete.
    + by apply Forall_delete.
    + by apply Hh.
    + by apply (Forall_lookup_1 _ _ _ _ Hflags Hn).
    + by eapply exclusive_delete_holder.
Qed.

(** One turn of the loop keeps the flags in order, when the handler
    of an arriving event holds no flag. *)
Lemma orderly_turn l sg :
  orderly l ->
  match sg with Arrive h => unlocked None h | _ => True end ->
  orderly (turn l sg).
Proof.
  intros Hl Hsg. destruct Hl as (Hkinds & Hexcl & Hflags).
  destruct sg as [h|n r|n evs|n]; cbn [turn target].
  - by eapply (orderly_start _ (store l) None).
  - destruct (waiting l !! n) as [p|] eqn:Hn; [|done].
    destruct (resume p (ReplySettled n r)) as [q|] eqn:Hres; [|done].
    by eapply orderly_resume.
  - destruct (waiting l !! n) as [p|] eqn:Hn; [|done].
    destruct (resume p (ChildSettled n evs)) as [q|] eqn:Hres; [|done].
    by eapply orderly_resume.
  - destruct (waiting l !! n) as [p|] eqn:Hn; [|done].
    destruct (resume p (TimerElapsed n)) as [q|] eqn:Hres; [|done].
    by eapply orderly_resume.
Qed.

Lemma orderly_turns l sgs :
  orderly l ->
  Forall (fun sg => match sg with Arrive h => unlocked None h | _ => True end) sgs ->
  orderly (turns l sgs).
Proof.
  intros Hl Hsgs. revert l Hl. unfold turns.
  induction Hsgs as [|sg sgs Hsg _ IH]; intros l Hl; simpl; [done|].
  apply IH. by apply orderly_turn.
Qed.

Lemma booted_orderly : orderly booted.
Proof. repeat split; constructor. Qed.

(** In an orderly loop every handler that waits for the assistant
    holds the flag of a sender, that flag is set, and no other
    suspended handler holds it: at most one invocation per sender. *)
Lemma orderly_one_invocation l :
  orderly l ->
  (forall p, p ∈ waiting l -> invoking p = true ->
     exists s, holding s p /\ store l !! s = Some true)
  /\ (forall n1 n2 p1 p2 s,
        waiting l !! n1 = Some p1 -> waiting l !! n2 = Some p2 ->
        holding s p1 -> holding s p2 -> n1 = n2).
Proof.
  intros (Hkinds & Hexcl & Hflags). split.
  - intros p Hp Hinv.
    destruct (proj1 (Forall_forall _ _) Hkinds p Hp) as [_ [Hu|[s Hs]]].
    + by destruct p.
    + exists s. split; [done|]. by apply (proj1 (Forall_forall _ _) Hflags p Hp).
  - intros n1 n2 p1 p2 s. by apply exclusive_lookup.
Qed.

(** The Baileys bridge serializes the invocations of each sender,
    however the loop interleaves its handlers. *)
Lemma baileys_serializes rt sgs :
  Forall (baileys_signal rt) sgs -> orderly (turns booted sgs).
Proof.
  intros Hsgs. apply orderly_turns; [apply booted_orderly|].
  eapply Forall_impl; [exact Hsgs|]. intros [h|n r|n evs|n]; simpl; try done.
  intros [messages ->]. apply baileys_on_upsert_unlocked.
Qed.

(** So does the whatsapp-web.js bridge as long as no [/tasks] arrives. *)
Lemma wweb_serializes_without_tasks rt sgs :
  Forall (fun sg =>
    match sg with
    | Arrive h => exists m, h = WWeb.on_message rt m
                            /\ toLowerCase rt (JS.trim (WWeb.body m)) ≠ JS.lit "/tasks"
    | _ => True
    end) sgs ->
  orderly (turns booted sgs).
Proof.
  intros Hsgs. apply orderly_turns; [apply booted_orderly|].
  eapply Forall_impl; [exact Hsgs|]. intros [h|n r|n evs|n]; simpl; try done.
  intros (m & -> & Hm). by apply wweb_on_message_unlocked.
Qed.

(** X15. At most one invocation per sender in the Baileys bridge, at
    any time: however arrivals and completions interleave, every handler
    that waits for the assistant holds the set flag of a sender, and no
    two suspended handlers hold the flag of the same sender. *)
Lemma baileys_one_invocation_per_sender rt sgs :
  Forall (baileys_signal rt) sgs ->
  (forall p, p ∈ waiting (turns booted sgs) -> invoking p = true ->
     exists s, holding s p /\ store (turns booted sgs) !! s = Some true)
  /\ (forall n1 n2 p1 p2 s,
        waiting (turns booted sgs) !! n1 = Some p1 ->
        waiting (turns booted sgs) !! n2 = Some p2 ->
        holding s p1 -> holding s p2 -> n1 = n2).
Proof. intros Hsgs. by apply orderly_one_invocation, (baileys_serializes rt). Qed.

(** * Further properties of the bridges *)

(** ** Exceptions stay inside the handlers *)

Lemma contained_result {A} w (p : prog A) st i j :
  delivers w -> contained p -> exists a, result (exec w p st i j) = inl a.
Proof.
  intros Hw. revert st i j.
  induction p as [a|m|s k IH|s b k IH|to t k IH|c k IH|ms k IH];
    intros st i j Hp; simpl in *; try done; eauto.
  rewrite Hw. by apply IH.
Qed.

Lemma contained_bind {A B} (p : prog A) (f : A -> prog B) :
  contained p -> (forall a, contained (f a)) -> contained (bind p f).
Proof.
  intros Hp Hf.
  induction p as [a|m|s k IH|s b k IH|to t k IH|c k IH|ms k IH]; simpl in *;
    try done; auto.
Qed.

(** Whatever the body does, a [catch] block that does not throw itself
    lets nothing through. *)
Lemma contained_try_catch {A} (p : prog A) (h : jsstring -> prog A) :
  (forall m, contained (h m)) -> contained (try_catch p h).
Proof.
  intros Hh.
  induction p as [a|m|s k IH|s b k IH|to t k IH|c k IH|ms k IH]; simpl in *;
    try done; auto.
Qed.

Lemma contained_try_finally {A} (p : prog A) (f : prog unit) :
  contained p -> contained f -> contained (try_finally p f).
Proof.
  intros Hp Hf.
  induction p as [a|m|s k IH|s b k IH|to t k IH|c k IH|ms k IH]; simpl in *;
    try done; auto. by apply contained_bind.
Qed.

Lemma contained_send to text : contained (send to text).
Proof. exact I. Qed.

Lemma contained_send_chunks to lines chunk part :
  contained (WWeb.send_chunks to lines chunk part).
Proof.
  revert chunk part.
  induction lines as [|line rest IH]; intros chunk part; cbn [WWeb.send_chunks].
  - by destruct (JS.truthy (JS.trim chunk)).
  - destruct (MAX_RESPONSE_LENGTH <? length chunk + length line + 1); [|apply IH].
    rewrite !mbind_unfold.
    apply contained_bind; [exact I|]. intros _.
    apply contained_bind; [exact I|]. intros _. apply IH.
Qed.

Lemma contained_sendLongMessage m text : contained (WWeb.sendLongMessage m text).
Proof.
  unfold WWeb.sendLongMessage.
  destruct (length text <=? MAX_RESPONSE_LENGTH);
    [exact I | apply contained_send_chunks].
Qed.

Lemma contained_wweb_on_message rt m : contained (WWeb.on_message rt m).
Proof.
  unfold WWeb.on_message.
  repeat match goal with
         | |- contained (if ?c then _ else _) => destruct c
         end; try exact I.
  - intros o. exact I.
  - apply contained_try_catch. intros err. exact I.
  - rewrite mbind_unfold. cbn [session_busy bind contained]. intros o.
    destruct (default false o); [exact I|].
    rewrite !mbind_unfold. cbn [set_busy bind contained].
    apply contained_try_finally; [|exact I].
    apply contained_try_catch. intros err. exact I.
Qed.

Lemma contained_baileys_handleMessage rt jid text :
  contained (Baileys.handleMessage rt jid text).
Proof.
  unfold Baileys.handleMessage.
  destruct (JS.eqb (toLowerCase rt text) (JS.lit "/help")); [exact I|].
  destruct (JS.eqb (toLowerCase rt text) (JS.lit "/status")).
  { intros o. exact I. }
  rewrite mbind_unfold. cbn [session_busy bind contained]. intros o.
  destruct (default false o); [exact I|].
  rewrite !mbind_unfold. cbn [set_busy bind contained].
  apply contained_try_finally; [|exact I].
  apply contained_try_catch. intros err. exact I.
Qed.

Lemma contained_baileys_on_upsert rt messages :
  contained (Baileys.on_upsert rt messages).
Proof.
  induction messages as [|msg rest IH]; [exact I|].
  cbn [Baileys.on_upsert]. rewrite mbind_unfold.
  apply contained_bind; [|by intros _].
  unfold Baileys.on_message.
  repeat match goal with
         | |- contained (match ?c with _ => _ end) => destruct c
         end; try exact I.
  apply contained_baileys_handleMessage.
Qed.

(** X1. While the transport delivers, no handler of either bridge ends
    with an exception, whatever the message, the session map and the
    behaviour of the child processes: every error of the invocation
    path is caught and turned into a reply. *)
Theorem handlers_never_throw (rt : runtime) (w : world)
    (st : gmap jsstring bool) (i j : nat) :
  delivers w ->
  (forall m : WWeb.message,
     result (exec w (WWeb.on_message rt m) st i j) = inl tt)
  /\ (forall messages : list Baileys.message,
        result (exec w (Baileys.on_upsert rt messages) st i j) = inl tt).
Proof.
  intros Hw. split.
  - intros m.
    destruct (contained_result w _ st i j Hw (contained_wweb_on_message rt m))
      as [[] ->]. done.
  - intros messages.
    destruct (contained_result w _ st i j Hw (contained_baileys_on_upsert rt messages))
      as [[] ->]. done.
Qed.

Lemma handlers_never_throw_witness :
  result (exec Sample.calm
            (WWeb.on_message Sample.rt (Sample.wweb_from "491234567890" "/tasks"))
            ∅ 0 0) = inl tt
  /\ result (exec Sample.calm
               (Baileys.on_upsert Sample.rt
                  [Sample.baileys_from "491234567890" "hello";
                   Sample.baileys_from "491234567890" "/status"])
               ∅ 0 0) = inl tt.
Proof.
  split; apply (handlers_never_throw Sample.rt Sample.calm ∅ 0 0 calm_delivers).
Defined.

(** ** Batches of the Baileys bridge *)

(** X2. The messages of one [messages.upsert] event are handled one
    after the other.  When the handling of a message ends with an
    exception (a reply that could not be sent outside a [try] or inside
    the [catch] block), the loop is left: the run of the batch is the
    run of that message, and the messages after it are not handled.
    Otherwise the rest of the batch runs on the sessions that the
    message leaves. *)
Theorem baileys_batch_stops_at_exception (rt : runtime) (w : world)
    (st : gmap jsstring bool) (i j : nat)
    (msg : Baileys.message) (rest : list Baileys.message) :
  (forall e, result (exec w (Baileys.on_message rt msg) st i j) = inr e ->
     exec w (Baileys.on_upsert rt (msg :: rest)) st i j
     = exec w (Baileys.on_message rt msg) st i j)
  /\ (result (exec w (Baileys.on_message rt msg) st i j) = inl tt ->
      let r := exec w (Baileys.on_message rt msg) st i j in
      let r' := exec w (Baileys.on_upsert rt rest) (sessions r)
                  (i + length (replies r)) (j + length (spawns r)) in
      exec w (Baileys.on_upsert rt (msg :: rest)) st i j
      = Run (sessions r') (trace r ++ trace r') (result r')).
Proof.
  cbn [Baileys.on_upsert]. rewrite mbind_unfold, exec_bind. unfold and_then.
  split.
  - intros e He. rewrite He.
    destruct (exec w (Baileys.on_message rt msg) st i j) as [s t r].
    simpl in *. by rewrite He.
  - intros Hok. by rewrite Hok.
Qed.

Lemma baileys_batch_stops_at_exception_witness :
  exec Sample.hostile
    (Baileys.on_upsert Sample.rt
       [Sample.baileys_from "491234567890" "hello";
        Sample.baileys_from "491234567890" "/help"]) ∅ 0 0
  = exec Sample.hostile
      (Baileys.on_message Sample.rt (Sample.baileys_from "491234567890" "hello")) ∅ 0 0
  /\ exec Sample.calm
       (Baileys.on_upsert Sample.rt
          [Sample.baileys_from "491234567890" "/help";
           Sample.baileys_from "491234567890" "/status"]) ∅ 0 0
     = Run ∅ [Sent (JS.lit "491234567890@s.whatsapp.net") Baileys.HELP;
              Sent (JS.lit "491234567890@s.whatsapp.net")
                (Baileys.status_text Sample.rt false)] (inl tt).
Proof.
  split.
  - apply (proj1 (baileys_batch_stops_at_exception Sample.rt Sample.hostile ∅ 0 0
                    (Sample.baileys_from "491234567890" "hello")
                    [Sample.baileys_from "491234567890" "/help"])
             (JS.lit "connection closed")).
    vm_compute. reflexivity.
  - etransitivity.
    + apply (proj2 (baileys_batch_stops_at_exception Sample.rt Sample.calm ∅ 0 0
                      (Sample.baileys_from "491234567890" "/help")
                      [Sample.baileys_from "491234567890" "/status"])).
      vm_compute. reflexivity.
    + vm_compute. reflexivity.
Defined.

(** ** The built-in commands *)

Section Commands.
Context (rt : runtime) (w : world) (st : gmap jsstring bool) (i j : nat).

Lemma wweb_command_guards (m : WWeb.message) :
  WWeb.isGroupMsg m = false -> WWeb.isStatus m = false -> WWeb.body m ≠ [] ->
  JS.replace (JS.lit "@c.us") [] (WWeb.from m) ∈ WWeb.AUTHORIZED_NUMBERS rt ->
  WWeb.isGroupMsg m || WWeb.isStatus m || negb (JS.truthy (WWeb.body m)) = false
  /\ (length (WWeb.AUTHORIZED_NUMBERS rt) =? 0)
     || negb (JS.includes (WWeb.AUTHORIZED_NUMBERS rt)
                (JS.replace (JS.lit "@c.us") [] (WWeb.from m))) = false.
Proof.
  intros -> -> Hb Hin. split.
  - by destruct (WWeb.body m).
  - apply includes_true in Hin as Hin'. rewrite Hin'.
    destruct (WWeb.AUTHORIZED_NUMBERS rt); [by apply not_elem_of_nil in Hin | done].
Qed.

(** X3. [/help] and [/status], in any letter case, are answered with
    one reply, start no child process and leave the session map as it
    is, whether the sender is busy or not.  The [/status] reply is the
    status text for the sender's current flag, and the texts for busy
    and idle differ. *)
Theorem commands_leave_sessions_alone :
  (forall m : WWeb.message,
     WWeb.isGroupMsg m = false -> WWeb.isStatus m = false -> WWeb.body m ≠ [] ->
     JS.replace (JS.lit "@c.us") [] (WWeb.from m) ∈ WWeb.AUTHORIZED_NUMBERS rt ->
     (toLowerCase rt (JS.trim (WWeb.body m)) = JS.lit "/help" ->
        trace (exec w (WWeb.on_message rt m) st i j) = [Sent (WWeb.from m) WWeb.HELP]
        /\ sessions (exec w (WWeb.on_message rt m) st i j) = st)
     /\ (toLowerCase rt (JS.trim (WWeb.body m)) = JS.lit "/status" ->
           trace (exec w (WWeb.on_message rt m) st i j)
           = [Sent (WWeb.from m)
                (WWeb.status_text rt
                   (default false (st !! JS.replace (JS.lit "@c.us") [] (WWeb.from m))))]
           /\ sessions (exec w (WWeb.on_message rt m) st i j) = st))
  /\ (forall jid text : jsstring,
        (toLowerCase rt text = JS.lit "/help" ->
           trace (exec w (Baileys.handleMessage rt jid text) st i j)
           = [Sent jid Baileys.HELP]
           /\ sessions (exec w (Baileys.handleMessage rt jid text) st i j) = st)
        /\ (toLowerCase rt text = JS.lit "/status" ->
              trace (exec w (Baileys.handleMessage rt jid text) st i j)
              = [Sent jid
                   (Baileys.status_text rt
                      (default false
                         (st !! JS.replace (JS.lit "@s.whatsapp.net") [] jid)))]
              /\ sessions (exec w (Baileys.handleMessage rt jid text) st i j) = st))
  /\ WWeb.status_text rt true ≠ WWeb.status_text rt false
  /\ Baileys.status_text rt true ≠ Baileys.status_text rt false.
Proof.
  split; [|split; [|split]].
  - intros m Hg Hs Hb Hin.
    destruct (wweb_command_guards m Hg Hs Hb Hin) as [G1 G2].
    unfold WWeb.on_message. rewrite G1, G2. split; intros ->.
    + change (JS.eqb (JS.lit "/help") (JS.lit "/help")) with true. cbv iota.
      simpl. by destruct (delivery w i).
    + change (JS.eqb (JS.lit "/status") (JS.lit "/help")) with false.
      change (JS.eqb (JS.lit "/status") (JS.lit "/status")) with true. cbv iota.
      rewrite mbind_unfold. cbn [session_busy bind exec WWeb.reply send].
      unfold emit. cbn [trace sessions]. by destruct (delivery w i).
  - intros jid text. unfold Baileys.handleMessage. split; intros ->.
    + change (JS.eqb (JS.lit "/help") (JS.lit "/help")) with true. cbv iota.
      simpl. by destruct (delivery w i).
    + change (JS.eqb (JS.lit "/status") (JS.lit "/help")) with false.
      change (JS.eqb (JS.lit "/status") (JS.lit "/status")) with true. cbv iota.
      rewrite mbind_unfold. cbn [session_busy bind exec Baileys.sendMessage send].
      unfold emit. cbn [trace sessions]. by destruct (delivery w i).
  - unfold WWeb.status_text. intros E. apply (f_equal length) in E.
    rewrite !length_app in E. simpl in E. lia.
  - unfold Baileys.status_text. intros E. apply (f_equal length) in E.
    rewrite !length_app in E. simpl in E. lia.
Qed.

End Commands.

Lemma commands_leave_sessions_alone_witness :
  trace (exec Sample.calm
           (WWeb.on_message Sample.rt (Sample.wweb_from "491234567890" " /Help "))
           {[ Sample.owner := true ]} 0 0)
    = [Sent (JS.lit "491234567890@c.us") WWeb.HELP]
  /\ trace (exec Sample.hostile
              (Baileys.handleMessage Sample.rt (JS.lit "491234567890@s.whatsapp.net")
                 (JS.lit "/STATUS"))
              {[ Sample.owner := true ]} 0 0)
     = [Sent (JS.lit "491234567890@s.whatsapp.net")
          (Baileys.status_text Sample.rt true)].
Proof.
  split.
  - apply (proj1 (commands_leave_sessions_alone Sample.rt Sample.calm
                    {[ Sample.owner := true ]} 0 0)
             (Sample.wweb_from "491234567890" " /Help ")); try reflexivity.
    + discriminate.
    + apply includes_true. vm_compute. reflexivity.
  - destruct (proj2 (proj1 (proj2 (commands_leave_sessions_alone Sample.rt Sample.hostile
                                      {[ Sample.owner := true ]} 0 0))
                       (JS.lit "491234567890@s.whatsapp.net") (JS.lit "/STATUS"))
                eq_refl) as [Ht _].
    rewrite Ht. vm_compute. reflexivity.
Defined.

(** ** A whole turn of conversation *)

Lemma exec_try_finally_set {A} w (p : prog A) s b st i j :
  exec w (try_finally p (set_busy s b)) st i j
  = Run (<[s := b]> (sessions (exec w p st i j)))
      (trace (exec w p st i j)) (result (exec w p st i j)).
Proof.
  revert st i j.
  induction p as [a|m|x k IH|x c k IH|to t k IH|c k IH|ms k IH]; intros st i j;
    simpl; try done; by rewrite IH.
Qed.

Lemma exec_try_catch_contained {A} w (p : prog A) h st i j :
  delivers w -> contained p -> exec w (try_catch p h) st i j = exec w p st i j.
Proof.
  intros Hw Hp. rewrite exec_try_catch. unfold or_catch.
  by destruct (contained_result w p st i j Hw Hp) as [a ->].
Qed.

Lemma io_only_sessions {A} w (p : prog A) st i j :
  io_only p -> sessions (exec w p st i j) = st.
Proof.
  revert st i j.
  induction p as [a|m|x k IH|x c k IH|to t k IH|c k IH|ms k IH]; intros st i j Hp;
    simpl in *; try done; by apply IH.
Qed.

Lemma io_only_sendLongMessage m text : io_only (WWeb.sendLongMessage m text).
Proof.
  unfold WWeb.sendLongMessage.
  destruct (length text <=? MAX_RESPONSE_LENGTH);
    [apply io_only_send | apply io_only_send_chunks].
Qed.

(** What the guarded part of both handlers does once the
    acknowledgement is out: the outcome of [runClaude] decides between
    the replies of [sendLongMessage] for the result and one error
    reply. *)
Lemma guarded_invoke_run w m prompt dir sender st i j :
  delivers w ->
  let r := exec w
             (try_finally
                (try_catch
                   (bind (WWeb.runClaude prompt dir)
                      (fun result => WWeb.sendLongMessage m result))
                   (fun err => WWeb.reply m (error_reply err)))
                (set_busy sender false)) st i j in
  sessions r = <[sender := false]> st
  /\ replies r = match WWeb.outcome_of (launch w j) with
                 | Resolved v => replies (exec w (WWeb.sendLongMessage m v) st i (S j))
                 | Rejected e => [error_reply e]
                 end
  /\ result r = inl tt.
Proof.
  intros Hw r. subst r. rewrite exec_try_finally_set. cbn [sessions trace result].
  unfold WWeb.runClaude. cbn [bind try_catch exec].
  destruct (WWeb.outcome_of (launch w j)) as [v|e]; cbn [bind try_catch].
  - rewrite exec_try_catch_contained by (done || apply contained_sendLongMessage).
    unfold emit. cbn [sessions trace result].
    rewrite io_only_sessions by apply io_only_sendLongMessage.
    split; [done|]. split.
    + change (replies (Run ?s (Spawned ?c :: ?t) ?x)) with (replies (Run s t x)).
      by destruct (exec w (WWeb.sendLongMessage m v) st i (S j)).
    + destruct (contained_result w _ st i (S j) Hw (contained_sendLongMessage m v))
        as [[] ->]. done.
  - simpl. by rewrite Hw.
Qed.

Lemma baileys_guarded_invoke_run w jid prompt dir sender st i j :
  delivers w ->
  let r := exec w
             (try_finally
                (try_catch
                   (bind (Baileys.runClaude prompt dir)
                      (fun result => Baileys.sendLongMessage jid result))
                   (fun err => Baileys.sendMessage jid (error_reply err)))
                (set_busy sender false)) st i j in
  sessions r = <[sender := false]> st
  /\ replies r = match Baileys.outcome_of (launch w j) with
                 | Resolved v =>
                     replies (exec w (Baileys.sendLongMessage jid v) st i (S j))
                 | Rejected e => [error_reply e]
                 end
  /\ result r = inl tt.
Proof.
  intros Hw r. subst r. rewrite exec_try_finally_set. cbn [sessions trace result].
  unfold Baileys.runClaude. cbn [bind try_catch exec].
  destruct (Baileys.outcome_of (launch w j)) as [v|e]; cbn [bind try_catch].
  - change (Baileys.sendLongMessage jid v)
      with (WWeb.sendLongMessage (WWeb.Message false false [] jid) v).
    rewrite exec_try_catch_contained by (done || apply contained_sendLongMessage).
    unfold emit. cbn [sessions trace result].
    rewrite io_only_sessions by apply io_only_sendLongMessage.
    split; [done|]. split.
    + change (replies (Run ?s (Spawned ?c :: ?t) ?x)) with (replies (Run s t x)).
      by destruct (exec w (WWeb.sendLongMessage (WWeb.Message false false [] jid) v)
                     st i (S j)).
    + destruct (contained_result w _ st i (S j) Hw
                  (contained_sendLongMessage (WWeb.Message false false [] jid) v))
        as [[] ->]. done.
  - simpl. by rewrite Hw.
Qed.

Section Turn.
Context (rt : runtime) (w : world) (st : gmap jsstring bool) (i j : nat).
Hypothesis transport_delivers : delivers w.

(** X4. One turn of conversation, while the transport delivers.  A
    free-form text from an authorized sender who is not busy (in the
    Baileys bridge also [/tasks], as its fixed prompt) is answered with
    the acknowledgement.  [spawn] is then called exactly once, for
    [claude --print --max-turns 3] with the text as last argument, in
    the working directory, with [NO_COLOR=1] (and, in the
    whatsapp-web.js bridge, the [timeout] option).  When that call
    throws, or [runClaude] rejects later, one more reply follows: the
    error reply with the message.  When [runClaude] resolves, the
    replies of [sendLongMessage] for the result follow.  The handler
    ends normally, the sender's entry is left at [busy = false] and no
    other entry of the session map is touched. *)
Theorem free_form_turn :
  (forall m : WWeb.message,
     WWeb.isGroupMsg m = false -> WWeb.isStatus m = false -> WWeb.body m ≠ [] ->
     JS.replace (JS.lit "@c.us") [] (WWeb.from m) ∈ WWeb.AUTHORIZED_NUMBERS rt ->
     toLowerCase rt (JS.trim (WWeb.body m)) ≠ JS.lit "/help" ->
     toLowerCase rt (JS.trim (WWeb.body m)) ≠ JS.lit "/status" ->
     toLowerCase rt (JS.trim (WWeb.body m)) ≠ JS.lit "/tasks" ->
     st !! JS.replace (JS.lit "@c.us") [] (WWeb.from m) ≠ Some true ->
     let sender := JS.replace (JS.lit "@c.us") [] (WWeb.from m) in
     let r := exec w (WWeb.on_message rt m) st i j in
     sessions r = <[sender := false]> st
     /\ spawns r
        = [SpawnCall (JS.lit "claude")
             [JS.lit "--print"; JS.lit "--max-turns"; JS.lit "3"; JS.trim (WWeb.body m)]
             (WORK_DIR rt) [(JS.lit "NO_COLOR", JS.lit "1")] (Some 300000%N)]
     /\ replies r
        = ([55357; 56580]%N ++ JS.lit " Processing...") ::
          match WWeb.outcome_of (launch w j) with
          | Resolved v =>
              replies (exec w (WWeb.sendLongMessage m v) (<[sender := true]> st)
                         (S i) (S j))
          | Rejected e => [[10060]%N ++ JS.lit " Error: " ++ e]
          end
     /\ result r = inl tt)
  /\ (forall jid text : jsstring,
        toLowerCase rt text ≠ JS.lit "/help" ->
        toLowerCase rt text ≠ JS.lit "/status" ->
        st !! JS.replace (JS.lit "@s.whatsapp.net") [] jid ≠ Some true ->
        let sender := JS.replace (JS.lit "@s.whatsapp.net") [] jid in
        let r := exec w (Baileys.handleMessage rt jid text) st i j in
        sessions r = <[sender := false]> st
        /\ spawns r
           = [SpawnCall (JS.lit "claude")
                [JS.lit "--print"; JS.lit "--max-turns"; JS.lit "3";
                 if JS.eqb (toLowerCase rt text) (JS.lit "/tasks")
                 then JS.lit "List all tasks from data/tasks.json with their status. Be concise."
                 else text]
                (WORK_DIR rt) [(JS.lit "NO_COLOR", JS.lit "1")] None]
        /\ replies r
           = ([55357; 56580]%N ++ JS.lit " Processing...") ::
             match Baileys.outcome_of (launch w j) with
             | Resolved v =>
                 replies (exec w (Baileys.sendLongMessage jid v) (<[sender := true]> st)
                            (S i) (S j))
             | Rejected e => [[10060]%N ++ JS.lit " Error: " ++ e]
             end
        /\ result r = inl tt).
Proof.
  split.
  - intros m Hg Hs Hb Hin H1 H2 H3 Hidle sender r.
    assert (Hspawn := wweb_free_form_spawns rt w st i j m Hg Hs Hb Hin H1 H2 H3 Hidle
                        (transport_delivers i)).
    subst sender r. split; [|split; [exact Hspawn|]]; clear Hspawn;
      destruct (wweb_command_guards rt m Hg Hs Hb Hin) as [G1 G2];
      unfold WWeb.on_message; rewrite G1, G2;
      apply eqb_false in H1, H2, H3; rewrite H1, H2, H3;
      rewrite mbind_unfold; cbn [session_busy bind exec];
      assert (Hb' : default false
                (st !! JS.replace (JS.lit "@c.us") [] (WWeb.from m)) = false)
        by (by destruct (st !! JS.replace (JS.lit "@c.us") [] (WWeb.from m)) as [[|]|]);
      rewrite Hb', !mbind_unfold;
      cbn [set_busy bind exec WWeb.reply send try_catch try_finally];
      rewrite transport_delivers; cbn [bind try_catch try_finally];
      unfold emit; cbn [sessions trace result];
      destruct (guarded_invoke_run w m (JS.trim (WWeb.body m)) (WORK_DIR rt)
                  (JS.replace (JS.lit "@c.us") [] (WWeb.from m))
                  (<[JS.replace (JS.lit "@c.us") [] (WWeb.from m) := true]> st)
                  (S i) j transport_delivers) as (R1 & R2 & R3).
    + rewrite R1. apply insert_insert_eq.
    + split; [|exact R3].
      change (replies (Run ?s (Sent ?to ?t :: ?tr) ?x)) with (t :: replies (Run s tr x)).
      etransitivity; [|apply (f_equal (cons PROCESSING) R2)].
      f_equal; by destruct (exec w _ _ (S i) j).
  - intros jid text H1 H2 Hidle sender r.
    assert (Hspawn := baileys_handler_spawns rt w st i j jid text H1 H2 Hidle
                        (transport_delivers i)).
    subst sender r. split; [|split; [exact Hspawn|]]; clear Hspawn;
      unfold Baileys.handleMessage;
      apply eqb_false in H1, H2; rewrite H1, H2;
      rewrite mbind_unfold; cbn [session_busy bind exec];
      assert (Hb' : default false
                (st !! JS.replace (JS.lit "@s.whatsapp.net") [] jid) = false)
        by (by destruct (st !! JS.replace (JS.lit "@s.whatsapp.net") [] jid) as [[|]|]);
      rewrite Hb', !mbind_unfold;
      cbn [set_busy bind exec Baileys.sendMessage send try_catch try_finally];
      rewrite transport_delivers; cbn [bind try_catch try_finally];
      unfold emit; cbn [sessions trace result];
      destruct (baileys_guarded_invoke_run w jid
                  (if JS.eqb (toLowerCase rt text) (JS.lit "/tasks")
                   then TASKS_PROMPT else text) (WORK_DIR rt)
                  (JS.replace (JS.lit "@s.whatsapp.net") [] jid)
                  (<[JS.replace (JS.lit "@s.whatsapp.net") [] jid := true]> st)
                  (S i) j transport_delivers) as (R1 & R2 & R3).
    + rewrite R1. apply insert_insert_eq.
    + split; [|exact R3].
      change (replies (Run ?s (Sent ?to ?t :: ?tr) ?x)) with (t :: replies (Run s tr x)).
      etransitivity; [|apply (f_equal (cons PROCESSING) R2)].
      f_equal; by destruct (exec w _ _ (S i) j).
Qed.

End Turn.

Lemma free_form_turn_witness :
  replies (exec failing
             (WWeb.on_message Sample.rt (Sample.wweb_from "491234567890" "run the tests"))
             ∅ 0 0)
    = [[55357; 56580]%N ++ JS.lit " Processing..."; [10060]%N ++ JS.lit " Error: boom"]
  /\ sessions (exec failing
                 (WWeb.on_message Sample.rt
                    (Sample.wweb_from "491234567890" "run the tests")) ∅ 0 0)
     = <[Sample.owner := false]> ∅
  /\ replies (exec refusing
                (WWeb.on_message Sample.rt
                   (Sample.wweb_from "491234567890" "run the tests")) ∅ 0 0)
     = [[55357; 56580]%N ++ JS.lit " Processing...";
        [10060]%N ++ JS.lit " Error: spawn E2BIG"]
  /\ replies (exec Sample.calm
                (Baileys.handleMessage Sample.rt (JS.lit "491234567890@s.whatsapp.net")
                   (JS.lit "/tasks")) ∅ 0 0)
     = [[55357; 56580]%N ++ JS.lit " Processing..."; JS.lit "done"].
Proof.
  assert (Hfail : delivers failing) by (intros n; reflexivity).
  assert (Hrefuse : delivers refusing) by (intros n; reflexivity).
  destruct (proj1 (free_form_turn Sample.rt failing ∅ 0 0 Hfail)
              (Sample.wweb_from "491234567890" "run the tests"))
    as (S1 & _ & S3 & _); try (vm_compute; congruence).
  { apply includes_true. vm_compute. reflexivity. }
  destruct (proj1 (free_form_turn Sample.rt refusing ∅ 0 0 Hrefuse)
              (Sample.wweb_from "491234567890" "run the tests"))
    as (_ & _ & T3 & _); try (vm_compute; congruence).
  { apply includes_true. vm_compute. reflexivity. }
  destruct (proj2 (free_form_turn Sample.rt Sample.calm ∅ 0 0 calm_delivers)
              (JS.lit "491234567890@s.whatsapp.net") (JS.lit "/tasks"))
    as (_ & _ & B3 & _); try (vm_compute; congruence).
  split; [|split; [|split]].
  - etransitivity; [exact S3 | vm_compute; reflexivity].
  - exact S1.
  - etransitivity; [exact T3 | vm_compute; reflexivity].
  - etransitivity; [exact B3 | vm_compute; reflexivity].
Defined.

(** ** Blank messages *)

Lemma trimStart_blank s : forallb JS.is_white s = true -> JS.trimStart s = [].
Proof.
  induction s as [|c s IH]; simpl; [done|].
  intros H. apply andb_true_iff in H as [-> Hs]. by apply IH.
Qed.

Lemma trim_blank s : forallb JS.is_white s = true -> JS.trim s = [].
Proof. intros H. unfold JS.trim. by rewrite trimStart_blank. Qed.

(** X5. The two bridges differ on a text of whitespace only.  The
    whatsapp-web.js handler drops a message only when its body is
    empty: a non-empty body of whitespace from an authorized sender who
    is not busy is trimmed to the empty string, and once the
    acknowledgement has been delivered [spawn] is called for
    [claude --print --max-turns 3] with the empty string as prompt.
    The Baileys handler trims first and drops the message without any
    effect, in every world. *)
Theorem blank_text_reaches_assistant_only_in_wweb (rt : runtime) (w : world)
    (st : gmap jsstring bool) (i j : nat) :
  toLowerCase rt [] = [] ->
  (forall m : WWeb.message,
     WWeb.isGroupMsg m = false -> WWeb.isStatus m = false ->
     WWeb.body m ≠ [] -> forallb JS.is_white (WWeb.body m) = true ->
     JS.replace (JS.lit "@c.us") [] (WWeb.from m) ∈ WWeb.AUTHORIZED_NUMBERS rt ->
     st !! JS.replace (JS.lit "@c.us") [] (WWeb.from m) ≠ Some true ->
     delivery w i = None ->
     spawns (exec w (WWeb.on_message rt m) st i j)
     = [SpawnCall (JS.lit "claude")
          [JS.lit "--print"; JS.lit "--max-turns"; JS.lit "3"; []]
          (WORK_DIR rt) [(JS.lit "NO_COLOR", JS.lit "1")] (Some 300000%N)])
  /\ (forall (c : Baileys.content) (fm : bool) (jid : jsstring),
        forallb JS.is_white (Baileys.text_of c) = true ->
        exec w (Baileys.on_message rt (Baileys.Message (Some c) fm jid)) st i j
        = Run st [] (inl tt)).
Proof.
  intros Hlow. split.
  - intros m Hg Hs Hb Hblank Hin Hidle Hack.
    rewrite (wweb_free_form_spawns rt w st i j m); try done.
    + by rewrite (trim_blank _ Hblank).
    + rewrite (trim_blank _ Hblank), Hlow. discriminate.
    + rewrite (trim_blank _ Hblank), Hlow. discriminate.
    + rewrite (trim_blank _ Hblank), Hlow. discriminate.
  - intros c fm jid Hblank. unfold Baileys.on_message.
    cbn [Baileys.payload Baileys.fromMe Baileys.remoteJid].
    rewrite (trim_blank _ Hblank).
    by destruct (fm || JS.endsWith jid (JS.lit "@g.us")
                 || JS.eqb jid (JS.lit "status@broadcast")).
Qed.

Lemma blank_text_reaches_assistant_only_in_wweb_witness :
  spawns (exec Sample.calm
            (WWeb.on_message Sample.rt (Sample.wweb_from "491234567890" "   ")) ∅ 0 0)
    = [SpawnCall (JS.lit "claude")
         [JS.lit "--print"; JS.lit "--max-turns"; JS.lit "3"; []]
         (WORK_DIR Sample.rt) [(JS.lit "NO_COLOR", JS.lit "1")] (Some 300000%N)]
  /\ exec Sample.calm
       (Baileys.on_message Sample.rt (Sample.baileys_from "491234567890" "   ")) ∅ 0 0
     = Run ∅ [] (inl tt).
Proof.
  destruct (blank_text_reaches_assistant_only_in_wweb Sample.rt Sample.calm ∅ 0 0 eq_refl)
    as [HW HB].
  split.
  - apply (HW (Sample.wweb_from "491234567890" "   ")); try reflexivity.
    + discriminate.
    + apply includes_true. vm_compute. reflexivity.
    + vm_compute. congruence.
  - apply (HB (Baileys.Content (Some (JS.lit "   ")) None) false
             (JS.lit "491234567890@s.whatsapp.net")).
    reflexivity.
Defined.

(** ** More on the invoker *)

Lemma wweb_foldl_fields s evs :
  WWeb.output (foldl WWeb.on_event s evs) = WWeb.output s ++ stdout_of evs
  /\ WWeb.errorOutput (foldl WWeb.on_event s evs) = WWeb.errorOutput s ++ stderr_of evs
  /\ WWeb.kill_calls (foldl WWeb.on_event s evs)
     = WWeb.kill_calls s + length (filter is_timer evs).
Proof.
  revert s. induction evs as [|ev evs IH]; intros s.
  - simpl. by rewrite !app_nil_r, Nat.add_0_r.
  - cbn [foldl]. destruct (IH (WWeb.on_event s ev)) as (H1 & H2 & H3).
    rewrite H1, H2, H3. clear IH H1 H2 H3.
    destruct ev as [d|d|code|m|]; cbn [stdout_of stderr_of];
      rewrite ?filter_cons; cbn [is_timer]; simpl;
      rewrite <- ?app_assoc; try done.
    by destruct (is_zero code || (0 <? length (WWeb.output s))).
Qed.

Lemma baileys_foldl_fields s evs :
  Baileys.output (foldl Baileys.on_event s evs) = Baileys.output s ++ stdout_of evs
  /\ Baileys.errorOutput (foldl Baileys.on_event s evs)
     = Baileys.errorOutput s ++ stderr_of evs
  /\ Baileys.kill_calls (foldl Baileys.on_event s evs)
     = Baileys.kill_calls s + length (filter is_timer evs)
  /\ Baileys.killed (foldl Baileys.on_event s evs)
     = Baileys.killed s || existsb is_timer evs.
Proof.
  revert s. induction evs as [|ev evs IH]; intros s.
  - simpl. by rewrite !app_nil_r, Nat.add_0_r, orb_false_r.
  - cbn [foldl]. destruct (IH (Baileys.on_event s ev)) as (H1 & H2 & H3 & H4).
    rewrite H1, H2, H3, H4. clear IH H1 H2 H3 H4.
    destruct ev as [d|d|code|m|]; cbn [stdout_of stderr_of existsb];
      rewrite ?filter_cons; cbn [is_timer]; simpl;
      rewrite <- ?app_assoc; try done.
    + destruct s as [o e [|] p n]; [done|].
      cbn [Baileys.killed Baileys.output Baileys.errorOutput].
      by destruct (is_zero code || (0 <? length o)); cbn; repeat split.
    + rewrite orb_true_r. repeat split; lia.
Qed.

(** X6. The bookkeeping of [runClaude] once its process is started.
    In every sequence of events the chunks written to standard output
    and to standard error are accumulated in their order of arrival,
    none is lost, also after the promise is settled.  The timer is
    never cleared: the callback of the timer calls
    [proc.kill('SIGTERM')] once for every time it runs, also when the
    process has closed before, and no other callback calls it.  (What
    such a call does to the process, and the signal node sends by itself
    for the [timeout] option of [spawn], are not part of this count.)
    In the Baileys bridge [killed] is set exactly when the timer has
    fired. *)
Theorem invoker_bookkeeping (evs : list proc_event) :
  (WWeb.output (WWeb.after evs) = stdout_of evs
   /\ WWeb.errorOutput (WWeb.after evs) = stderr_of evs
   /\ WWeb.kill_calls (WWeb.after evs) = length (filter is_timer evs))
  /\ (Baileys.output (Baileys.after evs) = stdout_of evs
      /\ Baileys.errorOutput (Baileys.after evs) = stderr_of evs
      /\ Baileys.kill_calls (Baileys.after evs) = length (filter is_timer evs)
      /\ Baileys.killed (Baileys.after evs) = existsb is_timer evs).
Proof.
  split.
  - apply (wweb_foldl_fields WWeb.started).
  - apply (baileys_foldl_fields Baileys.started).
Qed.

(** X7. A spawn error or a timeout that comes before the process
    closes decides the outcome, whatever was written so far: after any
    chunks of output, [error] rejects with [Failed to run Claude: ]
    followed by the error's message and the timer rejects with the
    timeout message; what follows does not change it.  Partial output
    counts only on [close]. *)
Theorem invoker_error_and_timeout (ds : list proc_event) (m : jsstring)
    (rest : list proc_event) :
  forallb is_data ds = true ->
  WWeb.settlement (ds ++ ProcError m :: rest)
    = Rejected (JS.lit "Failed to run Claude: " ++ m)
  /\ Baileys.settlement (ds ++ ProcError m :: rest)
     = Rejected (JS.lit "Failed to run Claude: " ++ m)
  /\ WWeb.settlement (ds ++ TimerFired :: rest)
     = Rejected (JS.lit "Command timed out after 5 minutes")
  /\ Baileys.settlement (ds ++ TimerFired :: rest)
     = Rejected (JS.lit "Command timed out after 5 minutes").
Proof.
  intros Hd.
  assert (HW : WWeb.promise (WWeb.after ds) = None).
  { unfold WWeb.after. by rewrite wweb_foldl_data. }
  assert (HB : Baileys.promise (Baileys.after ds) = None).
  { unfold Baileys.after. by rewrite baileys_foldl_data. }
  unfold WWeb.settlement, Baileys.settlement.
  rewrite !wweb_after_app, !baileys_after_app. cbn [foldl].
  repeat split.
  - rewrite (latched_foldl _ _ wweb_latched _ rest (Rejected (failed_to_run m))); [done|].
    simpl. by rewrite HW.
  - rewrite (latched_foldl _ _ baileys_latched _ rest (Rejected (failed_to_run m)));
      [done|]. simpl. by rewrite HB.
  - by rewrite (latched_foldl _ _ wweb_latched _ rest _ (wweb_timer_pending _ HW)).
  - by rewrite (latched_foldl _ _ baileys_latched _ rest _ (baileys_timer_pending _ HB)).
Qed.

Lemma invoker_error_and_timeout_witness :
  WWeb.settlement
    [StdoutData (JS.lit "partial"); ProcError (JS.lit "spawn claude ENOENT");
     ProcClose (Some (-2)%Z)]
  = Rejected (JS.lit "Failed to run Claude: spawn claude ENOENT")
  /\ Baileys.settlement
       [StdoutData (JS.lit "partial"); TimerFired; ProcClose None]
     = Rejected (JS.lit "Command timed out after 5 minutes").
Proof.
  destruct (invoker_error_and_timeout [StdoutData (JS.lit "partial")]
              (JS.lit "spawn claude ENOENT") [ProcClose (Some (-2)%Z)] eq_refl)
    as (H1 & _).
  destruct (invoker_error_and_timeout [StdoutData (JS.lit "partial")]
              [] [ProcClose None] eq_refl) as (_ & _ & _ & H4).
  split; [exact H1 | exact H4].
Defined.

(** ** The busy flag between two messages *)

Lemma advance_bind (p : prog unit) (f : unit -> prog unit) st :
  advance (bind p f) st =
  match (advance p st).2 with
  | Ret a => advance (f a) (advance p st).1
  | q => ((advance p st).1, bind q f)
  end.
Proof.
  revert st.
  induction p as [a|m|x k IH|x b k IH|to t k IH|c k IH|ms k IH]; intros st;
    cbn [bind advance fst snd]; done.
Qed.

Section Arrival.
Context (rt : runtime).

(** The whatsapp-web.js handler on a free-form text up to its first
    await: the flag is read, and set if it was not. *)
Lemma wweb_advance_free_form (m : WWeb.message) st :
  WWeb.isGroupMsg m = false -> WWeb.isStatus m = false -> WWeb.body m ≠ [] ->
  JS.replace (JS.lit "@c.us") [] (WWeb.from m) ∈ WWeb.AUTHORIZED_NUMBERS rt ->
  toLowerCase rt (JS.trim (WWeb.body m)) ≠ JS.lit "/help" ->
  toLowerCase rt (JS.trim (WWeb.body m)) ≠ JS.lit "/status" ->
  toLowerCase rt (JS.trim (WWeb.body m)) ≠ JS.lit "/tasks" ->
  exists k,
    advance (WWeb.on_message rt m) st =
    if default false (st !! JS.replace (JS.lit "@c.us") [] (WWeb.from m))
    then (st, Reply (WWeb.from m) WWeb.STILL_PROCESSING k)
    else (<[JS.replace (JS.lit "@c.us") [] (WWeb.from m) := true]> st,
          Reply (WWeb.from m) PROCESSING k).
Proof.
  intros Hg Hs Hb Hin H1 H2 H3.
  destruct (wweb_command_guards rt m Hg Hs Hb Hin) as [G1 G2].
  unfold WWeb.on_message. rewrite G1, G2.
  apply eqb_false in H1, H2, H3. rewrite H1, H2, H3.
  rewrite mbind_unfold. cbn [session_busy bind advance].
  destruct (default false (st !! JS.replace (JS.lit "@c.us") [] (WWeb.from m))).
  - eexists. reflexivity.
  - rewrite !mbind_unfold.
    cbn [set_busy bind advance WWeb.reply send try_catch try_finally].
    eexists. reflexivity.
Qed.

Lemma baileys_advance_handler (jid text : jsstring) st :
  toLowerCase rt text ≠ JS.lit "/help" ->
  toLowerCase rt text ≠ JS.lit "/status" ->
  exists k,
    advance (Baileys.handleMessage rt jid text) st =
    if default false (st !! JS.replace (JS.lit "@s.whatsapp.net") [] jid)
    then (st, Reply jid Baileys.STILL_PROCESSING k)
    else (<[JS.replace (JS.lit "@s.whatsapp.net") [] jid := true]> st,
          Reply jid PROCESSING k).
Proof.
  intros H1 H2. unfold Baileys.handleMessage.
  apply eqb_false in H1, H2. rewrite H1, H2.
  rewrite mbind_unfold. cbn [session_busy bind advance].
  destruct (default false (st !! JS.replace (JS.lit "@s.whatsapp.net") [] jid)).
  - eexists. reflexivity.
  - rewrite !mbind_unfold.
    cbn [set_busy bind advance Baileys.sendMessage send try_catch try_finally].
    eexists. reflexivity.
Qed.

End Arrival.

Lemma baileys_on_message_accepted rt (c : Baileys.content) (jid : jsstring) :
  JS.endsWith jid (JS.lit "@g.us") = false ->
  jid ≠ JS.lit "status@broadcast" ->
  JS.trim (Baileys.text_of c) ≠ [] ->
  JS.replace (JS.lit "@s.whatsapp.net") [] jid ∈ Baileys.AUTHORIZED_NUMBERS rt ->
  Baileys.on_message rt (Baileys.Message (Some c) false jid)
  = Baileys.handleMessage rt jid (JS.trim (Baileys.text_of c)).
Proof.
  intros Hg Hs Ht Hin. unfold Baileys.on_message.
  cbn [Baileys.payload Baileys.fromMe Baileys.remoteJid].
  apply eqb_false in Hs. rewrite Hg, Hs. cbn [orb].
  assert (Htruthy : JS.truthy (JS.trim (Baileys.text_of c)) = true)
    by (by destruct (JS.trim (Baileys.text_of c))).
  assert (Hlen : (length (Baileys.AUTHORIZED_NUMBERS rt) =? 0) = false).
  { destruct (Baileys.AUTHORIZED_NUMBERS rt); [by apply not_elem_of_nil in Hin | done]. }
  apply includes_true in Hin. by rewrite Htruthy, Hin, Hlen.
Qed.

(** X8. The flag is taken before the handler first suspends.  When
    two free-form messages of one authorized sender who is not busy
    arrive one after the other, before anything the first handler
    awaits has completed, the first is acknowledged and sets the flag,
    and the second finds it set: it is answered with the "still
    processing" notice.  After the two arrivals the sender is busy, two
    more handlers are suspended, and no child process has been
    started for either of them. *)
Theorem second_message_finds_flag_set (rt : runtime) (l : loop) :
  (forall m1 m2 : WWeb.message,
     let sender := JS.replace (JS.lit "@c.us") [] (WWeb.from m1) in
     WWeb.from m2 = WWeb.from m1 ->
     WWeb.isGroupMsg m1 = false -> WWeb.isStatus m1 = false -> WWeb.body m1 ≠ [] ->
     WWeb.isGroupMsg m2 = false -> WWeb.isStatus m2 = false -> WWeb.body m2 ≠ [] ->
     sender ∈ WWeb.AUTHORIZED_NUMBERS rt ->
     (forall m, m = m1 \/ m = m2 ->
        toLowerCase rt (JS.trim (WWeb.body m)) ≠ JS.lit "/help"
        /\ toLowerCase rt (JS.trim (WWeb.body m)) ≠ JS.lit "/status"
        /\ toLowerCase rt (JS.trim (WWeb.body m)) ≠ JS.lit "/tasks") ->
     store l !! sender ≠ Some true ->
     let l' := turns l [Arrive (WWeb.on_message rt m1); Arrive (WWeb.on_message rt m2)] in
     store l' = <[sender := true]> (store l)
     /\ log l' = log l ++ [Sent (WWeb.from m1) PROCESSING;
                           Sent (WWeb.from m1) WWeb.STILL_PROCESSING]
     /\ length (waiting l') = length (waiting l) + 2)
  /\ (forall (jid : jsstring) (c1 c2 : Baileys.content),
        let sender := JS.replace (JS.lit "@s.whatsapp.net") [] jid in
        JS.endsWith jid (JS.lit "@g.us") = false ->
        jid ≠ JS.lit "status@broadcast" ->
        sender ∈ Baileys.AUTHORIZED_NUMBERS rt ->
        (forall c, c = c1 \/ c = c2 ->
           JS.trim (Baileys.text_of c) ≠ []
           /\ toLowerCase rt (JS.trim (Baileys.text_of c)) ≠ JS.lit "/help"
           /\ toLowerCase rt (JS.trim (Baileys.text_of c)) ≠ JS.lit "/status") ->
        store l !! sender ≠ Some true ->
        let l' := turns l
                    [Arrive (Baileys.on_upsert rt [Baileys.Message (Some c1) false jid]);
                     Arrive (Baileys.on_upsert rt [Baileys.Message (Some c2) false jid])] in
        store l' = <[sender := true]> (store l)
        /\ log l' = log l ++ [Sent jid PROCESSING; Sent jid Baileys.STILL_PROCESSING]
        /\ length (waiting l') = length (waiting l) + 2).
Proof.
  split.
  - intros m1 m2 sender Hfrom Hg1 Hs1 Hb1 Hg2 Hs2 Hb2 Hin Hcmd Hidle l'.
    destruct (Hcmd m1 (or_introl eq_refl)) as (A1 & A2 & A3).
    destruct (Hcmd m2 (or_intror eq_refl)) as (B1 & B2 & B3).
    assert (Hin2 : JS.replace (JS.lit "@c.us") [] (WWeb.from m2)
                     ∈ WWeb.AUTHORIZED_NUMBERS rt) by (by rewrite Hfrom).
    subst l'. unfold turns. cbn [foldl turn].
    rewrite !run_to_await_unfold.
    destruct (wweb_advance_free_form rt m1 (store l) Hg1 Hs1 Hb1 Hin A1 A2 A3)
      as [k1 E1].
    fold sender in E1.
    assert (D1 : default false (store l !! sender) = false)
      by (by destruct (store l !! sender) as [[|]|]).
    rewrite D1 in E1. rewrite E1. cbn [fst snd store waiting log park finished announce].
    destruct (wweb_advance_free_form rt m2 (<[sender := true]> (store l))
                Hg2 Hs2 Hb2 Hin2 B1 B2 B3) as [k2 E2].
    rewrite Hfrom in E2. fold sender in E2.
    rewrite lookup_insert_eq in E2.
    change (default false (Some true)) with true in E2. cbv iota in E2.
    rewrite E2. cbn [fst snd store waiting log park finished announce].
    split; [done|]. split; [by rewrite <- app_assoc|].
    rewrite !length_app. simpl. lia.
  - intros jid c1 c2 sender Hg Hs Hin Hcmd Hidle l'.
    destruct (Hcmd c1 (or_introl eq_refl)) as (A0 & A1 & A2).
    destruct (Hcmd c2 (or_intror eq_refl)) as (B0 & B1 & B2).
    subst l'. unfold turns. cbn [foldl turn Baileys.on_upsert].
    rewrite !mbind_unfold, !run_to_await_unfold, !advance_bind.
    rewrite !baileys_on_message_accepted by done.
    destruct (baileys_advance_handler rt jid (JS.trim (Baileys.text_of c1))
                (store l) A1 A2) as [k1 E1].
    fold sender in E1.
    assert (D1 : default false (store l !! sender) = false)
      by (by destruct (store l !! sender) as [[|]|]).
    rewrite D1 in E1. rewrite E1.
    cbn [fst snd store waiting log park finished announce bind].
    destruct (baileys_advance_handler rt jid (JS.trim (Baileys.text_of c2))
                (<[sender := true]> (store l)) B1 B2) as [k2 E2].
    fold sender in E2.
    rewrite lookup_insert_eq in E2.
    change (default false (Some true)) with true in E2. cbv iota in E2.
    rewrite E2. cbn [fst snd store waiting log park finished announce bind].
    split; [done|]. split; [by rewrite <- app_assoc|].
    rewrite !length_app. simpl. lia.
Qed.

Lemma second_message_finds_flag_set_witness :
  let l' := turns booted
              [Arrive (WWeb.on_message Sample.rt (Sample.wweb_from "491234567890" "hello"));
               Arrive (WWeb.on_message Sample.rt (Sample.wweb_from "491234567890" "again"))] in
  store l' = <[Sample.owner := true]> ∅
  /\ log l' = [] ++ [Sent (JS.lit "491234567890@c.us") PROCESSING;
                     Sent (JS.lit "491234567890@c.us") WWeb.STILL_PROCESSING]
  /\ length (waiting l') = 0 + 2.
Proof.
  apply (proj1 (second_message_finds_flag_set Sample.rt booted)
           (Sample.wweb_from "491234567890" "hello")
           (Sample.wweb_from "491234567890" "again")); try reflexivity;
    try discriminate.
  - apply includes_true. vm_compute. reflexivity.
  - intros m [-> | ->]; repeat split; vm_compute; discriminate.
Defined.

Lemma baileys_busy_gate_witness :
  trace (exec Sample.hostile
           (Baileys.handleMessage Sample.rt (JS.lit "491234567890@s.whatsapp.net")
              (JS.lit "/tasks"))
           {[ Sample.owner := true ]} 0 0)
    = [Sent (JS.lit "491234567890@s.whatsapp.net") Baileys.STILL_PROCESSING]
  /\ sessions (exec Sample.hostile
                 (Baileys.handleMessage Sample.rt (JS.lit "491234567890@s.whatsapp.net")
                    (JS.lit "/tasks"))
                 {[ Sample.owner := true ]} 0 0)
     = {[ Sample.owner := true ]}.
Proof.
  apply (baileys_busy_gate Sample.rt Sample.hostile {[ Sample.owner := true ]} 0 0
           (JS.lit "491234567890@s.whatsapp.net") (JS.lit "/tasks"));
    vm_compute; congruence.
Defined.

Lemma wweb_busy_gate_witness :
  trace (exec Sample.calm
           (WWeb.on_message Sample.rt (Sample.wweb_from "491234567890" "hello"))
           {[ Sample.owner := true ]} 0 0)
    = [Sent (JS.lit "491234567890@c.us") WWeb.STILL_PROCESSING]
  /\ sessions (exec Sample.calm
                 (WWeb.on_message Sample.rt (Sample.wweb_from "491234567890" "hello"))
                 {[ Sample.owner := true ]} 0 0)
     = {[ Sample.owner := true ]}.
Proof.
  apply (wweb_busy_gate Sample.rt Sample.calm {[ Sample.owner := true ]} 0 0
           (Sample.wweb_from "491234567890" "hello")); try (vm_compute; congruence).
  apply includes_true. vm_compute. reflexivity.
Defined.

(** X16. At most one invocation per sender in the whatsapp-web.js
    bridge as long as no [/tasks] arrives: however arrivals and completions
    interleave, every handler that waits for the assistant holds the
    set flag of a sender, and no two suspended handlers hold the flag
    of the same sender. *)
Lemma wweb_one_invocation_without_tasks rt sgs :
  Forall (fun sg =>
    match sg with
    | Arrive h => exists m, h = WWeb.on_message rt m
                            /\ toLowerCase rt (JS.trim (WWeb.body m)) ≠ JS.lit "/tasks"
    | _ => True
    end) sgs ->
  (forall p, p ∈ waiting (turns booted sgs) -> invoking p = true ->
     exists s, holding s p /\ store (turns booted sgs) !! s = Some true)
  /\ (forall n1 n2 p1 p2 s,
        waiting (turns booted sgs) !! n1 = Some p1 ->
        waiting (turns booted sgs) !! n2 = Some p2 ->
        holding s p1 -> holding s p2 -> n1 = n2).
Proof.
  intros Hsgs. by apply orderly_one_invocation, (wweb_serializes_without_tasks rt).
Qed.

Lemma baileys_one_invocation_per_sender_witness :
  let l := turns booted
             [Arrive (Baileys.on_upsert Sample.rt
                        [Sample.baileys_from "491234567890" "hello"]);
              ReplySettled 0 None;
              Arrive (Baileys.on_upsert Sample.rt
                        [Sample.baileys_from "491234567890" "/tasks"])] in
  (forall p, p ∈ waiting l -> invoking p = true ->
     exists s, holding s p /\ store l !! s = Some true)
  /\ (forall n1 n2 p1 p2 s,
        waiting l !! n1 = Some p1 -> waiting l !! n2 = Some p2 ->
        holding s p1 -> holding s p2 -> n1 = n2).
Proof.
  apply (baileys_one_invocation_per_sender Sample.rt).
  repeat constructor; eexists; reflexivity.
Defined.

Lemma wweb_one_invocation_without_tasks_witness :
  let l := turns booted
             [Arrive (WWeb.on_message Sample.rt (Sample.wweb_from "491234567890" "hello"));
              ReplySettled 0 None;
              Arrive (WWeb.on_message Sample.rt (Sample.wweb_from "491234567890" "again"))] in
  (forall p, p ∈ waiting l -> invoking p = true ->
     exists s, holding s p /\ store l !! s = Some true)
  /\ (forall n1 n2 p1 p2 s,
        waiting l !! n1 = Some p1 -> waiting l !! n2 = Some p2 ->
        holding s p1 -> holding s p2 -> n1 = n2).
Proof.
  apply (wweb_one_invocation_without_tasks Sample.rt).
  repeat constructor; eexists; (split; [reflexivity | vm_compute; discriminate]).
Defined.

(** ** More on the reply chunker *)

Lemma chunk_bodies_not_empty lines chunk :
  Forall (fun line : jsstring => length line + 1 <= MAX_RESPONSE_LENGTH) lines ->
  Forall (fun body : jsstring => body ≠ []) (chunk_bodies lines chunk).
Proof.
  intros Hlines. revert chunk.
  induction Hlines as [|line rest Hline _ IH]; intros chunk; simpl.
  - destruct (JS.truthy (JS.trim chunk)) eqn:E; [|constructor].
    constructor; [|constructor]. intros ->. discriminate E.
  - destruct (MAX_RESPONSE_LENGTH <? length chunk + length line + 1) eqn:E; [|apply IH].
    constructor; [|apply IH]. intros ->. apply Nat.ltb_lt in E. simpl in E. lia.
Qed.

(** X9. The chunker on any text longer than the threshold whose lines
    are all shorter than the threshold, when the transport delivers:
    both bridges send the same replies, one for each body; the [k]-th
    reply (counting from 0) is the label [Part k+1], written out unit
    by unit, followed by the [k]-th body; no body is empty and none is
    longer than the threshold; the bodies, followed by the last chunk
    when it is blank and not sent, are the text and one more line
    break; for a text without white space at its ends nothing is left
    out. *)
Theorem long_message_chunks (w : world) (m : WWeb.message) (jid : jsstring)
    (st : gmap jsstring bool) (i j : nat) (text : jsstring) :
  delivers w ->
  MAX_RESPONSE_LENGTH < length text ->
  Forall (fun line : jsstring => length line < MAX_RESPONSE_LENGTH)
    (JS.split JS.LF text) ->
  exists (bodies : list jsstring) (dropped : jsstring),
    replies (exec w (Baileys.sendLongMessage jid text) st i j)
    = replies (exec w (WWeb.sendLongMessage m text) st i j)
    /\ length (replies (exec w (WWeb.sendLongMessage m text) st i j)) = length bodies
    /\ (forall (k : nat) (body : jsstring),
          bodies !! k = Some body ->
          replies (exec w (WWeb.sendLongMessage m text) st i j) !! k
          = Some ([55357; 56516]%N ++ JS.lit " *Part " ++ JS.nat_toString (S k)
                  ++ JS.lit ":*" ++ [10; 10]%N ++ body))
    /\ Forall (fun body : jsstring =>
                 body ≠ [] /\ length body <= MAX_RESPONSE_LENGTH) bodies
    /\ concat bodies ++ dropped = text ++ [10%N]
    /\ (dropped = [] \/ JS.trim dropped = [])
    /\ (JS.trim text = text -> dropped = []).
Proof.
  intros Hw Hlen Hlines.
  assert (Hfit : Forall (fun line : jsstring => length line + 1 <= MAX_RESPONSE_LENGTH)
                   (JS.split JS.LF text)).
  { eapply Forall_impl; [exact Hlines|]. intros line Hl. simpl in Hl. lia. }
  destruct (chunk_bodies_account (JS.split JS.LF text) []) as (dropped & Hcat & Hd);
    [simpl; lia | done |].
  destruct (long_message_replies w m jid st i j text Hw Hlen) as [H1 H2].
  exists (chunk_bodies (JS.split JS.LF text) []), dropped.
  split; [by rewrite H1, H2|]. split; [by rewrite H1, number_parts_length|].
  split; [intros k body Hk; rewrite H1; by apply number_parts_lookup_body|].
  split.
  { apply Forall_and. split.
    - by apply chunk_bodies_not_empty.
    - apply chunk_bodies_fit; [simpl; lia | done]. }
  rewrite unlines_split in Hcat. split; [done|]. split; [tauto|].
  intros Htrim.
  assert (Hne : text ≠ []) by (intros ->; simpl in Hlen; lia).
  pose proof (trimmed_last_line text Htrim Hne) as Hlast.
  destruct (last (JS.split JS.LF text)) as [l|] eqn:El;
    [|by apply last_None, split_not_nil in El].
  pose proof (chunk_bodies_concat (JS.split JS.LF text) []) as Hall.
  rewrite El in Hall. specialize (Hall Hlast). rewrite unlines_split in Hall.
  simpl in Hall, Hcat. rewrite Hall in Hcat.
  rewrite <- (app_nil_r (text ++ [JS.LF])) in Hcat at 2.
  by apply app_inv_head in Hcat.
Qed.

Lemma long_message_chunks_witness :
  exists (bodies : list jsstring) (dropped : jsstring),
    replies (exec Sample.calm
               (Baileys.sendLongMessage (JS.lit "491234567890@s.whatsapp.net")
                  Sample.ninety_blank_lines) ∅ 0 0)
    = replies (exec Sample.calm
                 (WWeb.sendLongMessage (Sample.wweb_from "491234567890" "hi")
                    Sample.ninety_blank_lines) ∅ 0 0)
    /\ length (replies (exec Sample.calm
                          (WWeb.sendLongMessage (Sample.wweb_from "491234567890" "hi")
                             Sample.ninety_blank_lines) ∅ 0 0)) = length bodies
    /\ (forall (k : nat) (body : jsstring),
          bodies !! k = Some body ->
          replies (exec Sample.calm
                     (WWeb.sendLongMessage (Sample.wweb_from "491234567890" "hi")
                        Sample.ninety_blank_lines) ∅ 0 0) !! k
          = Some ([55357; 56516]%N ++ JS.lit " *Part " ++ JS.nat_toString (S k)
                  ++ JS.lit ":*" ++ [10; 10]%N ++ body))
    /\ Forall (fun body : jsstring =>
                 body ≠ [] /\ length body <= MAX_RESPONSE_LENGTH) bodies
    /\ concat bodies ++ dropped = Sample.ninety_blank_lines ++ [10%N]
    /\ (dropped = [] \/ JS.trim dropped = [])
    /\ (JS.trim Sample.ninety_blank_lines = Sample.ninety_blank_lines -> dropped = []).
Proof.
  refine (long_message_chunks Sample.calm (Sample.wweb_from "491234567890" "hi")
            (JS.lit "491234567890@s.whatsapp.net") ∅ 0 0 Sample.ninety_blank_lines
            calm_delivers _ _).
  - apply Nat.ltb_lt. vm_compute. reflexivity.
  - apply (bool_decide_unpack _). vm_compute. exact I.
Defined.

(** X10. A first line of at least 4000 units in a text longer than the
    threshold, when the transport delivers: the first reply is the
    label [Part 1], written out unit by unit, with nothing after it,
    and when another line follows, or the line is not blank, the second
    reply is the label [Part 2] followed by the whole line and its line
    break, more than 4000 units: a line is never divided. *)
Theorem oversized_first_line (w : world) (m : WWeb.message) (jid : jsstring)
    (st : gmap jsstring bool) (i j : nat) (text line : jsstring)
    (more : list jsstring) :
  delivers w ->
  MAX_RESPONSE_LENGTH < length text ->
  JS.split JS.LF text = line :: more ->
  MAX_RESPONSE_LENGTH <= length line ->
  exists others,
    replies (exec w (WWeb.sendLongMessage m text) st i j)
    = ([55357; 56516]%N ++ JS.lit " *Part 1:*" ++ [10; 10]%N) :: others
    /\ replies (exec w (Baileys.sendLongMessage jid text) st i j)
       = ([55357; 56516]%N ++ JS.lit " *Part 1:*" ++ [10; 10]%N) :: others
    /\ (more ≠ [] \/ not_blank line ->
        exists others',
          others = ([55357; 56516]%N ++ JS.lit " *Part 2:*" ++ [10; 10]%N
                    ++ line ++ [10%N]) :: others')
    /\ 4000 < length (line ++ [10%N]).
Proof.
  intros Hw Hlen Hsplit Hline.
  destruct (long_message_replies w m jid st i j text Hw Hlen) as [H1 H2].
  rewrite Hsplit in H1, H2. cbn [chunk_bodies] in H1, H2.
  assert (E : (MAX_RESPONSE_LENGTH <? length (@nil N) + length line + 1) = true)
    by (apply Nat.ltb_lt; simpl; lia).
  rewrite E in H1, H2. cbn [number_parts] in H1, H2.
  exists (number_parts 2 (chunk_bodies more ([] ++ line ++ [JS.LF]))).
  split; [exact H1|]. split; [exact H2|]. split.
  - intros Hmore. simpl app. destruct more as [|next more'].
    + destruct Hmore as [?|Hnb]; [done|]. cbn [chunk_bodies].
      rewrite trim_not_blank by (by apply not_blank_app_l).
      eexists. cbn [number_parts]. f_equal.
    + cbn [chunk_bodies].
      assert (E2 : (MAX_RESPONSE_LENGTH <? length (line ++ [JS.LF]) + length next + 1)
                   = true).
      { apply Nat.ltb_lt. rewrite length_app. simpl. lia. }
      rewrite E2. eexists. cbn [number_parts]. f_equal.
  - rewrite length_app. simpl. unfold MAX_RESPONSE_LENGTH in Hline. lia.
Qed.

Lemma oversized_first_line_witness :
  exists others,
    replies (exec Sample.calm
               (WWeb.sendLongMessage (Sample.wweb_from "491234567890" "hi")
                  Sample.one_long_line) ∅ 0 0)
    = ([55357; 56516]%N ++ JS.lit " *Part 1:*" ++ [10; 10]%N) :: others
    /\ replies (exec Sample.calm
                  (Baileys.sendLongMessage (JS.lit "491234567890@s.whatsapp.net")
                     Sample.one_long_line) ∅ 0 0)
       = ([55357; 56516]%N ++ JS.lit " *Part 1:*" ++ [10; 10]%N) :: others
    /\ (@nil jsstring ≠ [] \/ not_blank Sample.one_long_line ->
        exists others',
          others = ([55357; 56516]%N ++ JS.lit " *Part 2:*" ++ [10; 10]%N
                    ++ Sample.one_long_line ++ [10%N]) :: others')
    /\ 4000 < length (Sample.one_long_line ++ [10%N]).
Proof.
  refine (oversized_first_line Sample.calm (Sample.wweb_from "491234567890" "hi")
            (JS.lit "491234567890@s.whatsapp.net") ∅ 0 0
            Sample.one_long_line Sample.one_long_line [] calm_delivers _ _ _).
  - apply Nat.ltb_lt. vm_compute. reflexivity.
  - vm_compute. reflexivity.
  - apply Nat.leb_le. vm_compute. reflexivity.
Defined.

Lemma paced_cons to t texts :
  texts ≠ [] -> paced to (t :: texts) = Sent to t :: Slept 500 :: paced to texts.
Proof. by destruct texts. Qed.

Lemma send_chunks_paced w to lines chunk part st i j :
  delivers w ->
  exists tail,
    trace (exec w (WWeb.send_chunks to lines chunk part) st i j)
    = paced to (replies (exec w (WWeb.send_chunks to lines chunk part) st i j)) ++ tail
    /\ (tail = []
        \/ (tail = [Slept 500]
            /\ replies (exec w (WWeb.send_chunks to lines chunk part) st i j) ≠ [])).
Proof.
  intros Hw. revert chunk part st i j.
  induction lines as [|line rest IH]; intros chunk part st i j;
    cbn [WWeb.send_chunks].
  - destruct (JS.truthy (JS.trim chunk)).
    + exists []. simpl. rewrite Hw. simpl. split; [done | by left].
    + exists []. simpl. split; [done | by left].
  - destruct (MAX_RESPONSE_LENGTH <? length chunk + length line + 1); [|apply IH].
    rewrite !mbind_unfold. cbn [send bind exec sleep]. rewrite Hw. cbn [bind exec].
    destruct (IH (line ++ [JS.LF]) (S part) st (S i) j) as (tail & Ht & Htail).
    set (r := exec w (WWeb.send_chunks to rest (line ++ [JS.LF]) (S part)) st (S i) j)
      in *.
    change (trace (emit (Sent to (labelled part chunk)) (emit (Slept 500) r)))
      with (Sent to (labelled part chunk) :: Slept 500 :: trace r).
    change (replies (emit (Sent to (labelled part chunk)) (emit (Slept 500) r)))
      with (labelled part chunk :: replies r).
    clearbody r.
    destruct (replies r) as [|t ts] eqn:Er.
    + exists [Slept 500]. destruct Htail as [->|[_ ?]]; [|done].
      simpl in Ht. rewrite Ht. split; [done|]. right. done.
    + exists tail. rewrite paced_cons by done. rewrite Ht. split; [done|].
      destruct Htail as [->|[-> _]]; [by left | by right].
Qed.

(** X11. Pacing.  While the transport delivers, [sendLongMessage] does
    nothing but send its replies in order and pause for 500 ms: exactly
    one pause between any two consecutive replies, and at most one more
    pause after the last reply (when the last chunk is blank and not
    sent).  A text within the threshold is sent without any pause. *)
Theorem long_message_pacing (w : world) (m : WWeb.message) (jid : jsstring)
    (st : gmap jsstring bool) (i j : nat) (text : jsstring) :
  delivers w ->
  (exists tail,
     trace (exec w (WWeb.sendLongMessage m text) st i j)
     = paced (WWeb.from m) (replies (exec w (WWeb.sendLongMessage m text) st i j)) ++ tail
     /\ (tail = [] \/ tail = [Slept 500])
     /\ (length text <= MAX_RESPONSE_LENGTH -> tail = []))
  /\ (exists tail,
        trace (exec w (Baileys.sendLongMessage jid text) st i j)
        = paced jid (replies (exec w (Baileys.sendLongMessage jid text) st i j)) ++ tail
        /\ (tail = [] \/ tail = [Slept 500])
        /\ (length text <= MAX_RESPONSE_LENGTH -> tail = [])).
Proof.
  intros Hw. unfold WWeb.sendLongMessage, Baileys.sendLongMessage.
  rewrite (baileys_send_chunks_eq jid).
  destruct (length text <=? MAX_RESPONSE_LENGTH) eqn:E.
  - split; exists []; simpl; rewrite Hw; simpl; repeat split; auto.
  - apply Nat.leb_gt in E.
    split.
    + destruct (send_chunks_paced w (WWeb.from m) (JS.split JS.LF text) [] 1 st i j Hw)
        as (tail & Ht & Htail).
      exists tail. split; [done|]. split; [tauto | lia].
    + destruct (send_chunks_paced w jid (JS.split JS.LF text) [] 1 st i j Hw)
        as (tail & Ht & Htail).
      exists tail. split; [done|]. split; [tauto | lia].
Qed.

Lemma long_message_pacing_witness :
  exists tail,
    trace (exec Sample.calm
             (WWeb.sendLongMessage (Sample.wweb_from "491234567890" "hi")
                Sample.ninety_lines) ∅ 0 0)
    = paced (WWeb.from (Sample.wweb_from "491234567890" "hi"))
        (replies (exec Sample.calm
                    (WWeb.sendLongMessage (Sample.wweb_from "491234567890" "hi")
                       Sample.ninety_lines) ∅ 0 0)) ++ tail
    /\ (tail = [] \/ tail = [Slept 500])
    /\ (length Sample.ninety_lines <= MAX_RESPONSE_LENGTH -> tail = []).
Proof.
  exact (proj1 (long_message_pacing Sample.calm (Sample.wweb_from "491234567890" "hi")
                  (JS.lit "491234567890@s.whatsapp.net") ∅ 0 0 Sample.ninety_lines
                  calm_delivers)).
Defined.

(** ** From the configuration to the senders that are served *)

Lemma split_no_sep (sep : N) (x : jsstring) : sep ∉ x -> JS.split sep x = [x].
Proof.
  induction x as [|c x IH]; [done|].
  intros Hn. apply not_elem_of_cons in Hn as [Hne Hn]. cbn [JS.split].
  destruct (N.eqb_spec c sep) as [->|_]; [done|]. by rewrite IH.
Qed.

Lemma split_app_sep (sep : N) (x r : jsstring) :
  sep ∉ x -> JS.split sep (x ++ sep :: r) = x :: JS.split sep r.
Proof.
  induction x as [|c x IH]; intros Hn.
  - cbn [app JS.split]. by rewrite N.eqb_refl.
  - apply not_elem_of_cons in Hn as [Hne Hn]. cbn [app JS.split].
    destruct (N.eqb_spec c sep) as [->|_]; [done|]. by rewrite IH.
Qed.

Lemma split_join (sep : N) (items : list jsstring) :
  items ≠ [] -> Forall (fun x => sep ∉ x) items ->
  JS.split sep (join [sep] items) = items.
Proof.
  intros Hne Hitems. induction Hitems as [|x rest Hx Hrest IH]; [done|].
  destruct rest as [|y rest].
  - by apply split_no_sep.
  - change (join [sep] (x :: y :: rest)) with (x ++ sep :: join [sep] (y :: rest)).
    rewrite split_app_sep by done. f_equal. by apply IH.
Qed.

Lemma plain_spec (n : jsstring) :
  plain n = true ->
  n ≠ [] /\ (44%N ∉ n) /\ JS.trim n = n /\ JS.strip_leading_plus n = n.
Proof.
  unfold plain. rewrite !andb_true_iff, negb_true_iff, !eqb_true.
  intros [[[Ht Hc] Htrim] Hplus]. repeat split; try done.
  - intros ->. discriminate Ht.
  - intros Hin. apply not_true_iff_false in Hc. apply Hc.
    apply existsb_exists. exists 44%N. split; [by apply list_elem_of_In | done].
Qed.

Lemma forallb_Forall_true {A} (f : A -> bool) (l : list A) :
  forallb f l = true -> Forall (fun x => f x = true) l.
Proof.
  induction l as [|x l IH]; simpl; [constructor|].
  intros H. apply andb_true_iff in H as [Hx Hl]. constructor; [done | by apply IH].
Qed.

Lemma join_truthy (sep : jsstring) (x : jsstring) (rest : list jsstring) :
  x ≠ [] -> JS.truthy (join sep (x :: rest)) = true.
Proof. intros Hx. destruct x; [done|]. by destruct rest. Qed.

Lemma configured_lists (rt : runtime) (numbers : list jsstring) :
  WA_AUTHORIZED_NUMBERS rt = Some (join [44%N] numbers) ->
  forallb plain numbers = true ->
  WWeb.AUTHORIZED_NUMBERS rt = numbers /\ Baileys.AUTHORIZED_NUMBERS rt = numbers.
Proof.
  intros Hcfg Hplain. unfold WWeb.AUTHORIZED_NUMBERS, Baileys.AUTHORIZED_NUMBERS.
  rewrite Hcfg. destruct numbers as [|x rest]; [done|].
  apply forallb_Forall_true in Hplain.
  rewrite join_truthy
    by (apply Forall_cons in Hplain as [Hx _]; by apply plain_spec in Hx as [? _]).
  rewrite split_join; [|done|].
  - split.
    + rewrite <- (map_id (x :: rest)) at 2. apply map_ext_Forall.
      eapply Forall_impl; [exact Hplain|]. intros n Hn.
      by apply plain_spec in Hn as (_ & _ & -> & _).
    + rewrite <- (map_id (x :: rest)) at 2. apply map_ext_Forall.
      eapply Forall_impl; [exact Hplain|]. intros n Hn.
      apply plain_spec in Hn as (_ & _ & Ht & Hp). by rewrite Ht, Hp.
  - eapply Forall_impl; [exact Hplain|]. intros n Hn.
    by apply plain_spec in Hn as (_ & ? & _).
Qed.

(** X12. The configuration round trip.  When [WA_AUTHORIZED_NUMBERS]
    holds plain numbers joined by commas, the authorization list of
    both bridges is exactly the list of these numbers, in their order:
    no number is lost, altered or added. *)
Theorem configured_numbers_round_trip (rt : runtime) (numbers : list jsstring) :
  WA_AUTHORIZED_NUMBERS rt = Some (join [44%N] numbers) ->
  forallb plain numbers = true ->
  WWeb.AUTHORIZED_NUMBERS rt = numbers /\ Baileys.AUTHORIZED_NUMBERS rt = numbers.
Proof. apply configured_lists. Qed.

Lemma configured_numbers_round_trip_witness :
  WWeb.AUTHORIZED_NUMBERS two_numbers = [JS.lit "491234567890"; JS.lit "13057207870"]
  /\ Baileys.AUTHORIZED_NUMBERS two_numbers
     = [JS.lit "491234567890"; JS.lit "13057207870"].
Proof.
  apply (configured_numbers_round_trip two_numbers
           [JS.lit "491234567890"; JS.lit "13057207870"]); reflexivity.
Defined.

Lemma starts_with_refl (p : jsstring) : JS.starts_with p p = true.
Proof. induction p as [|c p IH]; [done|]. simpl. by rewrite N.eqb_refl. Qed.

(** [from.replace(suffix, '')] gives back the number in front of the
    suffix. *)
Lemma replace_suffix (sfx n : jsstring) :
  64%N ∉ n -> JS.replace (64%N :: sfx) [] (n ++ 64%N :: sfx) = n.
Proof.
  induction n as [|c n IH]; intros Hn.
  - cbn [app JS.replace]. rewrite starts_with_refl. apply drop_all.
  - apply not_elem_of_cons in Hn as [Hne Hn].
    cbn [app JS.replace JS.starts_with].
    destruct (N.eqb_spec 64 c) as [<-|_]; [done|]. cbn [andb]. by rewrite IH.
Qed.

Lemma personal_jid (n : jsstring) :
  JS.endsWith (n ++ JS.lit "@s.whatsapp.net") (JS.lit "@g.us") = false
  /\ n ++ JS.lit "@s.whatsapp.net" ≠ JS.lit "status@broadcast".
Proof.
  split.
  - unfold JS.endsWith. by rewrite reverse_app.
  - intros E. apply (f_equal reverse) in E. rewrite reverse_app in E. discriminate E.
Qed.

(** X13. Who is served.  With plain numbers configured, a personal
    [/help] message whose sender id is a number followed by the
    server suffix is answered with the help text when the number is
    one of the configured ones, and has no effect at all otherwise. *)
Theorem help_for_configured_numbers_only (rt : runtime) (w : world)
    (st : gmap jsstring bool) (i j : nat) (numbers : list jsstring) :
  WA_AUTHORIZED_NUMBERS rt = Some (join [44%N] numbers) ->
  forallb plain numbers = true ->
  (forall (n : jsstring) (m : WWeb.message),
     64%N ∉ n -> WWeb.from m = n ++ JS.lit "@c.us" ->
     WWeb.isGroupMsg m = false -> WWeb.isStatus m = false -> WWeb.body m ≠ [] ->
     toLowerCase rt (JS.trim (WWeb.body m)) = JS.lit "/help" ->
     trace (exec w (WWeb.on_message rt m) st i j)
     = if bool_decide (n ∈ numbers) then [Sent (WWeb.from m) WWeb.HELP] else [])
  /\ (forall (n : jsstring) (c : Baileys.content),
        64%N ∉ n -> JS.trim (Baileys.text_of c) ≠ [] ->
        toLowerCase rt (JS.trim (Baileys.text_of c)) = JS.lit "/help" ->
        trace (exec w (Baileys.on_message rt
                         (Baileys.Message (Some c) false
                            (n ++ JS.lit "@s.whatsapp.net"))) st i j)
        = if bool_decide (n ∈ numbers)
          then [Sent (n ++ JS.lit "@s.whatsapp.net") Baileys.HELP] else []).
Proof.
  intros Hcfg Hplain.
  destruct (configured_lists rt numbers Hcfg Hplain) as [HW HB].
  split.
  - intros n m Hn Hfrom Hg Hs Hb Hhelp.
    assert (Hsender : JS.replace (JS.lit "@c.us") [] (WWeb.from m) = n).
    { rewrite Hfrom. by apply (replace_suffix (JS.lit "c.us")). }
    case_bool_decide as Hin.
    + assert (Hin' : JS.replace (JS.lit "@c.us") [] (WWeb.from m)
                       ∈ WWeb.AUTHORIZED_NUMBERS rt) by (by rewrite Hsender, HW).
      destruct (wweb_command_guards rt m Hg Hs Hb Hin') as [G1 G2].
      unfold WWeb.on_message. rewrite G1, G2, Hhelp.
      change (JS.eqb (JS.lit "/help") (JS.lit "/help")) with true. cbv iota.
      simpl. by destruct (delivery w i).
    + rewrite wweb_unauthorized; [done|]. by rewrite Hsender, HW.
  - intros n c Hn Ht Hhelp.
    assert (Hsender : JS.replace (JS.lit "@s.whatsapp.net") []
                        (n ++ JS.lit "@s.whatsapp.net") = n)
      by (by apply (replace_suffix (JS.lit "s.whatsapp.net"))).
    destruct (personal_jid n) as [Hg Hs].
    case_bool_decide as Hin.
    + rewrite baileys_on_message_accepted; try done; [|by rewrite Hsender, HB].
      unfold Baileys.handleMessage. rewrite Hhelp.
      change (JS.eqb (JS.lit "/help") (JS.lit "/help")) with true. cbv iota.
      simpl. by destruct (delivery w i).
    + rewrite baileys_unauthorized; [done|].
      cbn [Baileys.remoteJid]. by rewrite Hsender, HB.
Qed.

Lemma help_for_configured_numbers_only_witness :
  trace (exec Sample.calm
           (WWeb.on_message two_numbers (Sample.wweb_from "13057207870" "/help")) ∅ 0 0)
    = (if bool_decide (JS.lit "13057207870"
                         ∈ [JS.lit "491234567890"; JS.lit "13057207870"])
       then [Sent (WWeb.from (Sample.wweb_from "13057207870" "/help")) WWeb.HELP]
       else [])
  /\ trace (exec Sample.calm
              (Baileys.on_message two_numbers
                 (Baileys.Message (Some (Baileys.Content (Some (JS.lit "/help")) None))
                    false (JS.lit "15550001111" ++ JS.lit "@s.whatsapp.net"))) ∅ 0 0)
     = (if bool_decide (JS.lit "15550001111"
                          ∈ [JS.lit "491234567890"; JS.lit "13057207870"])
        then [Sent (JS.lit "15550001111" ++ JS.lit "@s.whatsapp.net") Baileys.HELP]
        else []).
Proof.
  destruct (help_for_configured_numbers_only two_numbers Sample.calm ∅ 0 0
              [JS.lit "491234567890"; JS.lit "13057207870"] eq_refl eq_refl)
    as [HW HB].
  split.
  - apply (HW (JS.lit "13057207870") (Sample.wweb_from "13057207870" "/help"));
      try reflexivity; try discriminate.
    apply (bool_decide_unpack _). vm_compute. exact I.
  - apply (HB (JS.lit "15550001111") (Baileys.Content (Some (JS.lit "/help")) None));
      try reflexivity; try discriminate.
    apply (bool_decide_unpack _). vm_compute. exact I.
Defined.

(** ** Messages that are passed over *)

Lemma baileys_passed_over (rt : runtime) (msg : Baileys.message) :
  passed_over msg = true -> Baileys.on_message rt msg = Ret tt.
Proof.
  unfold passed_over, Baileys.on_message.
  destruct (Baileys.payload msg) as [c|]; [|done].
  destruct (Baileys.fromMe msg || JS.endsWith (Baileys.remoteJid msg) (JS.lit "@g.us")
            || JS.eqb (Baileys.remoteJid msg) (JS.lit "status@broadcast")); [done|].
  cbn [orb]. by intros ->.
Qed.

(** X14. Messages that are not personal texts never reach the
    assistant, whoever sent them.  The whatsapp-web.js handler returns
    at once on a group message, a status update or an empty body.  In
    a Baileys batch the messages without payload, sent by the account
    itself, from a group, from the status broadcast or with a blank text
    are passed over: the batch runs as if they were not in it. *)
Theorem passed_over_messages_leave_no_trace (rt : runtime) (w : world)
    (st : gmap jsstring bool) (i j : nat) :
  (forall m : WWeb.message,
     WWeb.isGroupMsg m || WWeb.isStatus m || negb (JS.truthy (WWeb.body m)) = true ->
     exec w (WWeb.on_message rt m) st i j = Run st [] (inl tt))
  /\ (forall batch : list Baileys.message,
        exec w (Baileys.on_upsert rt batch) st i j
        = exec w (Baileys.on_upsert rt (filter (fun msg => passed_over msg = false) batch))
            st i j).
Proof.
  split.
  - intros m Hm. unfold WWeb.on_message. by rewrite Hm.
  - intros batch. f_equal. induction batch as [|msg rest IH]; [done|].
    rewrite filter_cons. destruct (decide (passed_over msg = false)) as [Hk|Hk].
    + cbn [Baileys.on_upsert]. by rewrite IH.
    + apply not_false_is_true in Hk. cbn [Baileys.on_upsert].
      by rewrite (baileys_passed_over rt msg Hk), mbind_unfold.
Qed.

Lemma passed_over_messages_leave_no_trace_witness :
  exec Sample.calm
    (WWeb.on_message Sample.rt
       (WWeb.Message true false (JS.lit "hello") (JS.lit "491234567890@c.us"))) ∅ 0 0
  = Run ∅ [] (inl tt)
  /\ exec Sample.calm
       (Baileys.on_upsert Sample.rt
          [Baileys.Message (Some (Baileys.Content (Some (JS.lit "hello")) None)) false
             (JS.lit "491234567890-1600000000@g.us");
           Sample.baileys_from "491234567890" "/help"]) ∅ 0 0
     = exec Sample.calm
         (Baileys.on_upsert Sample.rt
            (filter (fun msg => passed_over msg = false)
               [Baileys.Message (Some (Baileys.Content (Some (JS.lit "hello")) None)) false
                  (JS.lit "491234567890-1600000000@g.us");
                Sample.baileys_from "491234567890" "/help"])) ∅ 0 0.
Proof.
  destruct (passed_over_messages_leave_no_trace Sample.rt Sample.calm ∅ 0 0) as [HW HB].
  split.
  - apply HW. reflexivity.
  - apply HB.
Defined.
